(** * The call manager of the voice-bot test harness

    A shallow embedding of [CallManager] (the engine behind [server.js]): the
    session registry, the audio buffer and loudness gate, the boundary
    (silence) timer, the watchdog, the turn cycle with its provider calls,
    the playback pacer and call teardown.

    JavaScript objects are shared by reference: a timer callback closes over
    the session object it was armed with, while the registry entry of a call
    can be replaced by a shallow copy ([{...callState}]).  The embedding
    therefore keeps session objects, turn arrays and frame arrays in stores
    indexed by location, and the registry maps a call identifier to a
    location.  Timers and suspended [async] functions are explicit: an event
    either calls a method, lets a timer expire or settles an awaited promise. *)

From Stdlib Require Import ZArith QArith Lia Ascii String.
From stdpp Require Import gmap strings list fin_maps.

Local Open Scope Z_scope.

(** ** Numbers *)

(** The RMS loudness handed to [handleIncomingAudio] is a JavaScript number:
    [Math.sqrt(sumSquares / n)] is [NaN] for an empty frame, and every
    comparison with [NaN] is false. *)
Inductive JsNum :=
  | NaN
  | Num (q : Q).

Definition LOUDNESS_THRESHOLD : Q := 300 # 1.

(** [rms > LOUDNESS_THRESHOLD] *)
Definition isLoud (rms : JsNum) : bool :=
  match rms with
  | NaN => false
  | Num q => negb (Qle_bool q LOUDNESS_THRESHOLD)
  end.

(** [rms <= LOUDNESS_THRESHOLD] *)
Definition isQuiet (rms : JsNum) : bool :=
  match rms with
  | NaN => false
  | Num q => Qle_bool q LOUDNESS_THRESHOLD
  end.

(** Storing a number into an [Int16Array]: truncate towards zero, then wrap
    modulo 2^16 into the signed range. *)
Definition Qtrunc (q : Q) : Z := Z.quot (Qnum q) (Z.pos (Qden q)).

Definition wrap16 (z : Z) : Z :=
  let m := z mod 65536 in
  if m <? 32768 then m else m - 65536.

Definition toInt16 (q : Q) : Z := wrap16 (Qtrunc q).

Definition VOLUME_MULTIPLIER : Q := 5 # 2.

(** One iteration of the volume boost loop of [playAIResponse]:
    [boosted = samples[i] * 2.5], the two clamps, [samples[i] = boosted]. *)
Definition boostSample (sample : Z) : Z :=
  let boosted := Qmult (inject_Z sample) VOLUME_MULTIPLIER in
  let boosted := if negb (Qle_bool boosted (32767 # 1)) then 32767 # 1 else boosted in
  let boosted := if negb (Qle_bool ((-32768) # 1) boosted) then (-32768) # 1 else boosted in
  toInt16 boosted.

(** ** Strings *)

(** Characters are code units; [trim] strips the white space and line
    terminators of ECMAScript that fit in one byte. *)
Definition isWhiteSpace (c : ascii) : bool :=
  let n := nat_of_ascii c in
  bool_decide (n = 9%nat ∨ n = 10%nat ∨ n = 11%nat ∨ n = 12%nat ∨ n = 13%nat
               ∨ n = 32%nat ∨ n = 160%nat).

Fixpoint trimStart (s : string) : string :=
  match s with
  | EmptyString => EmptyString
  | String c rest => if isWhiteSpace c then trimStart rest else s
  end.

Fixpoint trimEnd (s : string) : string :=
  match s with
  | EmptyString => EmptyString
  | String c rest =>
      match trimEnd rest with
      | EmptyString => if isWhiteSpace c then EmptyString else String c EmptyString
      | rest' => String c rest'
      end
  end.

Definition trim (s : string) : string := trimEnd (trimStart s).

(** [Array.prototype.slice(-k)]: the last [k] elements, or the whole array
    when it is shorter. *)
Definition sliceLast {A} (k : nat) (l : list A) : list A :=
  drop (length l - k) l.

(** ** Data model *)

Definition Loc := nat.
Definition TimerId := nat.
Definition TaskId := nat.
Definition WsId := nat.

Bind Scope nat_scope with Loc TimerId TaskId WsId.

Inductive Role := user | assistant.

Record Turn := { role : Role; content : string }.

Inductive Scenario := BOOKING | CANCELLATION.

(** A raw PCM frame: the bytes of one [media] message after decoding. *)
Definition Chunk := list Z.

(** The session object created by [startCall].  [history] and [audioBuffer]
    hold references to arrays, the two timer fields hold timer handles.
    [lastIntentProcessed] and [otpCopy] are the properties that the object
    spreads [{...callState, lastIntentProcessed: true}] and
    [{...callState, latestReceivedOTP: ...}] add to their copies. *)
Record CallState := {
  history : Loc;
  isBookingConfirmed : bool;
  scenario : Scenario;
  targetLanguage : string;
  symptom : string;
  startTime : Z;
  audioBuffer : Loc;
  silenceTimer : option TimerId;
  watchdogTimeout : option TimerId;
  hasSpoken : bool;
  isProcessing : bool;
  isEnding : bool;
  ws : option WsId;
  packetCount : Z;
  lastIntentProcessed : bool;
  otpCopy : option (option string)
}.

Definition set_audioBuffer (v : Loc) (s : CallState) : CallState :=
  {| history := history s; isBookingConfirmed := isBookingConfirmed s;
     scenario := scenario s; targetLanguage := targetLanguage s;
     symptom := symptom s; startTime := startTime s; audioBuffer := v;
     silenceTimer := silenceTimer s; watchdogTimeout := watchdogTimeout s;
     hasSpoken := hasSpoken s; isProcessing := isProcessing s;
     isEnding := isEnding s; ws := ws s; packetCount := packetCount s;
     lastIntentProcessed := lastIntentProcessed s; otpCopy := otpCopy s |}.

Definition set_silenceTimer (v : option TimerId) (s : CallState) : CallState :=
  {| history := history s; isBookingConfirmed := isBookingConfirmed s;
     scenario := scenario s; targetLanguage := targetLanguage s;
     symptom := symptom s; startTime := startTime s; audioBuffer := audioBuffer s;
     silenceTimer := v; watchdogTimeout := watchdogTimeout s;
     hasSpoken := hasSpoken s; isProcessing := isProcessing s;
     isEnding := isEnding s; ws := ws s; packetCount := packetCount s;
     lastIntentProcessed := lastIntentProcessed s; otpCopy := otpCopy s |}.

Definition set_watchdogTimeout (v : option TimerId) (s : CallState) : CallState :=
  {| history := history s; isBookingConfirmed := isBookingConfirmed s;
     scenario := scenario s; targetLanguage := targetLanguage s;
     symptom := symptom s; startTime := startTime s; audioBuffer := audioBuffer s;
     silenceTimer := silenceTimer s; watchdogTimeout := v;
     hasSpoken := hasSpoken s; isProcessing := isProcessing s;
     isEnding := isEnding s; ws := ws s; packetCount := packetCount s;
     lastIntentProcessed := lastIntentProcessed s; otpCopy := otpCopy s |}.

Definition set_hasSpoken (v : bool) (s : CallState) : CallState :=
  {| history := history s; isBookingConfirmed := isBookingConfirmed s;
     scenario := scenario s; targetLanguage := targetLanguage s;
     symptom := symptom s; startTime := startTime s; audioBuffer := audioBuffer s;
     silenceTimer := silenceTimer s; watchdogTimeout := watchdogTimeout s;
     hasSpoken := v; isProcessing := isProcessing s;
     isEnding := isEnding s; ws := ws s; packetCount := packetCount s;
     lastIntentProcessed := lastIntentProcessed s; otpCopy := otpCopy s |}.

Definition set_isProcessing (v : bool) (s : CallState) : CallState :=
  {| history := history s; isBookingConfirmed := isBookingConfirmed s;
     scenario := scenario s; targetLanguage := targetLanguage s;
     symptom := symptom s; startTime := startTime s; audioBuffer := audioBuffer s;
     silenceTimer := silenceTimer s; watchdogTimeout := watchdogTimeout s;
     hasSpoken := hasSpoken s; isProcessing := v;
     isEnding := isEnding s; ws := ws s; packetCount := packetCount s;
     lastIntentProcessed := lastIntentProcessed s; otpCopy := otpCopy s |}.

Definition set_isEnding (v : bool) (s : CallState) : CallState :=
  {| history := history s; isBookingConfirmed := isBookingConfirmed s;
     scenario := scenario s; targetLanguage := targetLanguage s;
     symptom := symptom s; startTime := startTime s; audioBuffer := audioBuffer s;
     silenceTimer := silenceTimer s; watchdogTimeout := watchdogTimeout s;
     hasSpoken := hasSpoken s; isProcessing := isProcessing s;
     isEnding := v; ws := ws s; packetCount := packetCount s;
     lastIntentProcessed := lastIntentProcessed s; otpCopy := otpCopy s |}.

Definition set_packetCount (v : Z) (s : CallState) : CallState :=
  {| history := history s; isBookingConfirmed := isBookingConfirmed s;
     scenario := scenario s; targetLanguage := targetLanguage s;
     symptom := symptom s; startTime := startTime s; audioBuffer := audioBuffer s;
     silenceTimer := silenceTimer s; watchdogTimeout := watchdogTimeout s;
     hasSpoken := hasSpoken s; isProcessing := isProcessing s;
     isEnding := isEnding s; ws := ws s; packetCount := v;
     lastIntentProcessed := lastIntentProcessed s; otpCopy := otpCopy s |}.

Definition set_lastIntentProcessed (v : bool) (s : CallState) : CallState :=
  {| history := history s; isBookingConfirmed := isBookingConfirmed s;
     scenario := scenario s; targetLanguage := targetLanguage s;
     symptom := symptom s; startTime := startTime s; audioBuffer := audioBuffer s;
     silenceTimer := silenceTimer s; watchdogTimeout := watchdogTimeout s;
     hasSpoken := hasSpoken s; isProcessing := isProcessing s;
     isEnding := isEnding s; ws := ws s; packetCount := packetCount s;
     lastIntentProcessed := v; otpCopy := otpCopy s |}.

Definition set_otpCopy (v : option (option string)) (s : CallState) : CallState :=
  {| history := history s; isBookingConfirmed := isBookingConfirmed s;
     scenario := scenario s; targetLanguage := targetLanguage s;
     symptom := symptom s; startTime := startTime s; audioBuffer := audioBuffer s;
     silenceTimer := silenceTimer s; watchdogTimeout := watchdogTimeout s;
     hasSpoken := hasSpoken s; isProcessing := isProcessing s;
     isEnding := isEnding s; ws := ws s; packetCount := packetCount s;
     lastIntentProcessed := lastIntentProcessed s; otpCopy := v |}.

(** *** Timers *)

(** What a timer runs when it expires, with the variables its closure
    captured: the session object, the call identifier, and the socket or the
    reason text. *)
Inductive TimerCb :=
  | SilenceCb (o : Loc) (callSid : string) (sock : WsId)
  | WatchdogCb (o : Loc) (callSid : string) (reason : string).

(** A timer created by [setTimeout].  Handles are never reused, so a timer
    that expired or was cleared stays in the table with [pending = false]. *)
Record Timer := { cb : TimerCb; delay : Z; pending : bool }.

(** *** Sockets *)

Inductive ReadyState := CONNECTING | OPEN | CLOSING | CLOSED.

Record Socket := { readyState : ReadyState; streamSid : option string }.

(** *** Provider values *)

(** A JSON value as far as [=== true] can tell. *)
Inductive JsVal :=
  | JUndefined
  | JBool (b : bool)
  | JOther (text : string).

(** The grading report parsed from the provider's JSON. *)
Record Report := {
  status : string;
  reportBookingConfirmed : JsVal;
  languageDetectionSuccess : JsVal;
  uxAnalysis : string;
  enhancements : list string
}.

(** *** Suspended async functions *)

(** Who awaits [playAIResponse]: the turn cycle of session object [o], whose
    [finally] block runs when playback returns or throws, or a caller that
    has nothing left to do. *)
Inductive After :=
  | AfterCycle (o : Loc)
  | Detached.

(** The continuation of an [async] function parked at an [await]. *)
Inductive Kont :=
  | KDone
  (* the boundary callback, awaiting [streamToText] *)
  | KStt (o : Loc) (callSid : string) (sock : WsId)
  (* ... awaiting [isHallucination] *)
  | KHall (o : Loc) (callSid : string) (sock : WsId) (transcript languageCode : string)
  (* ... awaiting [processCustomerIntent]; [passed] is the copy handed to it *)
  | KLlm (o : Loc) (callSid : string) (sock : WsId) (languageCode : string) (passed : Loc)
  (* [triggerAIResponse], awaiting [processCustomerIntent] *)
  | KTriggerLlm (o : Loc) (callSid : string) (sock : WsId)
  (* [playAIResponse], awaiting [textToStream] *)
  | KTts (callSid : string) (sock : WsId) (aft : After)
  (* [playAIResponse], awaiting the 35 ms pause between two frames *)
  | KPace (callSid : string) (sock : WsId) (mulawArray : list Z) (offset : nat) (aft : After)
  (* [endCall], awaiting the 100 ms pause of its wait loop *)
  | KEndWait (o : Loc) (callSid : string) (waitLoops : nat)
  (* [endCall], awaiting [generateTestReport] *)
  | KEndReport (o : Loc) (callSid : string).

(** The value an awaited promise settles with. *)
Inductive Answer :=
  | ASleep
  | AStt (text languageCode : string)
  | AHall (isFakeAudio : bool)
  (* the completion text, or the provider's [catch] branch *)
  | ALlm (replyText : string)
  | ALlmError
  (* the decoded samples after [toSampleRate(8000)], or none when the wave
     parser rejects the bytes *)
  | ATts (samples : option (list Z))
  (* the grading report, or a rejected [generateTestReport] promise *)
  | AReport (r : Report)
  | AReportFailed.

(** *** Observable output *)

Inductive ReportLine :=
  | Generated (sc : Scenario) (r : Report)
  | Skipped.

Inductive Effect :=
  (* the [###REPORT###] line *)
  | OReport (callSid : string) (line : ReportLine)
  (* [ws.send] of one media frame *)
  | OSend (sock : WsId) (stream : option string) (payload : list Z)
  | OClose (sock : WsId)
  (* requests to the providers *)
  | OSttCall (frames : list Chunk)
  | OHallCall (transcript targetLang languageCode : string)
  | OLlmCall (transcript : string) (passed : Loc) (otp : option string)
  | OTtsCall (text languageCode : string)
  | OReportCall (o : Loc).

(** *** The manager and its runtime *)

Record Manager := {
  activeCalls : gmap string Loc;
  nextScenario : Scenario;
  pendingTestLanguage : string;
  manualOverrideResponse : option string;
  latestReceivedOTP : option string;
  (* the heap *)
  objs : list CallState;
  turnArrs : list (list Turn);
  frameArrs : list (list Chunk);
  (* the event loop *)
  timers : list Timer;
  tasks : list Kont;
  sockets : gmap WsId Socket;
  out : list Effect
}.

Definition set_activeCalls (v : gmap string Loc) (m : Manager) : Manager :=
  {| activeCalls := v; nextScenario := nextScenario m;
     pendingTestLanguage := pendingTestLanguage m;
     manualOverrideResponse := manualOverrideResponse m;
     latestReceivedOTP := latestReceivedOTP m; objs := objs m;
     turnArrs := turnArrs m; frameArrs := frameArrs m; timers := timers m;
     tasks := tasks m; sockets := sockets m; out := out m |}.

Definition set_nextScenario (v : Scenario) (m : Manager) : Manager :=
  {| activeCalls := activeCalls m; nextScenario := v;
     pendingTestLanguage := pendingTestLanguage m;
     manualOverrideResponse := manualOverrideResponse m;
     latestReceivedOTP := latestReceivedOTP m; objs := objs m;
     turnArrs := turnArrs m; frameArrs := frameArrs m; timers := timers m;
     tasks := tasks m; sockets := sockets m; out := out m |}.

Definition set_pendingTestLanguage (v : string) (m : Manager) : Manager :=
  {| activeCalls := activeCalls m; nextScenario := nextScenario m;
     pendingTestLanguage := v;
     manualOverrideResponse := manualOverrideResponse m;
     latestReceivedOTP := latestReceivedOTP m; objs := objs m;
     turnArrs := turnArrs m; frameArrs := frameArrs m; timers := timers m;
     tasks := tasks m; sockets := sockets m; out := out m |}.

Definition set_manualOverrideResponse (v : option string) (m : Manager) : Manager :=
  {| activeCalls := activeCalls m; nextScenario := nextScenario m;
     pendingTestLanguage := pendingTestLanguage m;
     manualOverrideResponse := v;
     latestReceivedOTP := latestReceivedOTP m; objs := objs m;
     turnArrs := turnArrs m; frameArrs := frameArrs m; timers := timers m;
     tasks := tasks m; sockets := sockets m; out := out m |}.

Definition set_latestReceivedOTP (v : option string) (m : Manager) : Manager :=
  {| activeCalls := activeCalls m; nextScenario := nextScenario m;
     pendingTestLanguage := pendingTestLanguage m;
     manualOverrideResponse := manualOverrideResponse m;
     latestReceivedOTP := v; objs := objs m;
     turnArrs := turnArrs m; frameArrs := frameArrs m; timers := timers m;
     tasks := tasks m; sockets := sockets m; out := out m |}.

Definition set_objs (v : list CallState) (m : Manager) : Manager :=
  {| activeCalls := activeCalls m; nextScenario := nextScenario m;
     pendingTestLanguage := pendingTestLanguage m;
     manualOverrideResponse := manualOverrideResponse m;
     latestReceivedOTP := latestReceivedOTP m; objs := v;
     turnArrs := turnArrs m; frameArrs := frameArrs m; timers := timers m;
     tasks := tasks m; sockets := sockets m; out := out m |}.

Definition set_turnArrs (v : list (list Turn)) (m : Manager) : Manager :=
  {| activeCalls := activeCalls m; nextScenario := nextScenario m;
     pendingTestLanguage := pendingTestLanguage m;
     manualOverrideResponse := manualOverrideResponse m;
     latestReceivedOTP := latestReceivedOTP m; objs := objs m;
     turnArrs := v; frameArrs := frameArrs m; timers := timers m;
     tasks := tasks m; sockets := sockets m; out := out m |}.

Definition set_frameArrs (v : list (list Chunk)) (m : Manager) : Manager :=
  {| activeCalls := activeCalls m; nextScenario := nextScenario m;
     pendingTestLanguage := pendingTestLanguage m;
     manualOverrideResponse := manualOverrideResponse m;
     latestReceivedOTP := latestReceivedOTP m; objs := objs m;
     turnArrs := turnArrs m; frameArrs := v; timers := timers m;
     tasks := tasks m; sockets := sockets m; out := out m |}.

Definition set_timers (v : list Timer) (m : Manager) : Manager :=
  {| activeCalls := activeCalls m; nextScenario := nextScenario m;
     pendingTestLanguage := pendingTestLanguage m;
     manualOverrideResponse := manualOverrideResponse m;
     latestReceivedOTP := latestReceivedOTP m; objs := objs m;
     turnArrs := turnArrs m; frameArrs := frameArrs m; timers := v;
     tasks := tasks m; sockets := sockets m; out := out m |}.

Definition set_tasks (v : list Kont) (m : Manager) : Manager :=
  {| activeCalls := activeCalls m; nextScenario := nextScenario m;
     pendingTestLanguage := pendingTestLanguage m;
     manualOverrideResponse := manualOverrideResponse m;
     latestReceivedOTP := latestReceivedOTP m; objs := objs m;
     turnArrs := turnArrs m; frameArrs := frameArrs m; timers := timers m;
     tasks := v; sockets := sockets m; out := out m |}.

Definition set_sockets (v : gmap WsId Socket) (m : Manager) : Manager :=
  {| activeCalls := activeCalls m; nextScenario := nextScenario m;
     pendingTestLanguage := pendingTestLanguage m;
     manualOverrideResponse := manualOverrideResponse m;
     latestReceivedOTP := latestReceivedOTP m; objs := objs m;
     turnArrs := turnArrs m; frameArrs := frameArrs m; timers := timers m;
     tasks := tasks m; sockets := v; out := out m |}.

Definition set_out (v : list Effect) (m : Manager) : Manager :=
  {| activeCalls := activeCalls m; nextScenario := nextScenario m;
     pendingTestLanguage := pendingTestLanguage m;
     manualOverrideResponse := manualOverrideResponse m;
     latestReceivedOTP := latestReceivedOTP m; objs := objs m;
     turnArrs := turnArrs m; frameArrs := frameArrs m; timers := timers m;
     tasks := tasks m; sockets := sockets m; out := v |}.

(** The manager built by [constructor()], in an empty runtime. *)
Definition newManager : Manager :=
  {| activeCalls := ∅; nextScenario := BOOKING;
     pendingTestLanguage := "English";
     manualOverrideResponse := None; latestReceivedOTP := None;
     objs := []; turnArrs := []; frameArrs := []; timers := []; tasks := [];
     sockets := ∅; out := [] |}.

(** ** Runtime primitives *)

(** [this.activeCalls.get(callSid)]: the location of the session object of a
    call and the object's current fields. *)
Definition getCall (m : Manager) (callSid : string) : option (Loc * CallState) :=
  match activeCalls m !! callSid with
  | Some o =>
      match objs m !! o with
      | Some s => Some (o, s)
      | None => None
      end
  | None => None
  end.

(** Write the fields of the object at [o] back. *)
Definition putObj (o : Loc) (s : CallState) (m : Manager) : Manager :=
  set_objs (<[o := s]> (objs m)) m.

(** A new object, as made by an object literal or an object spread. *)
Definition allocObj (s : CallState) (m : Manager) : Loc * Manager :=
  (length (objs m), set_objs (objs m ++ [s]) m).

Definition allocTurns (l : list Turn) (m : Manager) : Loc * Manager :=
  (length (turnArrs m), set_turnArrs (turnArrs m ++ [l]) m).

Definition allocFrames (l : list Chunk) (m : Manager) : Loc * Manager :=
  (length (frameArrs m), set_frameArrs (frameArrs m ++ [l]) m).

(** [arr.push(t)] on the turn array at [h]; [None] when there is no array
    there (a [TypeError] in the source). *)
Definition pushTurn (h : Loc) (t : Turn) (m : Manager) : option Manager :=
  match turnArrs m !! h with
  | Some l => Some (set_turnArrs (<[h := l ++ [t]]> (turnArrs m)) m)
  | None => None
  end.

Definition emit (e : Effect) (m : Manager) : Manager :=
  set_out (out m ++ [e]) m.

Definition setTimeout (c : TimerCb) (ms : Z) (m : Manager) : TimerId * Manager :=
  (length (timers m),
   set_timers (timers m ++ [{| cb := c; delay := ms; pending := true |}]) m).

Definition cancel (tm : Timer) : Timer :=
  {| cb := cb tm; delay := delay tm; pending := false |}.

(** [clearTimeout(t)]: no effect on a timer that already ran. *)
Definition clearTimeout (t : TimerId) (m : Manager) : Manager :=
  set_timers (alter cancel t (timers m)) m.

(** Park an async function at an [await]: a first suspension takes a new task
    slot, a later one keeps its slot. *)
Definition park (slot : option TaskId) (k : Kont) (m : Manager) : Manager :=
  match slot with
  | Some t => set_tasks (<[t := k]> (tasks m)) m
  | None => set_tasks (tasks m ++ [k]) m
  end.

(** The async function returned (or threw past its last handler). *)
Definition finish (slot : option TaskId) (m : Manager) : Manager :=
  match slot with
  | Some t => set_tasks (<[t := KDone]> (tasks m)) m
  | None => m
  end.

(** [ws.readyState === 1] *)
Definition isOpen (m : Manager) (w : WsId) : bool :=
  match sockets m !! w with
  | Some sk => match readyState sk with OPEN => true | _ => false end
  | None => false
  end.

(** [ws.close()] on an open socket: the socket starts its closing
    handshake. *)
Definition wsClose (w : WsId) (m : Manager) : Manager :=
  emit (OClose w)
    (set_sockets (alter (fun sk => {| readyState := CLOSING; streamSid := streamSid sk |})
                    w (sockets m)) m).

Definition isSet {A} (x : option A) : bool :=
  match x with Some _ => true | None => false end.

(** Truthiness of a string-or-null value. *)
Definition truthy (x : option string) : option string :=
  match x with
  | Some EmptyString => None
  | Some s => Some s
  | None => None
  end.

(** ** The methods of [CallManager] *)

Definition symptomOptions : list string :=
  ["fever"; "severe headache"; "stomach ache"; "lower back pain";
   "persistent cough"; "sore throat"; "knee pain"; "body fatigue";
   "skin rash"; "mild chest pain"].

(** [resetWatchdog(callSid, ms, reason)] *)
Definition resetWatchdog (m : Manager) (callSid : string) (ms : Z) (reason : string)
  : Manager :=
  match getCall m callSid with
  | None => m
  | Some (o, s) =>
      let m := match watchdogTimeout s with
               | Some t => clearTimeout t m
               | None => m
               end in
      let '(t, m) := setTimeout (WatchdogCb o callSid reason) ms m in
      putObj o (set_watchdogTimeout (Some t) s) m
  end.

(** [startCall(callSid, ws)].  [rnd] is the value of
    [Math.floor(Math.random() * symptomOptions.length)] and [now] that of
    [Date.now()].  The watchdog is reset before the new session is stored. *)
Definition startCall (m : Manager) (callSid : string) (sock : option WsId)
    (rnd : nat) (now : Z) : Manager :=
  let currentScenario := nextScenario m in
  let currentLanguage :=
    match pendingTestLanguage m with
    | EmptyString => "English"
    | l => l
    end in
  let m := set_manualOverrideResponse None m in
  let randomSymptom := nth (rnd mod 10) symptomOptions "fever" in
  let m := resetWatchdog m callSid 120000
             "Target bot unreachable (no connection) for 2 minutes." in
  let '(h, m) := allocTurns [] m in
  let '(b, m) := allocFrames [] m in
  let '(o, m) := allocObj
    {| history := h; isBookingConfirmed := false; scenario := currentScenario;
       targetLanguage := currentLanguage; symptom := randomSymptom;
       startTime := now; audioBuffer := b; silenceTimer := None;
       watchdogTimeout := None; hasSpoken := false; isProcessing := false;
       isEnding := false; ws := sock; packetCount := 0;
       lastIntentProcessed := false; otpCopy := None |} m in
  set_activeCalls (<[callSid := o]> (activeCalls m)) m.

(** [if (callState.silenceTimer) { clearTimeout(...); callState.silenceTimer = null; }] *)
Definition dropSilenceTimer (st : CallState * Manager) : CallState * Manager :=
  let '(s, m) := st in
  match silenceTimer s with
  | Some t => (set_silenceTimer None s, clearTimeout t m)
  | None => st
  end.

(** [if (callState.watchdogTimeout) { clearTimeout(...); callState.watchdogTimeout = null; }] *)
Definition dropWatchdog (st : CallState * Manager) : CallState * Manager :=
  let '(s, m) := st in
  match watchdogTimeout s with
  | Some t => (set_watchdogTimeout None s, clearTimeout t m)
  | None => st
  end.

(** One cap of the frame buffer: when [hasSpoken] is [spoken] and the buffer
    holds more than [limit] frames, replace it by a new array with its last
    [keep] frames. *)
Definition capBuffer (spoken : bool) (limit keep : nat) (st : CallState * Manager)
  : CallState * Manager :=
  let '(s, m) := st in
  match frameArrs m !! audioBuffer s with
  | Some buf =>
      if eqb (hasSpoken s) spoken && (limit <? length buf)%nat then
        let '(b, m) := allocFrames (sliceLast keep buf) m in
        (set_audioBuffer b s, m)
      else st
  | None => st
  end.

(** Step 2 of [handleIncomingAudio]: a loud frame clears the boundary timer
    and the watchdog and marks speech. *)
Definition loudnessGate (rms : JsNum) (st : CallState * Manager) : CallState * Manager :=
  if isLoud rms then
    let '(s, m) := dropWatchdog (dropSilenceTimer st) in
    (set_hasSpoken true s, m)
  else st.

(** Step 3 of [handleIncomingAudio]: a quiet frame after speech arms the
    boundary timer unless a handle is already stored. *)
Definition armBoundary (o : Loc) (callSid : string) (sock : WsId) (rms : JsNum)
    (st : CallState * Manager) : CallState * Manager :=
  let '(s, m) := st in
  if isQuiet rms && hasSpoken s && negb (isSet (silenceTimer s)) then
    let '(t, m) := setTimeout (SilenceCb o callSid sock) 1200 m in
    (set_silenceTimer (Some t) s, m)
  else st.

(** The synchronous body of [handleIncomingAudio(callSid, audioChunk, ws, rms)]:
    append the frame, apply the two caps, gate on loudness, arm the boundary
    timer.  The function has no [await] outside the timer callback; a failing
    [push] is caught by its [try]. *)
Definition handleIncomingAudio (m : Manager) (callSid : string) (audioChunk : Chunk)
    (sock : WsId) (rms : JsNum) : Manager :=
  match getCall m callSid with
  | None => m
  | Some (o, s) =>
      let s := set_packetCount (packetCount s + 1) s in
      match frameArrs m !! audioBuffer s with
      | None => putObj o s m
      | Some buf =>
          let m := set_frameArrs (<[audioBuffer s := buf ++ [audioChunk]]> (frameArrs m)) m in
          let st := capBuffer false 150 50 (s, m) in
          let st := capBuffer true 1400 1400 st in
          let st := loudnessGate rms st in
          let '(s, m) := armBoundary o callSid sock rms st in
          putObj o s m
      end
  end.

(** The [finally] block of the boundary callback. *)
Definition cycleFinally (o : Loc) (slot : option TaskId) (m : Manager) : Manager :=
  let m := match objs m !! o with
           | Some s => putObj o (set_silenceTimer None (set_isProcessing false s)) m
           | None => m
           end in
  finish slot m.

(** [playAIResponse] returned or threw: control goes back to its caller. *)
Definition playDone (aft : After) (slot : option TaskId) (m : Manager) : Manager :=
  match aft with
  | AfterCycle o => cycleFinally o slot m
  | Detached => finish slot m
  end.

(** The boundary callback up to its first [await]: mark the cycle, snapshot
    and clear the buffer, send the audio to transcription. *)
Definition silenceExpired (o : Loc) (callSid : string) (sock : WsId) (m : Manager)
  : Manager :=
  match objs m !! o with
  | None => m
  | Some s =>
      let s := set_isProcessing true s in
      match frameArrs m !! audioBuffer s with
      | None => cycleFinally o None (putObj o s m)
      | Some buf =>
          let '(b, m) := allocFrames [] m in
          let s := set_hasSpoken false (set_audioBuffer b s) in
          let m := putObj o s m in
          park None (KStt o callSid sock) (emit (OSttCall buf) m)
      end
  end.

(** [playAIResponse(callSid, replyText, ws, languageCode)] up to the
    [await] of the synthesis call. *)
Definition playAIResponse (m : Manager) (callSid replyText : string) (sock : WsId)
    (languageCode : string) (aft : After) (slot : option TaskId) : Manager :=
  match getCall m callSid with
  | None => playDone aft slot m
  | Some (p, s) =>
      if isEnding s then playDone aft slot m
      else
        match pushTurn (history s) {| role := assistant; content := replyText |} m with
        | None => playDone aft slot m
        | Some m =>
            let m := putObj p (set_hasSpoken true s) m in
            park slot (KTts callSid sock aft) (emit (OTtsCall replyText languageCode) m)
        end
  end.

(** The turn recorded when the tester gives up on a looping bot. *)
Definition loopTerminalTurn : Turn :=
  {| role := assistant;
     content := "[Auto-Terminated by Tester: Target bot is stuck in an infinite loop]" |}.

(** Lines 191-208: interpret the reply as a control token or speak it.
    [u] is the object bound to [updatedState]. *)
Definition dispatchReply (o : Loc) (callSid : string) (sock : WsId)
    (languageCode : string) (slot : option TaskId) (replyText : string) (u : Loc)
    (m : Manager) : Manager :=
  if bool_decide (trim replyText = "WAIT") then
    cycleFinally o slot (set_activeCalls (<[callSid := u]> (activeCalls m)) m)
  else if bool_decide (trim replyText = "END_CALL_LOOP") then
    match objs m !! u with
    | None => cycleFinally o slot m
    | Some us =>
        match pushTurn (history us) loopTerminalTurn m with
        | None => cycleFinally o slot m
        | Some m =>
            let m := set_activeCalls (<[callSid := u]> (activeCalls m)) m in
            let m := if isOpen m sock then wsClose sock m else m in
            cycleFinally o slot m
        end
    end
  else
    let m := set_activeCalls (<[callSid := u]> (activeCalls m)) m in
    playAIResponse m callSid replyText sock languageCode (AfterCycle o) slot.

(** The cycle after [streamToText] settled. *)
Definition sttAnswered (o : Loc) (callSid : string) (sock : WsId) (tid : TaskId)
    (transcript languageCode : string) (m : Manager) : Manager :=
  if bool_decide (transcript = "") || (String.length (trim transcript) <? 2)%nat then
    cycleFinally o (Some tid) m
  else
    match objs m !! o with
    | None => cycleFinally o (Some tid) m
    | Some s =>
        park (Some tid) (KHall o callSid sock transcript languageCode)
          (emit (OHallCall transcript (targetLanguage s) languageCode) m)
    end.

(** The cycle after [isHallucination] settled: record the user turn, then the
    manual override or the generation call. *)
Definition hallAnswered (o : Loc) (callSid : string) (sock : WsId) (tid : TaskId)
    (transcript languageCode : string) (isFakeAudio : bool) (m : Manager) : Manager :=
  if isFakeAudio then cycleFinally o (Some tid) m
  else
    match objs m !! o with
    | None => cycleFinally o (Some tid) m
    | Some s =>
        match pushTurn (history s) {| role := user; content := transcript |} m with
        | None => cycleFinally o (Some tid) m
        | Some m =>
            match truthy (manualOverrideResponse m) with
            | Some replyText =>
                let m := set_manualOverrideResponse None m in
                let '(u, m) := allocObj (set_lastIntentProcessed true s) m in
                dispatchReply o callSid sock languageCode (Some tid) replyText u m
            | None =>
                let otp := latestReceivedOTP m in
                let '(c, m) := allocObj (set_otpCopy (Some otp) s) m in
                park (Some tid) (KLlm o callSid sock languageCode c)
                  (emit (OLlmCall transcript c otp) m)
            end
        end
    end.

Definition llmFallbackReply : string :=
  "I'm sorry, I am having trouble connecting to my brain right now.".

(** What [processCustomerIntent] resolves with, given the object [c] it was
    handed: a fresh copy [{...callState, lastIntentProcessed: true}] with the
    completion text, or [c] itself with the fallback text from its [catch]. *)
Definition llmResult (c : Loc) (ans : Answer) (m : Manager)
  : option (string * Loc * Manager) :=
  match ans with
  | ALlm replyText =>
      match objs m !! c with
      | Some cs =>
          let '(u, m) := allocObj (set_lastIntentProcessed true cs) m in
          Some (replyText, u, m)
      | None => None
      end
  | ALlmError => Some (llmFallbackReply, c, m)
  | _ => None
  end.

(** [triggerAIResponse(callSid, initialText, ws)] up to its [await]. *)
Definition triggerAIResponse (m : Manager) (callSid initialText : string) (sock : WsId)
  : Manager :=
  match getCall m callSid with
  | None => m
  | Some (o, s) =>
      if isEnding s then m
      else
        match pushTurn (history s)
                {| role := assistant;
                   content := String.append "(System: Bot was silent. AI is taking initiative: "
                                (String.append initialText ")") |} m with
        | None => m
        | Some m =>
            let otp := latestReceivedOTP m in
            let '(c, m) := allocObj (set_otpCopy (Some otp) s) m in
            park None (KTriggerLlm o callSid sock) (emit (OLlmCall initialText c otp) m)
        end
  end.

(** [triggerAIResponse] after the generation call settled. *)
Definition triggerAnswered (o : Loc) (callSid : string) (sock : WsId) (tid : TaskId)
    (replyText : string) (m : Manager) : Manager :=
  match objs m !! o with
  | None => finish (Some tid) m
  | Some s =>
      let langCode := if bool_decide (targetLanguage s = "English") then "en-IN" else "hi-IN" in
      playAIResponse m callSid replyText sock langCode Detached (Some tid)
  end.

(** *** Teardown *)

(** The tail of [endCall] after the wait loop: close the stored socket, then
    ask for the report or print the skipped one and drop the session. *)
Definition endFinish (o : Loc) (callSid : string) (slot : option TaskId) (m : Manager)
  : Manager :=
  match objs m !! o with
  | None => finish slot m
  | Some s =>
      let m := match ws s with
               | Some w => if isOpen m w then wsClose w m else m
               | None => m
               end in
      match turnArrs m !! history s with
      | Some (_ :: _) => park slot (KEndReport o callSid) (emit (OReportCall o) m)
      | _ =>
          let m := emit (OReport callSid Skipped) m in
          finish slot (set_activeCalls (delete callSid (activeCalls m)) m)
      end
  end.

(** The head of the wait loop of [endCall], entered with the current value
    of [waitLoops]. *)
Definition endWaitLoop (o : Loc) (callSid : string) (waitLoops : nat)
    (slot : option TaskId) (m : Manager) : Manager :=
  match objs m !! o with
  | None => finish slot m
  | Some s =>
      if (isProcessing s || isSet (silenceTimer s)) && (waitLoops <? 60)%nat then
        park slot (KEndWait o callSid waitLoops) m
      else endFinish o callSid slot m
  end.

(** [endCall(callSid)] up to its first [await]. *)
Definition endCall (m : Manager) (callSid : string) : Manager :=
  match getCall m callSid with
  | None => m
  | Some (o, s) =>
      if isEnding s then m
      else
        let '(s, m) := dropWatchdog (set_isEnding true s, m) in
        endWaitLoop o callSid 0 None (putObj o s m)
  end.

(** The scenario that [endCall] selects for the next call from a generated
    report: [scenario === 'BOOKING' && report.isBookingConfirmed === true]. *)
Definition scenarioAfter (sc : Scenario) (r : Report) : Scenario :=
  match sc, reportBookingConfirmed r with
  | BOOKING, JBool true => CANCELLATION
  | _, _ => BOOKING
  end.

(** [endCall] after [generateTestReport] settled: print the report and pick
    the scenario of the next call; a rejected promise is only logged.  Either
    way the session is dropped. *)
Definition reportAnswered (o : Loc) (callSid : string) (tid : TaskId)
    (r : option Report) (m : Manager) : Manager :=
  match objs m !! o with
  | None => finish (Some tid) m
  | Some s =>
      let m :=
        match r with
        | Some r =>
            let m := emit (OReport callSid (Generated (scenario s) r)) m in
            set_nextScenario (scenarioAfter (scenario s) r) m
        | None => m
        end in
      finish (Some tid) (set_activeCalls (delete callSid (activeCalls m)) m)
  end.

(** The callback armed by [resetWatchdog]. *)
Definition watchdogExpired (o : Loc) (callSid reason : string) (m : Manager) : Manager :=
  match objs m !! o with
  | None => m
  | Some s =>
      match pushTurn (history s)
              {| role := assistant;
                 content := String.append "[Auto-Terminated: " (String.append reason "]") |}
              m with
      | None => m
      | Some m => endCall m callSid
      end
  end.

(** ** Playback, the event loop and runs *)

Inductive Event :=
  (* calls of the public methods *)
  | EvStartCall (callSid : string) (sock : option WsId) (rnd : nat) (now : Z)
  | EvAudio (callSid : string) (audioChunk : Chunk) (sock : WsId) (rms : JsNum)
  | EvEndCall (callSid : string)
  | EvTrigger (callSid initialText : string) (sock : WsId)
  | EvPlay (callSid replyText : string) (sock : WsId) (languageCode : string)
  | EvResetWatchdog (callSid : string) (ms : Z) (reason : string)
  (* the event loop: a timer expires, an awaited promise settles *)
  | EvTimer (t : TimerId)
  | EvSettle (tid : TaskId) (ans : Answer)
  (* writes to the public fields and the sockets from outside *)
  | EvInjectOtp (otp : string)
  | EvOverride (v : option string)
  | EvLanguage (l : string)
  | EvSocket (w : WsId) (sk : Socket).

Section Playback.

(** The mu-law encoder of the wave library ([wav.toMuLaw()] followed by the
    [Uint8Array] view), which is not part of this repository: it maps each
    16-bit sample to one byte. *)
Variable muLawEncode : Z → Z.

Definition CHUNK_SIZE_BYTES : nat := 320.

Definition watchdogAfterPlayback : string :=
  "Target bot hung (no response) for 45 seconds after AI spoke.".

(** After the sending loop: re-arm the watchdog and return. *)
Definition playFinished (callSid : string) (aft : After) (tid : TaskId) (m : Manager)
  : Manager :=
  playDone aft (Some tid) (resetWatchdog m callSid 45000 watchdogAfterPlayback).

(** The sending loop of [playAIResponse], entered at its [while] test with
    the current [offset], up to the next pause.  [fuel] bounds the number of
    iterations; the array length plus one is always enough. *)
Fixpoint paceLoop (fuel : nat) (callSid : string) (sock : WsId) (mulawArray : list Z)
    (offset : nat) (aft : After) (tid : TaskId) (m : Manager) : Manager :=
  match fuel with
  | O => m
  | S fuel =>
      if (offset <? length mulawArray)%nat then
        if isOpen m sock then
          let chunkBytes := take CHUNK_SIZE_BYTES (drop offset mulawArray) in
          let stream := match sockets m !! sock with
                        | Some sk => streamSid sk
                        | None => None
                        end in
          let m := emit (OSend sock stream chunkBytes) m in
          let index := (offset / CHUNK_SIZE_BYTES)%nat in
          let offset := (offset + CHUNK_SIZE_BYTES)%nat in
          if (5 <=? index)%nat then
            park (Some tid) (KPace callSid sock mulawArray offset aft) m
          else paceLoop fuel callSid sock mulawArray offset aft tid m
        else playFinished callSid aft tid m
      else playFinished callSid aft tid m
  end.

(** [playAIResponse] after [textToStream] settled: boost, encode, and start
    sending if the socket is open. *)
Definition ttsAnswered (callSid : string) (sock : WsId) (aft : After) (tid : TaskId)
    (samples : option (list Z)) (m : Manager) : Manager :=
  match samples with
  | None => playDone aft (Some tid) m
  | Some samples =>
      let mulawArray := map muLawEncode (map boostSample samples) in
      if isOpen m sock then
        paceLoop (S (length mulawArray)) callSid sock mulawArray 0 aft tid m
      else playDone aft (Some tid) m
  end.

(** A timer expires: it leaves the pending set and its callback runs. *)
Definition fireTimer (m : Manager) (t : TimerId) : Manager :=
  match timers m !! t with
  | Some tm =>
      if pending tm then
        let m := clearTimeout t m in
        match cb tm with
        | SilenceCb o callSid sock => silenceExpired o callSid sock m
        | WatchdogCb o callSid reason => watchdogExpired o callSid reason m
        end
      else m
  | None => m
  end.

(** An awaited promise settles: the parked function continues.  An answer
    of the wrong kind for the parked function is ignored. *)
Definition settle (m : Manager) (tid : TaskId) (ans : Answer) : Manager :=
  match tasks m !! tid with
  | Some k =>
      match k, ans with
      | KStt o callSid sock, AStt text languageCode =>
          sttAnswered o callSid sock tid text languageCode m
      | KHall o callSid sock transcript languageCode, AHall b =>
          hallAnswered o callSid sock tid transcript languageCode b m
      | KLlm o callSid sock languageCode c, (ALlm _ | ALlmError) =>
          match llmResult c ans m with
          | Some (replyText, u, m) =>
              dispatchReply o callSid sock languageCode (Some tid) replyText u m
          | None => cycleFinally o (Some tid) m
          end
      | KTriggerLlm o callSid sock, ALlm replyText =>
          triggerAnswered o callSid sock tid replyText m
      | KTriggerLlm o callSid sock, ALlmError =>
          triggerAnswered o callSid sock tid llmFallbackReply m
      | KTts callSid sock aft, ATts samples =>
          ttsAnswered callSid sock aft tid samples m
      | KPace callSid sock mulawArray offset aft, ASleep =>
          paceLoop (S (length mulawArray)) callSid sock mulawArray offset aft tid m
      | KEndWait o callSid waitLoops, ASleep =>
          endWaitLoop o callSid (S waitLoops) (Some tid) m
      | KEndReport o callSid, AReport r =>
          reportAnswered o callSid tid (Some r) m
      | KEndReport o callSid, AReportFailed =>
          reportAnswered o callSid tid None m
      | _, _ => m
      end
  | None => m
  end.

(** One turn of the event loop. *)
Definition step (m : Manager) (e : Event) : Manager :=
  match e with
  | EvStartCall callSid sock rnd now => startCall m callSid sock rnd now
  | EvAudio callSid audioChunk sock rms => handleIncomingAudio m callSid audioChunk sock rms
  | EvEndCall callSid => endCall m callSid
  | EvTrigger callSid initialText sock => triggerAIResponse m callSid initialText sock
  | EvPlay callSid replyText sock languageCode =>
      playAIResponse m callSid replyText sock languageCode Detached None
  | EvResetWatchdog callSid ms reason => resetWatchdog m callSid ms reason
  | EvTimer t => fireTimer m t
  | EvSettle tid ans => settle m tid ans
  | EvInjectOtp otp =>
      match otp with
      | EmptyString => m
      | _ => set_latestReceivedOTP (Some otp) m
      end
  | EvOverride v => set_manualOverrideResponse v m
  | EvLanguage l => set_pendingTestLanguage l m
  | EvSocket w sk => set_sockets (<[w := sk]> (sockets m)) m
  end.

Definition run (m : Manager) (evs : list Event) : Manager := foldl step m evs.

End Playback.

(** ** The speech provider ([sarvamService.js]) *)

(** How the awaited request of a provider function settles: with a response
    whose payload could be read ([Some]) or made the function throw on the
    way ([None]: a property of [null], text that does not parse), or with a
    rejection.  Either failure ends in the function's [catch]. *)
Inductive Settled (A : Type) :=
  | Resolved (data : option A)
  | Rejected.
Arguments Resolved {A} data.
Arguments Rejected {A}.

Module Sarvam.

(** A property of a provider's JSON answer, as far as [||] and [trim] can
    tell: a falsy value that is not a string ([undefined], [null], [false],
    [0]), a string (falsy when empty), or a truthy value that is not a
    string. *)
Inductive Field :=
  | Absent
  | Text (s : string)
  | Other.

Definition truthyField (f : Field) : bool :=
  match f with
  | Absent | Text EmptyString => false
  | _ => true
  end.

(** [a || b] *)
Definition orElse (a b : Field) : Field := if truthyField a then a else b.

(** [response.data] of the transcription request: an object, or a primitive,
    all of whose properties are [undefined]. *)
Record SttData := { transcript : Field; text : Field; language_code : Field }.

Record SttResult := { resultText : string; languageCode : Field }.

(** The value of the [catch] branch. *)
Definition sttFallback : SttResult := {| resultText := ""; languageCode := Text "en-IN" |}.

(** [streamToText(audioBuffer)] after its request settled.  Reading a
    property of [null] and calling [trim] on something that is not a string
    throw a [TypeError], which the [catch] turns into the fallback. *)
Definition streamToText (r : Settled SttData) : SttResult :=
  match r with
  | Resolved (Some d) =>
      let resultText := orElse (orElse (transcript d) (text d)) (Text "") in
      let languageCode := orElse (language_code d) (Text "en-IN") in
      match resultText with
      | Text s => {| resultText := trim s; languageCode := languageCode |}
      | _ => sttFallback
      end
  | _ => sttFallback
  end.

(** The object literal [languageCodeMap] of [textToStream]. *)
Definition languageCodeMap : gmap string string :=
  list_to_map
    [("English", "en-IN"); ("Hindi", "hi-IN"); ("Tamil", "ta-IN"); ("Telugu", "te-IN");
     ("Kannada", "kn-IN"); ("Marathi", "mr-IN"); ("Gujarati", "gu-IN")].

(** The properties every object literal inherits from [Object.prototype];
    all of them are truthy and none is a string. *)
Definition objectPrototypeKeys : list string :=
  ["constructor"; "hasOwnProperty"; "isPrototypeOf"; "propertyIsEnumerable";
   "toLocaleString"; "toString"; "valueOf"; "__proto__"; "__defineGetter__";
   "__defineSetter__"; "__lookupGetter__"; "__lookupSetter__"].

(** [languageCodeMap[targetLanguageName] || 'en-IN'], for the strings that
    the callers pass (the default of the parameter is for [undefined]). *)
Definition targetLanguageCode (targetLanguageName : string) : Field :=
  orElse
    match languageCodeMap !! targetLanguageName with
    | Some code => Text code
    | None =>
        if bool_decide (targetLanguageName ∈ objectPrototypeKeys) then Other else Absent
    end
    (Text "en-IN").

End Sarvam.

(** ** The generation provider ([llmService.js]) *)

(** What the system prompt of [processCustomerIntent] is built from, besides
    the date: the scenario (which selects the instructions), the symptom,
    the one-time password (its paragraph is added only for a truthy value)
    and the language. *)
Record PromptParams := {
  promptScenario : Scenario;
  promptSymptom : string;
  promptOtp : option string;
  promptLanguage : string
}.

Inductive ChatMessage :=
  | SystemPrompt (p : PromptParams)
  | Chat (t : Turn).

(** The [messages] of the completion request that
    [processCustomerIntent(transcript, callState)] sends, [passed] being the
    object it was handed: the system prompt, the history so far, and the
    transcript as a user turn. *)
Definition chatMessages (m : Manager) (transcript : string) (passed : Loc)
  : option (list ChatMessage) :=
  match objs m !! passed with
  | Some cs =>
      match turnArrs m !! history cs with
      | Some h =>
          Some (SystemPrompt
                  {| promptScenario := scenario cs; promptSymptom := symptom cs;
                     promptOtp := truthy (match otpCopy cs with
                                          | Some otp => otp
                                          | None => None
                                          end);
                     promptLanguage := targetLanguage cs |}
                :: (Chat <$> h) ++ [Chat {| role := user; content := transcript |}])
      | None => None
      end
  | None => None
  end.

(** What [JSON.parse] made of the filter's completion: [null], a primitive,
    or an object with its [isHallucinated] property. *)
Inductive Parsed :=
  | PNull
  | PPrimitive
  | PObject (isHallucinated : JsVal).

(** [isHallucination(transcript, targetLanguage, detectedLanguageCode)]: a
    transcript that is too short is a hallucination without asking; the
    provider's answer counts only as [result.isHallucinated === true], and
    the [catch] answers false. *)
Definition isHallucination (transcript : string) (r : Settled Parsed) : bool :=
  if bool_decide (transcript = "") || (String.length (trim transcript) <? 2)%nat then true
  else
    match r with
    | Resolved (Some (PObject (JBool true))) => true
    | _ => false
    end.

(** [msg.role === 'user' ? 'Target Bot' : 'AI Tester'] *)
Definition speakerLabel (r : Role) : string :=
  match r with
  | user => "Target Bot"
  | assistant => "AI Tester"
  end.

(** [`${label}: ${msg.content}`] *)
Definition transcriptLine (t : Turn) : string :=
  String.append (speakerLabel (role t)) (String.append ": " (content t)).

(** The separator written ['\\n'] in [generateTestReport]: a backslash and
    the letter n. *)
Definition transcriptSeparator : string := String "\" (String "n" EmptyString).

(** [Array.prototype.join] *)
Fixpoint join (sep : string) (l : list string) : string :=
  match l with
  | [] => ""
  | [x] => x
  | x :: rest => String.append x (String.append sep (join sep rest))
  end.

(** [chatHistory.map(...).join('\\n')] *)
Definition transcriptText (chatHistory : list Turn) : string :=
  join transcriptSeparator (transcriptLine <$> chatHistory).

(** ** The stream server ([server.js]) *)

(** The variables of one WebSocket connection: the socket and [callSid],
    which starts as a fallback name and is set by the [start] message. *)
Record Conn := { connWs : WsId; connCallSid : string }.

(** A message of the media stream after [JSON.parse]: [start] with its
    stream identifier and the call identifier of its [start] object (none
    when that object is missing), [media] with a payload (given here by the
    PCM bytes it decodes to and their RMS), [stop], and everything else
    (other events, [media] without a payload, text that does not parse). *)
Inductive StreamMsg :=
  | MsgStart (streamSid : option string) (callSid : option string)
  | MsgMedia (pcmAudioBuffer : Chunk) (rms : JsNum)
  | MsgStop
  | MsgOther.

(** [ws.streamSid = data.streamSid] *)
Definition setStreamSid (w : WsId) (sid : option string) (m : Manager) : Manager :=
  set_sockets (alter (λ sk, {| readyState := readyState sk; streamSid := sid |})
                 w (sockets m)) m.

(** The [message] handler of a connection.  It calls [startCall] with the
    call identifier only, so the session stores no socket; reading the call
    identifier of a missing [start] object throws, which the handler's
    [catch] logs. *)
Definition onMessage (c : Conn) (msg : StreamMsg) (rnd : nat) (now : Z) (m : Manager)
  : Conn * Manager :=
  match msg with
  | MsgStart streamSid (Some callSid) =>
      let m := setStreamSid (connWs c) streamSid m in
      ({| connWs := connWs c; connCallSid := callSid |}, startCall m callSid None rnd now)
  | MsgStart streamSid None => (c, setStreamSid (connWs c) streamSid m)
  | MsgMedia pcmAudioBuffer rms =>
      (c, handleIncomingAudio m (connCallSid c) pcmAudioBuffer (connWs c) rms)
  | MsgStop => (c, endCall m (connCallSid c))
  | MsgOther => (c, m)
  end.

(** The [close] handler of a connection. *)
Definition onClose (c : Conn) (m : Manager) : Manager := endCall m (connCallSid c).

(** ** The dialer script *)

(** The normalisation of [TARGET_BOT_NUMBER] at the top of the script, for
    a variable that is set (the script throws on an unset one). *)
Definition targetBotNumber (number : string) : string :=
  match number with
  | String "0" rest => String.append "+91" rest
  | _ => if (String.length number =? 10)%nat then String.append "+91" number else number
  end.

(** ** Observations on a state *)

(** The timer [t] has neither run nor been cleared. *)
Definition isPending (m : Manager) (t : TimerId) : bool :=
  match timers m !! t with
  | Some tm => pending tm
  | None => false
  end.

Fixpoint countIf {A} (f : A → bool) (l : list A) : nat :=
  match l with
  | [] => 0
  | x :: l => (if f x then 1 else 0) + countIf f l
  end.

(** A parked boundary callback (a turn cycle in flight) of the call. *)
Definition isCycleTask (callSid : string) (k : Kont) : bool :=
  match k with
  | KStt _ c _ | KHall _ c _ _ _ | KLlm _ c _ _ _
  | KTts c _ (AfterCycle _) | KPace c _ _ _ (AfterCycle _) => bool_decide (c = callSid)
  | _ => false
  end.

Definition cyclesInFlight (m : Manager) (callSid : string) : nat :=
  countIf (isCycleTask callSid) (tasks m).

(** The handles of the watchdog timers of the call that can still expire. *)
Fixpoint watchdogsFrom (t : TimerId) (callSid : string) (ts : list Timer) : list TimerId :=
  match ts with
  | [] => []
  | tm :: ts =>
      match cb tm with
      | WatchdogCb _ c _ =>
          if pending tm && bool_decide (c = callSid)
          then t :: watchdogsFrom (S t) callSid ts
          else watchdogsFrom (S t) callSid ts
      | SilenceCb _ _ _ => watchdogsFrom (S t) callSid ts
      end
  end.

Definition pendingWatchdogs (m : Manager) (callSid : string) : list TimerId :=
  watchdogsFrom 0 callSid (timers m).

Definition isReportOf (callSid : string) (e : Effect) : bool :=
  match e with
  | OReport c _ => bool_decide (c = callSid)
  | _ => false
  end.

(** The number of [###REPORT###] lines printed for the call. *)
Definition reportsFor (m : Manager) (callSid : string) : nat :=
  countIf (isReportOf callSid) (out m).

Definition isLlmCall (e : Effect) : bool :=
  match e with
  | OLlmCall _ _ _ => true
  | _ => false
  end.

(** The number of generation calls made so far, each of which reads
    [latestReceivedOTP] once. *)
Definition llmCalls (m : Manager) : nat := countIf isLlmCall (out m).

(** The frames of a session's buffer, read through the heap. *)
Definition bufferOf (m : Manager) (s : CallState) : option (list Chunk) :=
  frameArrs m !! audioBuffer s.

Definition historyOf (m : Manager) (s : CallState) : option (list Turn) :=
  turnArrs m !! history s.

(** The rank of a parked turn cycle: it only goes down as the cycle runs. *)
Definition cycleRank (k : Kont) : nat :=
  match k with
  | KStt _ _ _ => 5
  | KHall _ _ _ _ _ => 4
  | KLlm _ _ _ _ _ => 3
  | KTts _ _ (AfterCycle _) => 2
  | KPace _ _ _ _ (AfterCycle _) => 1
  | _ => 0
  end.

(** What every step except the few named ones leaves alone: the scenario
    of the next call, the two side-channel values, and the number of
    generation calls made. *)
Definition calm (m m' : Manager) : Prop :=
  nextScenario m' = nextScenario m
  ∧ latestReceivedOTP m' = latestReceivedOTP m
  ∧ manualOverrideResponse m' = manualOverrideResponse m
  ∧ llmCalls m' = llmCalls m.

(** What the stages of [handleIncomingAudio] leave alone. *)
Definition sameHeap (m m' : Manager) : Prop :=
  activeCalls m' = activeCalls m ∧ objs m' = objs m ∧ turnArrs m' = turnArrs m
  ∧ tasks m' = tasks m ∧ out m' = out m ∧ sockets m' = sockets m
  ∧ nextScenario m' = nextScenario m
  ∧ manualOverrideResponse m' = manualOverrideResponse m
  ∧ latestReceivedOTP m' = latestReceivedOTP m.

(** A frame of the call that is not loud. *)
Definition isAudioFor (callSid : string) (e : Event) : bool :=
  match e with
  | EvAudio c _ _ rms => bool_decide (c = callSid) && negb (isLoud rms)
  | _ => false
  end.

(** The fields of a session that frame ingestion never writes. *)
Definition sameCore (s s' : CallState) : Prop :=
  history s' = history s ∧ scenario s' = scenario s
  ∧ isProcessing s' = isProcessing s ∧ isEnding s' = isEnding s
  ∧ ws s' = ws s ∧ targetLanguage s' = targetLanguage s.

(** The timer table after [clearTimeout] of an optional handle. *)
Definition cleared (h : option TimerId) (ts : list Timer) : list Timer :=
  match h with
  | Some t => alter cancel t ts
  | None => ts
  end.

(** Every turn array of [m] is still there in [m'], with the same turns
    and possibly more after them. *)
Definition turnsGrow (m m' : Manager) : Prop :=
  ∀ hl l, turnArrs m !! hl = Some l → ∃ rest, turnArrs m' !! hl = Some (l ++ rest).

(** No session object stores a socket. *)
Definition noStoredSocket (m : Manager) : Prop :=
  Forall (λ s, ws s = None) (objs m).

(** An event other than a [startCall] that is given a socket. *)
Definition startsBare (e : Event) : bool :=
  match e with
  | EvStartCall _ (Some _) _ _ => false
  | _ => true
  end.

Definition isInjectOtp (e : Event) : bool :=
  match e with
  | EvInjectOtp _ => true
  | _ => false
  end.

(** The character is a line feed. *)
Definition isLineFeed (c : ascii) : bool := bool_decide (nat_of_ascii c = 10%nat).

Fixpoint hasLineFeed (s : string) : bool :=
  match s with
  | EmptyString => false
  | String c rest => isLineFeed c || hasLineFeed rest
  end.




(** ** Example runs *)

Definition openSocket : Socket := {| readyState := OPEN; streamSid := Some "MZ0001" |}.

Definition loudRms : JsNum := Num (900 # 1).

Definition quietRms : JsNum := Num (12 # 1).

Definition confirmedReport : Report :=
  {| status := "Passed"; reportBookingConfirmed := JBool true;
     languageDetectionSuccess := JBool true;
     uxAnalysis := "The bot booked the slot."; enhancements := [] |}.

(** A call starts, the bot speaks and falls silent: the boundary timer
    (handle 0) is armed. *)
Definition firstSilence : list Event :=
  [EvSocket 0 openSocket; EvStartCall "CA1" None 3 1000;
   EvAudio "CA1" [1; 0] 0 loudRms; EvAudio "CA1" [0; 0] 0 quietRms].

(** The boundary timer expires: the first turn cycle (task 0) awaits
    transcription. *)
Definition firstBoundary : list Event := firstSilence ++ [EvTimer 0].

(** A call that has received 150 quiet frames and no speech. *)
Definition quietBacklog : list Event :=
  [EvSocket 0 openSocket; EvStartCall "CA1" None 3 1000]
  ++ replicate 150 (EvAudio "CA1" [0; 0] 0 quietRms).

(** The bot speaks again and falls silent again. *)
Definition bargeIn : list Event :=
  [EvAudio "CA1" [2; 0] 0 loudRms; EvAudio "CA1" [0; 0] 0 quietRms].

(** The bot barges in while the first cycle is still transcribing; a second
    boundary timer (handle 1) is armed. *)
Definition overlapRun : list Event := firstBoundary ++ bargeIn.

(** The first cycle up to its generation call. *)
Definition toGeneration : list Event :=
  firstBoundary ++
  [EvSettle 0 (AStt "Hello, how can I help you?" "en-IN"); EvSettle 0 (AHall false)].

(** A [stop] message arrives while the generation call is in flight, the
    generation call returns, then the socket's [close] event arrives; both
    teardowns wait out their loops and receive their reports. *)
Definition doubleEndRun : list Event :=
  toGeneration ++
  [EvEndCall "CA1"; EvSettle 0 (ALlm "I want to book an appointment."); EvEndCall "CA1"]
  ++ replicate 60 (EvSettle 1 ASleep) ++ [EvSettle 1 (AReport confirmedReport)]
  ++ replicate 60 (EvSettle 2 ASleep) ++ [EvSettle 2 (AReport confirmedReport)].

(** The bot barges in while the first reply is being synthesised; the second
    cycle (task 1) takes its copy of the session before the first playback
    ends and arms the watchdog (handle 2), and registers that copy
    afterwards; its own playback arms handle 3. *)
Definition twoWatchdogsRun : list Event :=
  toGeneration ++ [EvSettle 0 (ALlm "I want to book an appointment.")] ++ bargeIn ++
  [EvTimer 1; EvSettle 1 (AStt "Are you still there?" "en-IN"); EvSettle 1 (AHall false);
   EvSettle 0 (ATts (Some [100; -200])); EvSettle 1 (ALlm "Yes, I am here.");
   EvSettle 1 (ATts (Some [300]))].





(** An override is pending when a boundary expires and a cycle starts. *)
Definition overrideRun : list Event :=
  [EvSocket 0 openSocket; EvStartCall "CA1" None 3 1000;
   EvOverride (Some "Please repeat that.");
   EvAudio "CA1" [1; 0] 0 loudRms; EvAudio "CA1" [0; 0] 0 quietRms;
   EvTimer 0].

(** The cycle of [overrideRun] after a transcript came back. *)
Definition overrideHeard : list Event :=
  overrideRun ++ [EvSettle 0 (AStt "Hello, how can I help you?" "en-IN")].

(** The cycle of [overrideRun] after transcription returned nothing. *)
Definition overrideAbandoned : list Event :=
  overrideRun ++ [EvSettle 0 (AStt "" "en-IN")].

(** The cycle of [overrideRun] when another call starts while it is
    transcribing, and the transcript then passes the filter. *)
Definition overrideLost : list Event :=
  overrideRun ++
  [EvStartCall "CA2" None 5 2000;
   EvSettle 0 (AStt "Hello, how can I help you?" "en-IN"); EvSettle 0 (AHall false)].

(** A stand-in for the encoder in closed examples. *)
Definition lowByte (sample : Z) : Z := sample mod 256.

(** A socket and a call that has just started. *)
Definition startedCall : list Event :=
  [EvSocket 0 openSocket; EvStartCall "CA1" None 3 1000].

(** The [stop] message arrives while the first cycle is transcribing. *)
Definition stoppedWhileTranscribing : list Event := firstBoundary ++ [EvEndCall "CA1"].

(** The first cycle after its transcript came back. *)
Definition toFilter : list Event :=
  firstBoundary ++ [EvSettle 0 (AStt "Hello, how can I help you?" "en-IN")].

(** The first cycle up to the synthesis of its reply. *)
Definition toSynthesis : list Event :=
  toGeneration ++ [EvSettle 0 (ALlm "I want to book an appointment.")].

Definition closedSocket : Socket := {| readyState := CLOSED; streamSid := Some "MZ0001" |}.

(** A reply of seven frames is being played; the socket closes during the
    pause after the sixth. *)
Definition pausedPlayback : list Event :=
  toSynthesis ++ [EvSettle 0 (ATts (Some (replicate 2000 100))); EvSocket 0 closedSocket].

(** A started call whose watchdog was armed. *)
Definition armedWatchdog : list Event :=
  startedCall ++ [EvResetWatchdog "CA1" 45000 "Target bot hung."].

(** The fields of a session object that nothing writes after [startCall],
    and that an object spread copies. *)
Definition sameSession (s s' : CallState) : Prop :=
  history s' = history s ∧ scenario s' = scenario s
  ∧ targetLanguage s' = targetLanguage s ∧ symptom s' = symptom s
  ∧ startTime s' = startTime s ∧ ws s' = ws s.

(** The object at [o] is a session object of the session [s0]. *)
Definition ofSession (s0 : CallState) (ob : list CallState) (o : Loc) : Prop :=
  ∃ s, ob !! o = Some s ∧ sameSession s0 s.

(** The call and the session object that a timer callback closed over. *)
Definition cbCall (c : TimerCb) : string * Loc :=
  match c with
  | SilenceCb o callSid _ => (callSid, o)
  | WatchdogCb o callSid _ => (callSid, o)
  end.

(** The call of a parked function and the session objects it holds. *)
Definition kontCall (k : Kont) : option (string * list Loc) :=
  match k with
  | KDone => None
  | KStt o c _ | KHall o c _ _ _ | KTriggerLlm o c _ | KEndWait o c _ | KEndReport o c =>
      Some (c, [o])
  | KLlm o c _ _ passed => Some (c, [o; passed])
  | KTts c _ aft | KPace c _ _ _ aft =>
      Some (c, match aft with AfterCycle o => [o] | Detached => [] end)
  end.

Definition cbTied (callSid : string) (s0 : CallState) (ob : list CallState) (c : TimerCb)
  : Prop :=
  (cbCall c).1 = callSid → ofSession s0 ob (cbCall c).2.

Definition kontTied (callSid : string) (s0 : CallState) (ob : list CallState) (k : Kont)
  : Prop :=
  ∀ c os, kontCall k = Some (c, os) → c = callSid → Forall (ofSession s0 ob) os.

(** Everything that the engine holds for the call, its registry entry, its
    timers and its parked functions, refers to session objects of the
    session [s0]. *)
Definition tied (callSid : string) (s0 : CallState) (m : Manager) : Prop :=
  (∀ o, activeCalls m !! callSid = Some o → ofSession s0 (objs m) o)
  ∧ Forall (λ tm, cbTied callSid s0 (objs m) (cb tm)) (timers m)
  ∧ Forall (kontTied callSid s0 (objs m)) (tasks m).

(** Nothing in the state refers to the call. *)
Definition unheardOf (callSid : string) (m : Manager) : Prop :=
  activeCalls m !! callSid = None
  ∧ Forall (λ tm, (cbCall (cb tm)).1 ≠ callSid) (timers m)
  ∧ Forall (λ k, ∀ c os, kontCall k = Some (c, os) → c ≠ callSid) (tasks m).

(** An event other than a further [startCall] for the call. *)
Definition notStartOf (callSid : string) (e : Event) : bool :=
  match e with
  | EvStartCall c _ _ _ => negb (bool_decide (c = callSid))
  | _ => true
  end.

(** The rest of a call that is served one cycle, while a second call starts,
    and is then torn down. *)
Definition servedCall : list Event :=
  [EvAudio "CA1" [1; 0] 0 loudRms; EvAudio "CA1" [0; 0] 0 quietRms; EvTimer 0;
   EvSettle 0 (AStt "Hello, how can I help you?" "en-IN"); EvSettle 0 (AHall false);
   EvStartCall "CA2" None 4 2000;
   EvSettle 0 (ALlm "I want to book an appointment.");
   EvSettle 0 (ATts (Some (replicate 400 100)))].

(** * Properties *)

(** ** Numbers *)

Lemma Qtrunc_scaled (sample : Z) :
  Qtrunc (inject_Z sample * VOLUME_MULTIPLIER) = Z.quot (5 * sample) 2.
Proof. unfold Qtrunc, VOLUME_MULTIPLIER. cbn. f_equal. lia. Qed.

Lemma wrap16_id (z : Z) : -32768 ≤ z ≤ 32767 → wrap16 z = z.
Proof.
  intros H. unfold wrap16.
  destruct (Z.ltb_spec (z mod 65536) 32768); Z.div_mod_to_equations; lia.
Qed.

(** C9.  A 16-bit sample multiplied by the playback gain is stored clamped
    to the 16-bit range: 32767 when the product is above it, -32768 when the
    product is below it, and the product truncated towards zero otherwise;
    the stored value is never a wrapped one. *)
Theorem boostSample_clamps (sample : Z) :
  -32768 ≤ sample ≤ 32767 →
  -32768 ≤ boostSample sample ≤ 32767
  ∧ ((32767 # 1 < inject_Z sample * VOLUME_MULTIPLIER)%Q → boostSample sample = 32767)
  ∧ ((inject_Z sample * VOLUME_MULTIPLIER < (-32768) # 1)%Q → boostSample sample = -32768)
  ∧ boostSample sample = Z.max (-32768) (Z.min 32767 (Z.quot (5 * sample) 2)).
Proof.
  intros Hr.
  unfold boostSample, toInt16.
  destruct (Qle_bool (inject_Z sample * VOLUME_MULTIPLIER) (32767 # 1)) eqn:Hhi; cbn [negb].
  - destruct (Qle_bool ((-32768) # 1) (inject_Z sample * VOLUME_MULTIPLIER)) eqn:Hlo; cbn [negb].
    + rewrite Qtrunc_scaled.
      apply Qle_bool_iff in Hhi, Hlo. unfold Qle in Hhi, Hlo. cbn in Hhi, Hlo.
      assert (Hq : -32768 ≤ Z.quot (5 * sample) 2 ≤ 32767)
        by (Z.quot_rem_to_equations; lia).
      rewrite wrap16_id by lia.
      repeat split; try lia.
      * intros Hc. unfold Qlt in Hc. cbn in Hc. lia.
      * intros Hc. unfold Qlt in Hc. cbn in Hc. lia.
    + assert (Hlo' : ¬ (((-32768) # 1) <= inject_Z sample * VOLUME_MULTIPLIER)%Q).
      { intros Hc. apply Qle_bool_iff in Hc. congruence. }
      unfold Qle in Hlo'. cbn in Hlo'.
      change (wrap16 (Qtrunc ((-32768) # 1))) with (-32768).
      repeat split; try lia.
      * intros Hc. unfold Qlt in Hc. cbn in Hc. lia.
      * Z.quot_rem_to_equations; lia.
  - assert (Hhi' : ¬ (inject_Z sample * VOLUME_MULTIPLIER <= 32767 # 1)%Q).
    { intros Hc. apply Qle_bool_iff in Hc. congruence. }
    unfold Qle in Hhi'. cbn in Hhi'.
    change (Qle_bool ((-32768) # 1) (32767 # 1)) with true. cbn [negb].
    change (wrap16 (Qtrunc (32767 # 1))) with 32767.
    repeat split; try lia.
    * intros Hc. unfold Qlt in Hc. cbn in Hc. lia.
    * Z.quot_rem_to_equations; lia.
Qed.

Lemma boostSample_clamps_witness :
  -32768 ≤ boostSample 20000 ≤ 32767 ∧ boostSample 20000 = 32767.
Proof.
  destruct (boostSample_clamps 20000 ltac:(lia)) as (Hr & Hhi & _ & _).
  split; [exact Hr | apply Hhi; reflexivity].
Defined.

(** ** The registry and the heap *)

Lemma getCall_Some m callSid o s :
  getCall m callSid = Some (o, s) ↔ activeCalls m !! callSid = Some o ∧ objs m !! o = Some s.
Proof.
  unfold getCall. destruct (activeCalls m !! callSid) as [o'|].
  - destruct (objs m !! o') as [s'|] eqn:E.
    + split; [intros [= <- <-]; done | intros [[= <-] Hs]; congruence].
    + split; [done | intros [[= <-] Hs]; congruence].
  - split; [done | intros [? _]; done].
Qed.

Lemma getCall_None m callSid :
  activeCalls m !! callSid = None → getCall m callSid = None.
Proof. unfold getCall. by intros ->. Qed.

Lemma getCall_putObj m m' callSid o s s' :
  getCall m callSid = Some (o, s) →
  activeCalls m' = activeCalls m → objs m' = objs m →
  getCall (putObj o s' m') callSid = Some (o, s').
Proof.
  intros [Hreg Hobj]%getCall_Some Ha Hb. apply getCall_Some. cbn.
  rewrite Ha, Hb. split; [done|].
  apply list_lookup_insert_eq. by eapply lookup_lt_Some.
Qed.

Lemma sliceLast_length {A} (k : nat) (l : list A) :
  length (sliceLast k l) = Nat.min k (length l).
Proof. unfold sliceLast. rewrite length_drop. lia. Qed.

Lemma sliceLast_suffix {A} (k : nat) (l : list A) : sliceLast k l `suffix_of` l.
Proof. apply suffix_drop. Qed.

Lemma isLoud_not_quiet rms : isLoud rms = true → isQuiet rms = false.
Proof. destruct rms; cbn; [done|]. by destruct (Qle_bool q LOUDNESS_THRESHOLD). Qed.

Lemma sameHeap_refl m : sameHeap m m.
Proof. by unfold sameHeap. Qed.

Lemma sameHeap_trans m1 m2 m3 : sameHeap m1 m2 → sameHeap m2 m3 → sameHeap m1 m3.
Proof.
  unfold sameHeap. intros (?&?&?&?&?&?&?&?&?) (?&?&?&?&?&?&?&?&?).
  split_and!; congruence.
Qed.

Lemma capBuffer_spec spoken limit keep s m buf :
  bufferOf m s = Some buf →
  ∃ s' m', capBuffer spoken limit keep (s, m) = (s', m')
    ∧ bufferOf m' s' =
        Some (if eqb (hasSpoken s) spoken && (limit <? length buf)%nat
              then sliceLast keep buf else buf)
    ∧ hasSpoken s' = hasSpoken s ∧ silenceTimer s' = silenceTimer s
    ∧ watchdogTimeout s' = watchdogTimeout s
    ∧ timers m' = timers m ∧ sameHeap m m' ∧ sameCore s s'.
Proof.
  unfold bufferOf. intros Hbuf. unfold capBuffer. rewrite Hbuf.
  destruct (eqb (hasSpoken s) spoken && (limit <? length buf)%nat).
  - eexists _, _. split; [reflexivity|]. cbn.
    split; [|split_and!; first [done | by unfold sameCore]].
    rewrite lookup_app_r by done. by rewrite Nat.sub_diag.
  - eexists _, _. split; [reflexivity|]. split_and!; first [done | apply sameHeap_refl | by unfold sameCore].
Qed.

Lemma dropSilenceTimer_spec s m :
  ∃ s' m', dropSilenceTimer (s, m) = (s', m')
    ∧ silenceTimer s' = None ∧ watchdogTimeout s' = watchdogTimeout s
    ∧ hasSpoken s' = hasSpoken s ∧ audioBuffer s' = audioBuffer s
    ∧ timers m' = cleared (silenceTimer s) (timers m)
    ∧ frameArrs m' = frameArrs m ∧ sameHeap m m' ∧ sameCore s s'.
Proof.
  unfold dropSilenceTimer. destruct (silenceTimer s) eqn:E;
    eexists _, _; (split; [reflexivity|]); cbn; split_and!;
    first [done | apply sameHeap_refl | by unfold sameCore].
Qed.

Lemma dropWatchdog_spec s m :
  ∃ s' m', dropWatchdog (s, m) = (s', m')
    ∧ watchdogTimeout s' = None ∧ silenceTimer s' = silenceTimer s
    ∧ hasSpoken s' = hasSpoken s ∧ audioBuffer s' = audioBuffer s
    ∧ isEnding s' = isEnding s ∧ isProcessing s' = isProcessing s
    ∧ history s' = history s ∧ ws s' = ws s
    ∧ timers m' = cleared (watchdogTimeout s) (timers m)
    ∧ frameArrs m' = frameArrs m ∧ sameHeap m m' ∧ sameCore s s'.
Proof.
  unfold dropWatchdog. destruct (watchdogTimeout s) eqn:E;
    eexists _, _; (split; [reflexivity|]); cbn; split_and!;
    first [done | apply sameHeap_refl | by unfold sameCore].
Qed.

Lemma loudnessGate_spec rms s m :
  ∃ s' m', loudnessGate rms (s, m) = (s', m')
    ∧ audioBuffer s' = audioBuffer s ∧ frameArrs m' = frameArrs m
    ∧ hasSpoken s' = (isLoud rms || hasSpoken s)
    ∧ silenceTimer s' = (if isLoud rms then None else silenceTimer s)
    ∧ watchdogTimeout s' = (if isLoud rms then None else watchdogTimeout s)
    ∧ timers m' = (if isLoud rms
                   then cleared (watchdogTimeout s) (cleared (silenceTimer s) (timers m))
                   else timers m)
    ∧ sameHeap m m' ∧ sameCore s s'.
Proof.
  unfold loudnessGate. destruct (isLoud rms).
  - destruct (dropSilenceTimer_spec s m)
      as (s1 & m1 & -> & Hs1 & Hw1 & Hh1 & Hb1 & Ht1 & Hf1 & Hsame1 & Hcore1).
    destruct (dropWatchdog_spec s1 m1)
      as (s2 & m2 & -> & Hw2 & Hs2 & Hh2 & Hb2 & _ & _ & _ & _ & Ht2 & Hf2 & Hsame2 & Hcore2).
    eexists _, _. split; [reflexivity|]. cbn.
    split_and!; try congruence.
    + eapply sameHeap_trans; eauto.
    + unfold sameCore in *. cbn. destruct Hcore1 as (?&?&?&?&?&?), Hcore2 as (?&?&?&?&?&?).
      split_and!; congruence.
  - eexists _, _. split; [reflexivity|]. split_and!; first [done | apply sameHeap_refl | by unfold sameCore].
Qed.

Lemma armBoundary_spec o callSid sock rms s m :
  ∃ s' m', armBoundary o callSid sock rms (s, m) = (s', m')
    ∧ audioBuffer s' = audioBuffer s ∧ frameArrs m' = frameArrs m
    ∧ hasSpoken s' = hasSpoken s ∧ watchdogTimeout s' = watchdogTimeout s
    ∧ (if isQuiet rms && hasSpoken s && negb (isSet (silenceTimer s))
       then silenceTimer s' = Some (length (timers m))
            ∧ timers m' = timers m ++
                [{| cb := SilenceCb o callSid sock; delay := 1200; pending := true |}]
       else silenceTimer s' = silenceTimer s ∧ timers m' = timers m)
    ∧ sameHeap m m' ∧ sameCore s s'.
Proof.
  unfold armBoundary.
  destruct (isQuiet rms && hasSpoken s && negb (isSet (silenceTimer s)));
    eexists _, _; (split; [reflexivity|]); cbn; split_and!;
    first [done | apply sameHeap_refl | by unfold sameCore].
Qed.

(** ** Frame ingestion *)

(** The effect of one [handleIncomingAudio] call on a registered session. *)
Lemma handleIncomingAudio_spec m callSid chunk sock rms o s buf :
  getCall m callSid = Some (o, s) →
  bufferOf m s = Some buf →
  let m' := handleIncomingAudio m callSid chunk sock rms in
  let all := buf ++ [chunk] in
  ∃ s',
    getCall m' callSid = Some (o, s')
    ∧ bufferOf m' s' =
        Some (if negb (hasSpoken s) && (150 <? length all)%nat then sliceLast 50 all
              else if hasSpoken s && (1400 <? length all)%nat then sliceLast 1400 all
              else all)
    ∧ hasSpoken s' = (isLoud rms || hasSpoken s)
    ∧ watchdogTimeout s' = (if isLoud rms then None else watchdogTimeout s)
    ∧ (if isLoud rms then
         silenceTimer s' = None
         ∧ timers m' = cleared (watchdogTimeout s) (cleared (silenceTimer s) (timers m))
       else if isQuiet rms && hasSpoken s && negb (isSet (silenceTimer s)) then
         silenceTimer s' = Some (length (timers m))
         ∧ timers m' = timers m ++
             [{| cb := SilenceCb o callSid sock; delay := 1200; pending := true |}]
       else silenceTimer s' = silenceTimer s ∧ timers m' = timers m)
    ∧ activeCalls m' = activeCalls m ∧ tasks m' = tasks m ∧ out m' = out m
    ∧ turnArrs m' = turnArrs m
    ∧ sameCore s s'.
Proof.
  intros Hget Hbuf. cbn zeta.
  pose proof (lookup_lt_Some _ _ _ Hbuf) as Hb.
  unfold handleIncomingAudio. rewrite Hget. cbn [audioBuffer set_packetCount].
  unfold bufferOf in Hbuf. rewrite Hbuf.
  set (s0 := set_packetCount (packetCount s + 1) s).
  set (all := buf ++ [chunk]).
  set (m0 := set_frameArrs _ m).
  assert (Hb0 : bufferOf m0 s0 = Some all)
    by (by apply list_lookup_insert_eq).
  destruct (capBuffer_spec false 150 50 s0 m0 all Hb0)
    as (s1 & m1 & -> & Hb1 & Hh1 & Hs1 & Hw1 & Ht1 & Hsame1 & Hcore1).
  destruct (capBuffer_spec true 1400 1400 s1 m1 _ Hb1)
    as (s2 & m2 & -> & Hb2 & Hh2 & Hs2 & Hw2 & Ht2 & Hsame2 & Hcore2).
  destruct (loudnessGate_spec rms s2 m2)
    as (s3 & m3 & -> & Ha3 & Hf3 & Hh3 & Hs3 & Hw3 & Ht3 & Hsame3 & Hcore3).
  destruct (armBoundary_spec o callSid sock rms s3 m3)
    as (s4 & m4 & -> & Ha4 & Hf4 & Hh4 & Hw4 & Harm & Hsame4 & Hcore4).
  pose proof (sameHeap_trans _ _ _ (sameHeap_trans _ _ _ Hsame1 Hsame2)
                (sameHeap_trans _ _ _ Hsame3 Hsame4))
    as (Hac & Hob & Htu & Hta & Hou & _).
  change (hasSpoken s0) with (hasSpoken s) in *.
  change (silenceTimer s0) with (silenceTimer s) in *.
  change (watchdogTimeout s0) with (watchdogTimeout s) in *.
  change (timers m0) with (timers m) in *.
  exists s4. split_and!.
  - eapply getCall_putObj; [exact Hget| |]; cbn in *; congruence.
  - unfold bufferOf in *. cbn [putObj set_objs frameArrs].
    rewrite Hf4, Ha4, Hf3, Ha3, Hb2, Hh1.
    destruct (hasSpoken s); cbn [eqb negb andb]; [done|].
    destruct (150 <? length all)%nat; cbn; done.
  - rewrite Hh4, Hh3, Hh2, Hh1. done.
  - rewrite Hw4, Hw3, Hw2, Hw1. done.
  - cbn [timers putObj set_objs]. destruct (isLoud rms) eqn:Hloud.
    + rewrite (isLoud_not_quiet _ Hloud) in Harm. cbn in Harm.
      destruct Harm as [-> ->]. rewrite Hs3, Ht3, Hw2, Hw1, Hs2, Hs1, Ht2, Ht1. done.
    + rewrite Hh3, Hh2, Hh1, Hs3, Hs2, Hs1, Ht3, Ht2, Ht1 in Harm. cbn [orb] in Harm.
      destruct (isQuiet rms && hasSpoken s && negb (isSet (silenceTimer s))); done.
  - cbn in *. congruence.
  - cbn in *. congruence.
  - cbn in *. congruence.
  - cbn in *. congruence.
  - unfold sameCore in *. unfold s0 in Hcore1. cbn in Hcore1.
    destruct Hcore1 as (?&?&?&?&?&?), Hcore2 as (?&?&?&?&?&?),
      Hcore3 as (?&?&?&?&?&?), Hcore4 as (?&?&?&?&?&?).
    split_and!; congruence.
Qed.

(** C3.  After a [handleIncomingAudio] call on a registered session the
    frame buffer holds at most 150 frames while [hasSpoken] is false and at
    most 1400 while it is true, and it is a suffix of the old buffer with
    the new frame appended: the last 50 (resp. 1400) frames when a cap
    trimmed it, everything otherwise. *)
Theorem buffer_caps (m : Manager) (callSid : string) (chunk : Chunk) (sock : WsId)
    (rms : JsNum) (o : Loc) (s : CallState) (buf : list Chunk) :
  getCall m callSid = Some (o, s) →
  bufferOf m s = Some buf →
  let m' := handleIncomingAudio m callSid chunk sock rms in
  let all := buf ++ [chunk] in
  ∃ s' buf',
    getCall m' callSid = Some (o, s')
    ∧ bufferOf m' s' = Some buf'
    ∧ (hasSpoken s' = false → (length buf' ≤ 150)%nat)
    ∧ (hasSpoken s' = true → (length buf' ≤ 1400)%nat)
    ∧ buf' `suffix_of` all
    ∧ buf' = (if negb (hasSpoken s) && (150 <? length all)%nat then sliceLast 50 all
              else if hasSpoken s && (1400 <? length all)%nat then sliceLast 1400 all
              else all).
Proof.
  intros Hget Hbuf. cbn zeta.
  destruct (handleIncomingAudio_spec m callSid chunk sock rms o s buf Hget Hbuf)
    as (s' & Hget' & Hbuf' & Hsp & _).
  set (all := buf ++ [chunk]) in *.
  eexists s', _. split; [exact Hget'|]. split; [exact Hbuf'|].
  split_and!.
  - rewrite Hsp. intros [Hl Hs]%orb_false_iff. rewrite Hs. cbn [negb andb].
    destruct (Nat.ltb_spec 150 (length all)); [rewrite sliceLast_length|]; lia.
  - intros _. destruct (hasSpoken s); cbn [negb andb].
    + destruct (Nat.ltb_spec 1400 (length all)); [rewrite sliceLast_length|]; lia.
    + destruct (Nat.ltb_spec 150 (length all)); [rewrite sliceLast_length|]; lia.
  - destruct (negb (hasSpoken s) && (150 <? length all)%nat); [apply sliceLast_suffix|].
    destruct (hasSpoken s && (1400 <? length all)%nat); [apply sliceLast_suffix|done].
  - done.
Qed.

Lemma cancel_not_pending (x : option Timer) :
  match cancel <$> x with Some tm => pending tm | None => false end = false.
Proof. by destruct x. Qed.

Lemma isPending_cleared_same (ts : list Timer) (t : TimerId) (m : Manager) (h : option TimerId) :
  timers m = cleared h (alter cancel t ts) → isPending m t = false.
Proof.
  intros Ht. unfold isPending. rewrite Ht. destruct h as [t'|]; cbn.
  - destruct (decide (t' = t)) as [->|Hne].
    + rewrite list_lookup_alter_eq. apply cancel_not_pending.
    + rewrite list_lookup_alter_ne by done. rewrite list_lookup_alter_eq.
      apply cancel_not_pending.
  - rewrite list_lookup_alter_eq. apply cancel_not_pending.
Qed.



(** ** Absent and ending sessions *)

(** C10.  With a call identifier that is not in the registry,
    [handleIncomingAudio], [resetWatchdog], [endCall], [triggerAIResponse]
    and [playAIResponse] return the state they were given; with a session
    whose [isEnding] flag is set, so do [triggerAIResponse] and
    [playAIResponse] (and [endCall]). *)
Theorem absent_or_ending_is_noop (m : Manager) (callSid : string) :
  (activeCalls m !! callSid = None →
     (∀ chunk sock rms, handleIncomingAudio m callSid chunk sock rms = m)
     ∧ (∀ ms reason, resetWatchdog m callSid ms reason = m)
     ∧ endCall m callSid = m
     ∧ (∀ text sock, triggerAIResponse m callSid text sock = m)
     ∧ (∀ text sock lang, playAIResponse m callSid text sock lang Detached None = m))
  ∧ (∀ o s, getCall m callSid = Some (o, s) → isEnding s = true →
       (∀ text sock, triggerAIResponse m callSid text sock = m)
       ∧ (∀ text sock lang, playAIResponse m callSid text sock lang Detached None = m)
       ∧ endCall m callSid = m).
Proof.
  split.
  - intros Habs. apply getCall_None in Habs.
    unfold handleIncomingAudio, resetWatchdog, endCall, triggerAIResponse, playAIResponse.
    rewrite Habs. done.
  - intros o s Hget Hend.
    unfold endCall, triggerAIResponse, playAIResponse.
    rewrite Hget, Hend. done.
Qed.

(** ** Control tokens *)

Lemma cycleFinally_frame o slot m :
  let m' := cycleFinally o slot m in
  out m' = out m ∧ timers m' = timers m ∧ turnArrs m' = turnArrs m
  ∧ sockets m' = sockets m ∧ activeCalls m' = activeCalls m
  ∧ tasks m' = tasks (finish slot m)
  ∧ nextScenario m' = nextScenario m
  ∧ manualOverrideResponse m' = manualOverrideResponse m
  ∧ latestReceivedOTP m' = latestReceivedOTP m.
Proof.
  unfold cycleFinally. destruct (objs m !! o); destruct slot; cbn; done.
Qed.

Lemma isOpen_sockets m m' w : sockets m' = sockets m → isOpen m' w = isOpen m w.
Proof. unfold isOpen. by intros ->. Qed.

Lemma isOpen_wsClose w m : isOpen (wsClose w m) w = false.
Proof.
  unfold isOpen, wsClose. cbn. rewrite lookup_alter_eq.
  by destruct (sockets m !! w).
Qed.

(** C4.  In the reply dispatch of a turn cycle: a reply that trims to
    ["WAIT"] sends nothing, makes no provider call, leaves every timer as it
    was (no watchdog re-arm) and ends the cycle; a reply that trims to
    ["END_CALL_LOOP"] appends the terminal turn to the history of the
    updated state, registers that state, and leaves the socket not open,
    having called [close] when it was open. *)
Theorem control_tokens (o : Loc) (callSid : string) (sock : WsId) (languageCode : string)
    (slot : option TaskId) (replyText : string) (u : Loc) (m : Manager) :
  let m' := dispatchReply o callSid sock languageCode slot replyText u m in
  (trim replyText = "WAIT" →
     out m' = out m ∧ timers m' = timers m ∧ tasks m' = tasks (finish slot m)
     ∧ turnArrs m' = turnArrs m)
  ∧ (trim replyText = "END_CALL_LOOP" →
     ∀ us h, objs m !! u = Some us → historyOf m us = Some h →
       turnArrs m' !! history us = Some (h ++ [loopTerminalTurn])
       ∧ activeCalls m' !! callSid = Some u
       ∧ isOpen m' sock = false
       ∧ out m' = (if isOpen m sock then out m ++ [OClose sock] else out m)
       ∧ timers m' = timers m).
Proof.
  cbn zeta. unfold dispatchReply. split.
  - intros Hw. rewrite Hw. rewrite bool_decide_eq_true_2 by done.
    destruct (cycleFinally_frame o slot
                (set_activeCalls (<[callSid := u]> (activeCalls m)) m))
      as (Ho & Ht & Htu & _ & _ & Hta & _).
    rewrite Ho, Ht, Htu, Hta. by destruct slot.
  - intros He us h Hu Hh. rewrite He.
    rewrite bool_decide_eq_false_2 by done.
    rewrite bool_decide_eq_true_2 by done.
    rewrite Hu. unfold historyOf in Hh. unfold pushTurn. rewrite Hh.
    set (m1 := set_activeCalls _ _).
    assert (Hopen : isOpen m1 sock = isOpen m sock) by done.
    rewrite Hopen.
    destruct (isOpen m sock) eqn:Hop.
    + destruct (cycleFinally_frame o slot (wsClose sock m1))
        as (Ho & Ht & Htu & Hso & Hac & _).
      rewrite (isOpen_sockets _ _ _ Hso), Ho, Ht, Htu, Hac, isOpen_wsClose. cbn.
      split_and!; try done.
      * apply list_lookup_insert_eq. by eapply lookup_lt_Some.
      * apply lookup_insert_eq.
    + destruct (cycleFinally_frame o slot m1) as (Ho & Ht & Htu & Hso & Hac & _).
      rewrite (isOpen_sockets _ _ _ Hso), Ho, Ht, Htu, Hac, Hopen. cbn.
      split_and!; try done.
      * apply list_lookup_insert_eq. by eapply lookup_lt_Some.
      * apply lookup_insert_eq.
Qed.

(** ** What the steps leave alone *)

Lemma countIf_app {A} (f : A → bool) (l1 l2 : list A) :
  countIf f (l1 ++ l2) = (countIf f l1 + countIf f l2)%nat.
Proof. induction l1 as [|x l1 IH]; cbn; [done|]. rewrite IH. lia. Qed.

Lemma calm_refl m : calm m m.
Proof. by unfold calm. Qed.

Lemma calm_trans m1 m2 m3 : calm m1 m2 → calm m2 m3 → calm m1 m3.
Proof. unfold calm. intros (?&?&?&?) (?&?&?&?). split_and!; congruence. Qed.

(** Solves [calm] between a state and the same state under setters and
    emissions of something other than a generation call. *)
Ltac calm_base :=
  unfold calm, llmCalls, emit, park, finish, putObj, clearTimeout, wsClose;
  repeat case_match; cbn; rewrite ?countIf_app; cbn;
  split_and!; first [reflexivity | lia].

Lemma pushTurn_calm h t m m' : pushTurn h t m = Some m' → calm m m'.
Proof. unfold pushTurn. case_match; [|done]. intros [= <-]. calm_base. Qed.

Lemma sameHeap_calm m m' : sameHeap m m' → calm m m'.
Proof.
  unfold sameHeap, calm, llmCalls. intros (_&_&_&_&->&_&->&->&->). done.
Qed.

Lemma finish_calm slot m : calm m (finish slot m).
Proof. calm_base. Qed.

Lemma cycleFinally_calm o slot m : calm m (cycleFinally o slot m).
Proof. unfold cycleFinally. calm_base. Qed.

Lemma playDone_calm aft slot m : calm m (playDone aft slot m).
Proof. destruct aft; [apply cycleFinally_calm | apply finish_calm]. Qed.

Lemma resetWatchdog_calm m callSid ms reason : calm m (resetWatchdog m callSid ms reason).
Proof. unfold resetWatchdog, setTimeout. calm_base. Qed.

Lemma silenceExpired_calm o callSid sock m : calm m (silenceExpired o callSid sock m).
Proof.
  unfold silenceExpired, allocFrames. repeat case_match; try apply calm_refl.
  - calm_base.
  - eapply calm_trans; [|apply cycleFinally_calm]. calm_base.
Qed.

Lemma playAIResponse_calm m callSid text sock lang aft slot :
  calm m (playAIResponse m callSid text sock lang aft slot).
Proof.
  unfold playAIResponse. repeat case_match; try apply playDone_calm.
  eapply calm_trans; [eapply pushTurn_calm; eassumption|]. calm_base.
Qed.

Lemma dispatchReply_calm o callSid sock lang slot reply u m :
  calm m (dispatchReply o callSid sock lang slot reply u m).
Proof.
  unfold dispatchReply. repeat case_match; try apply cycleFinally_calm.
  - eapply calm_trans; [|apply cycleFinally_calm]. calm_base.
  - eapply calm_trans; [eapply pushTurn_calm; eassumption|].
    eapply calm_trans; [|apply cycleFinally_calm]. calm_base.
  - eapply calm_trans; [eapply pushTurn_calm; eassumption|].
    eapply calm_trans; [|apply cycleFinally_calm]. calm_base.
  - eapply calm_trans; [|apply playAIResponse_calm]. calm_base.
Qed.

Lemma sttAnswered_calm o callSid sock tid text lang m :
  calm m (sttAnswered o callSid sock tid text lang m).
Proof.
  unfold sttAnswered. repeat case_match; try apply cycleFinally_calm. calm_base.
Qed.

Lemma triggerAnswered_calm o callSid sock tid reply m :
  calm m (triggerAnswered o callSid sock tid reply m).
Proof.
  unfold triggerAnswered. case_match; [apply playAIResponse_calm | apply finish_calm].
Qed.

Lemma endFinish_calm o callSid slot m : calm m (endFinish o callSid slot m).
Proof. unfold endFinish. calm_base. Qed.

Lemma endWaitLoop_calm o callSid n slot m : calm m (endWaitLoop o callSid n slot m).
Proof.
  unfold endWaitLoop. repeat case_match; try apply endFinish_calm; calm_base.
Qed.

Lemma endCall_calm m callSid : calm m (endCall m callSid).
Proof.
  unfold endCall. repeat case_match; try apply calm_refl.
  destruct (dropWatchdog_spec (set_isEnding true c) m)
    as (s' & m' & Hd & _ & _ & _ & _ & _ & _ & _ & _ & _ & _ & Hsame & Hcore).
  rewrite Hd in *. simplify_eq.
  eapply calm_trans; [apply sameHeap_calm, Hsame|].
  eapply calm_trans; [|apply endWaitLoop_calm]. calm_base.
Qed.

Lemma watchdogExpired_calm o callSid reason m : calm m (watchdogExpired o callSid reason m).
Proof.
  unfold watchdogExpired. repeat case_match; try apply calm_refl.
  eapply calm_trans; [eapply pushTurn_calm; eassumption | apply endCall_calm].
Qed.

Lemma playFinished_calm callSid aft tid m : calm m (playFinished callSid aft tid m).
Proof.
  unfold playFinished.
  eapply calm_trans; [apply resetWatchdog_calm | apply playDone_calm].
Qed.

Lemma paceLoop_calm fuel callSid sock mulawArray offset aft tid m :
  calm m (paceLoop fuel callSid sock mulawArray offset aft tid m).
Proof.
  revert offset m. induction fuel as [|fuel IH]; intros offset m; cbn [paceLoop];
    [apply calm_refl|].
  repeat case_match; try apply playFinished_calm;
    first [by calm_base | eapply calm_trans; [|apply IH]; by calm_base].
Qed.

Lemma handleIncomingAudio_calm m callSid chunk sock rms :
  calm m (handleIncomingAudio m callSid chunk sock rms).
Proof.
  unfold handleIncomingAudio.
  destruct (getCall m callSid) as [[o s]|] eqn:Hget; [|apply calm_refl].
  cbn [audioBuffer set_packetCount].
  destruct (frameArrs m !! audioBuffer s) as [buf|] eqn:Hbuf; [|by calm_base].
  set (s0 := set_packetCount _ _).
  set (m0 := set_frameArrs _ m).
  assert (Hb0 : bufferOf m0 s0 = Some (buf ++ [chunk])).
  { apply list_lookup_insert_eq. by eapply lookup_lt_Some. }
  destruct (capBuffer_spec false 150 50 s0 m0 _ Hb0)
    as (s1 & m1 & -> & Hb1 & _ & _ & _ & _ & Hsame1 & Hcore1).
  destruct (capBuffer_spec true 1400 1400 s1 m1 _ Hb1)
    as (s2 & m2 & -> & _ & _ & _ & _ & _ & Hsame2 & Hcore2).
  destruct (loudnessGate_spec rms s2 m2)
    as (s3 & m3 & -> & _ & _ & _ & _ & _ & _ & Hsame3 & Hcore3).
  destruct (armBoundary_spec o callSid sock rms s3 m3)
    as (s4 & m4 & -> & _ & _ & _ & _ & _ & Hsame4 & Hcore4).
  pose proof (sameHeap_trans _ _ _ (sameHeap_trans _ _ _ Hsame1 Hsame2)
                (sameHeap_trans _ _ _ Hsame3 Hsame4)) as Hsame.
  eapply (calm_trans _ m0); [by calm_base|].
  eapply (calm_trans _ m4); [apply sameHeap_calm, Hsame | by calm_base].
Qed.

Lemma startCall_calm m callSid sock rnd now :
  let m' := startCall m callSid sock rnd now in
  nextScenario m' = nextScenario m ∧ latestReceivedOTP m' = latestReceivedOTP m
  ∧ manualOverrideResponse m' = None ∧ llmCalls m' = llmCalls m.
Proof.
  cbn zeta. unfold startCall.
  set (m1 := set_manualOverrideResponse None m).
  pose proof (resetWatchdog_calm m1 callSid 120000
                "Target bot unreachable (no connection) for 2 minutes.") as (H1 & H2 & H3 & H4).
  cbn. done.
Qed.

Lemma llmResult_calm c ans m reply u m' :
  llmResult c ans m = Some (reply, u, m') → calm m m'.
Proof.
  unfold llmResult, allocObj. destruct ans; try done.
  - destruct (objs m !! c); [|done]. intros [= _ _ <-]. by calm_base.
  - intros [= _ _ <-]. apply calm_refl.
Qed.

Lemma reportAnswered_spec o callSid tid r m s :
  objs m !! o = Some s →
  let m' := reportAnswered o callSid tid r m in
  nextScenario m' = match r with
                    | Some r => scenarioAfter (scenario s) r
                    | None => nextScenario m
                    end
  ∧ out m' = match r with
             | Some r => out m ++ [OReport callSid (Generated (scenario s) r)]
             | None => out m
             end
  ∧ activeCalls m' = delete callSid (activeCalls m)
  ∧ latestReceivedOTP m' = latestReceivedOTP m
  ∧ manualOverrideResponse m' = manualOverrideResponse m
  ∧ llmCalls m' = llmCalls m.
Proof.
  intros Ho. cbn zeta. unfold reportAnswered. rewrite Ho.
  destruct r; cbn; unfold llmCalls; cbn; rewrite ?countIf_app; cbn;
    split_and!; first [reflexivity | lia].
Qed.

Lemma triggerAIResponse_spec m callSid text sock :
  let m' := triggerAIResponse m callSid text sock in
  nextScenario m' = nextScenario m ∧ latestReceivedOTP m' = latestReceivedOTP m
  ∧ manualOverrideResponse m' = manualOverrideResponse m
  ∧ (llmCalls m' ≤ S (llmCalls m))%nat.
Proof.
  cbn zeta. unfold triggerAIResponse, pushTurn, allocObj, llmCalls.
  repeat case_match; simplify_eq; cbn; rewrite ?countIf_app; cbn;
    split_and!; first [reflexivity | lia].
Qed.

(** The tasks table after the cycle's exits. *)
Lemma cycleFinally_tasks o tid m :
  tasks (cycleFinally o (Some tid) m) = <[tid := KDone]> (tasks m).
Proof. unfold cycleFinally. by case_match. Qed.

Lemma playDone_tasks aft tid m : tasks (playDone aft (Some tid) m) = <[tid := KDone]> (tasks m).
Proof. destruct aft; [apply cycleFinally_tasks | done]. Qed.

Lemma playAIResponse_tasks_any m callSid text sock lang aft tid :
  ∃ k, tasks (playAIResponse m callSid text sock lang aft (Some tid))
       = <[tid := k]> (tasks m)
     ∧ (k = KDone ∨ k = KTts callSid sock aft).
Proof.
  unfold playAIResponse, pushTurn.
  repeat case_match; simplify_eq; rewrite ?playDone_tasks; cbn; eauto.
Qed.

Lemma dispatchReply_tasks o callSid sock lang tid reply u m :
  ∃ k, tasks (dispatchReply o callSid sock lang (Some tid) reply u m)
       = <[tid := k]> (tasks m)
     ∧ (k = KDone ∨ k = KTts callSid sock (AfterCycle o)).
Proof.
  unfold dispatchReply, pushTurn, wsClose.
  repeat case_match; simplify_eq; rewrite ?cycleFinally_tasks; cbn; eauto.
  apply (playAIResponse_tasks_any (set_activeCalls _ m)).
Qed.

Lemma hallAnswered_spec o callSid sock tid transcript lang isFake m :
  let m' := hallAnswered o callSid sock tid transcript lang isFake m in
  nextScenario m' = nextScenario m ∧ latestReceivedOTP m' = latestReceivedOTP m
  ∧ (llmCalls m' ≤ S (llmCalls m))%nat
  ∧ ∃ k, tasks m' = <[tid := k]> (tasks m) ∧ (cycleRank k < 4)%nat.
Proof.
  cbn zeta. unfold hallAnswered.
  destruct isFake.
  { destruct (cycleFinally_calm o (Some tid) m) as (-> & -> & _ & ->).
    rewrite cycleFinally_tasks. split_and!; eauto. exists KDone. cbn. split; [done | lia]. }
  destruct (objs m !! o) as [s|] eqn:Ho.
  2:{ destruct (cycleFinally_calm o (Some tid) m) as (-> & -> & _ & ->).
      rewrite cycleFinally_tasks. split_and!; eauto. exists KDone. cbn. split; [done | lia]. }
  destruct (pushTurn (history s) _ m) as [m1|] eqn:Hp.
  2:{ destruct (cycleFinally_calm o (Some tid) m) as (-> & -> & _ & ->).
      rewrite cycleFinally_tasks. split_and!; eauto. exists KDone. cbn. split; [done | lia]. }
  pose proof (pushTurn_calm _ _ _ _ Hp) as (Hn1 & Ho1 & Hm1 & Hl1).
  assert (Ht1 : tasks m1 = tasks m).
  { unfold pushTurn in Hp. destruct (turnArrs m !! history s); by simplify_eq. }
  destruct (truthy (manualOverrideResponse m1)) as [reply|] eqn:Htr.
  - unfold allocObj. cbn [fst snd].
    set (m2 := set_objs _ _).
    destruct (dispatchReply_calm o callSid sock lang (Some tid) reply (length (objs (set_manualOverrideResponse None m1))) m2)
      as (-> & -> & _ & ->).
    destruct (dispatchReply_tasks o callSid sock lang tid reply (length (objs (set_manualOverrideResponse None m1))) m2)
      as (k & -> & Hk).
    subst m2. cbn. unfold llmCalls in *. cbn. rewrite Hn1, Ho1, Ht1.
    split_and!; try done; [lia|].
    exists k. split; [done|]. destruct Hk as [-> | ->]; cbn; lia.
  - unfold allocObj, llmCalls in *. cbn. rewrite countIf_app. cbn.
    rewrite Hn1, Ho1, Ht1. split_and!; try done; [lia|].
    eexists. split; [done|]. cbn. lia.
Qed.

Lemma resetWatchdog_tasks m callSid ms reason :
  tasks (resetWatchdog m callSid ms reason) = tasks m.
Proof. unfold resetWatchdog, setTimeout. by repeat case_match. Qed.

Lemma playFinished_tasks callSid aft tid m :
  tasks (playFinished callSid aft tid m) = <[tid := KDone]> (tasks m).
Proof. unfold playFinished. by rewrite playDone_tasks, resetWatchdog_tasks. Qed.

Lemma paceLoop_tasks fuel callSid sock arr offset aft tid m :
  tasks (paceLoop fuel callSid sock arr offset aft tid m) = tasks m
  ∨ ∃ k, tasks (paceLoop fuel callSid sock arr offset aft tid m) = <[tid := k]> (tasks m)
         ∧ (k = KDone ∨ ∃ off, k = KPace callSid sock arr off aft).
Proof.
  revert offset m. induction fuel as [|fuel IH]; intros offset m; cbn [paceLoop];
    [by left|].
  repeat case_match; rewrite ?playFinished_tasks;
    first
      [ by (right; cbn; eauto)
      | match goal with
        | |- context [paceLoop fuel _ _ _ ?off _ _ ?m'] =>
            destruct (IH off m') as [-> | (k & -> & Hk)];
            [by left | right; cbn; eauto]
        end ].
Qed.

Lemma endFinish_tasks o callSid tid m :
  ∃ k, tasks (endFinish o callSid (Some tid) m) = <[tid := k]> (tasks m)
       ∧ (k = KDone ∨ k = KEndReport o callSid).
Proof.
  unfold endFinish, wsClose. repeat case_match; cbn; eauto.
Qed.

Lemma endWaitLoop_tasks o callSid n tid m :
  ∃ k, tasks (endWaitLoop o callSid n (Some tid) m) = <[tid := k]> (tasks m)
       ∧ cycleRank k = 0%nat.
Proof.
  unfold endWaitLoop. repeat case_match; cbn; eauto.
  all: destruct (endFinish_tasks o callSid tid m) as (k & -> & [-> | ->]); eauto.
Qed.

Lemma lookup_insert_rank (ts : list Kont) (tid : TaskId) (k k' : Kont) (n : nat) :
  ts !! tid = Some k → (cycleRank k' ≤ n)%nat →
  ∃ k'', <[tid := k']> ts !! tid = Some k'' ∧ (cycleRank k'' ≤ n)%nat.
Proof.
  intros Hk Hr. exists k'. split; [|done].
  apply list_lookup_insert_eq. by eapply lookup_lt_Some.
Qed.

Section Steps.

Variable muLawEncode : Z → Z.

Lemma ttsAnswered_calm callSid sock aft tid samples m :
  calm m (ttsAnswered muLawEncode callSid sock aft tid samples m).
Proof.
  unfold ttsAnswered. repeat case_match; try apply playDone_calm. apply paceLoop_calm.
Qed.

Lemma fireTimer_calm m t : calm m (fireTimer m t).
Proof.
  unfold fireTimer. repeat case_match; try apply calm_refl.
  - eapply calm_trans; [|apply silenceExpired_calm]. by calm_base.
  - eapply calm_trans; [|apply watchdogExpired_calm]. by calm_base.
Qed.

(** Settling a promise is calm except in two places: the cycle's reply
    resolution and the printing of a generated report. *)
Lemma settle_cases m tid ans :
  calm m (settle muLawEncode m tid ans)
  ∨ (∃ o callSid sock transcript lang b,
       tasks m !! tid = Some (KHall o callSid sock transcript lang) ∧ ans = AHall b
       ∧ settle muLawEncode m tid ans = hallAnswered o callSid sock tid transcript lang b m)
  ∨ (∃ o callSid r s,
       tasks m !! tid = Some (KEndReport o callSid) ∧ ans = AReport r
       ∧ objs m !! o = Some s
       ∧ settle muLawEncode m tid ans = reportAnswered o callSid tid (Some r) m).
Proof.
  unfold settle. destruct (tasks m !! tid) as [k|] eqn:Hk; [|left; apply calm_refl].
  destruct k, ans; try (left; apply calm_refl).
  - left. apply sttAnswered_calm.
  - right. left. by eexists _, _, _, _, _, _.
  - left. destruct (llmResult passed (ALlm replyText) m) as [[[r u] m1]|] eqn:Hr.
    + eapply calm_trans; [eapply llmResult_calm; eassumption | apply dispatchReply_calm].
    + apply cycleFinally_calm.
  - left. destruct (llmResult passed ALlmError m) as [[[r u] m1]|] eqn:Hr.
    + eapply calm_trans; [eapply llmResult_calm; eassumption | apply dispatchReply_calm].
    + apply cycleFinally_calm.
  - left. apply triggerAnswered_calm.
  - left. apply triggerAnswered_calm.
  - left. apply ttsAnswered_calm.
  - left. apply paceLoop_calm.
  - left. apply endWaitLoop_calm.
  - destruct (objs m !! o) as [s|] eqn:Ho.
    + right. right. by eexists _, _, _, _.
    + left. unfold reportAnswered. rewrite Ho. apply finish_calm.
  - left. unfold reportAnswered. destruct (objs m !! o) eqn:Ho; by calm_base.
Qed.






Lemma llmResult_tasks c ans m reply u m' :
  llmResult c ans m = Some (reply, u, m') → tasks m' = tasks m.
Proof.
  unfold llmResult, allocObj. destruct ans; try done.
  - destruct (objs m !! c); [|done]. by intros [= _ _ <-].
  - by intros [= _ _ <-].
Qed.

Lemma rank_pace_le callSid sock arr off aft :
  (cycleRank (KPace callSid sock arr off aft) ≤ cycleRank (KTts callSid sock aft))%nat.
Proof. destruct aft; cbn; lia. Qed.

(** No step of a parked function raises its rank: a turn cycle moves from
    transcription to the filter, to generation, to synthesis, to pacing, and
    never back. *)
Lemma settle_rank m tid ans k :
  tasks m !! tid = Some k →
  ∃ k', tasks (settle muLawEncode m tid ans) !! tid = Some k'
        ∧ (cycleRank k' ≤ cycleRank k)%nat.
Proof.
  intros Hk. unfold settle. rewrite Hk.
  destruct k, ans; try (eexists; split; [exact Hk | cbn; lia]).
  - unfold sttAnswered. repeat case_match; rewrite ?cycleFinally_tasks; cbn [park tasks set_tasks emit set_out];
      (eapply lookup_insert_rank; [exact Hk | cbn; lia]).
  - destruct (hallAnswered_spec o callSid sock tid transcript languageCode isFakeAudio m)
      as (_ & _ & _ & k' & -> & Hr).
    eapply lookup_insert_rank; [exact Hk | cbn; lia].
  - destruct (llmResult passed (ALlm replyText) m) as [[[r u] m1]|] eqn:Hr.
    + destruct (dispatchReply_tasks o callSid sock languageCode tid r u m1) as (k' & -> & Hk').
      rewrite (llmResult_tasks _ _ _ _ _ _ Hr).
      eapply lookup_insert_rank; [exact Hk | destruct Hk' as [-> | ->]; cbn; lia].
    + rewrite cycleFinally_tasks. eapply lookup_insert_rank; [exact Hk | cbn; lia].
  - destruct (llmResult passed ALlmError m) as [[[r u] m1]|] eqn:Hr.
    + destruct (dispatchReply_tasks o callSid sock languageCode tid r u m1) as (k' & -> & Hk').
      rewrite (llmResult_tasks _ _ _ _ _ _ Hr).
      eapply lookup_insert_rank; [exact Hk | destruct Hk' as [-> | ->]; cbn; lia].
    + rewrite cycleFinally_tasks. eapply lookup_insert_rank; [exact Hk | cbn; lia].
  - unfold triggerAnswered. case_match.
    + destruct (playAIResponse_tasks_any m callSid replyText sock
                  (if bool_decide (targetLanguage c = "English") then "en-IN" else "hi-IN")
                  Detached tid) as (k' & -> & Hk').
      eapply lookup_insert_rank; [exact Hk | destruct Hk' as [-> | ->]; cbn; lia].
    + cbn. eapply lookup_insert_rank; [exact Hk | cbn; lia].
  - unfold triggerAnswered. case_match.
    + destruct (playAIResponse_tasks_any m callSid llmFallbackReply sock
                  (if bool_decide (targetLanguage c = "English") then "en-IN" else "hi-IN")
                  Detached tid) as (k' & -> & Hk').
      eapply lookup_insert_rank; [exact Hk | destruct Hk' as [-> | ->]; cbn; lia].
    + cbn. eapply lookup_insert_rank; [exact Hk | cbn; lia].
  - unfold ttsAnswered. repeat case_match; rewrite ?playDone_tasks;
      try (eapply lookup_insert_rank; [exact Hk | cbn; lia]).
    match goal with
    | |- context [paceLoop ?f _ _ ?arr ?off _ _ _] =>
        destruct (paceLoop_tasks f callSid sock arr off aft tid m)
          as [-> | (k' & -> & [-> | (off' & ->)])]
    end.
    + eexists. split; [exact Hk | cbn; lia].
    + eapply lookup_insert_rank; [exact Hk | cbn; lia].
    + eapply lookup_insert_rank; [exact Hk | apply rank_pace_le].
  - destruct (paceLoop_tasks (S (length mulawArray)) callSid sock mulawArray offset aft tid m)
      as [-> | (k' & -> & [-> | (off' & ->)])].
    + eexists. split; [exact Hk | cbn; lia].
    + eapply lookup_insert_rank; [exact Hk | cbn; lia].
    + eapply lookup_insert_rank; [exact Hk | destruct aft; cbn; lia].
  - destruct (endWaitLoop_tasks o callSid (S waitLoops) tid m) as (k' & -> & Hr).
    eapply lookup_insert_rank; [exact Hk | lia].
  - unfold reportAnswered. case_match; cbn;
      (eapply lookup_insert_rank; [exact Hk | cbn; lia]).
  - unfold reportAnswered. case_match; cbn;
      (eapply lookup_insert_rank; [exact Hk | cbn; lia]).
Qed.

(** Only reply resolution makes a generation call when a promise settles. *)
Lemma settle_llmCalls m tid ans k :
  tasks m !! tid = Some k → cycleRank k ≠ 4%nat →
  llmCalls (settle muLawEncode m tid ans) = llmCalls m.
Proof.
  intros Hk Hr.
  destruct (settle_cases m tid ans)
    as [Hc | [(o & c & sock & tr & lang & b & Hk' & _) | (o & c & r & s & Hk' & -> & Ho & ->)]].
  - apply Hc.
  - rewrite Hk in Hk'. by simplify_eq.
  - by destruct (reportAnswered_spec o c tid (Some r) m s Ho) as (_&_&_&_&_&?).
Qed.


(** C8 (amended).  When a turn cycle reaches reply resolution (its
    transcript passed the length test and the filter and is recorded as a
    user turn): a pending manual override is cleared and makes no generation
    call, and, unless it is a control token or the call is ending, it is the
    reply that is recorded and synthesised; without a pending override
    exactly one generation call is made, carrying [latestReceivedOTP], which
    it leaves in place.  No other step of a cycle makes a generation call,
    and a cycle never returns to reply resolution. *)
Theorem side_channels_once_per_turn (m : Manager) (tid : TaskId) (o : Loc)
    (callSid : string) (sock : WsId) (transcript lang : string) (s : CallState)
    (h : list Turn) :
  tasks m !! tid = Some (KHall o callSid sock transcript lang) →
  objs m !! o = Some s →
  historyOf m s = Some h →
  let m' := settle muLawEncode m tid (AHall false) in
  let heard := {| role := user; content := transcript |} in
  match truthy (manualOverrideResponse m) with
  | Some reply =>
      manualOverrideResponse m' = None
      ∧ llmCalls m' = llmCalls m
      ∧ (trim reply ≠ "WAIT" → trim reply ≠ "END_CALL_LOOP" → isEnding s = false →
           turnArrs m' !! history s =
             Some (h ++ [heard; {| role := assistant; content := reply |}])
           ∧ out m' = out m ++ [OTtsCall reply lang])
  | None =>
      manualOverrideResponse m' = manualOverrideResponse m
      ∧ out m' = out m ++ [OLlmCall transcript (length (objs m)) (latestReceivedOTP m)]
      ∧ tasks m' !! tid = Some (KLlm o callSid sock lang (length (objs m)))
  end
  ∧ latestReceivedOTP m' = latestReceivedOTP m
  ∧ (∃ k, tasks m' !! tid = Some k ∧ (cycleRank k < 4)%nat)
  ∧ (∀ m0 tid0 ans k, tasks m0 !! tid0 = Some k →
       (∃ k', tasks (settle muLawEncode m0 tid0 ans) !! tid0 = Some k'
              ∧ (cycleRank k' ≤ cycleRank k)%nat)
       ∧ (cycleRank k ≠ 4%nat →
            llmCalls (settle muLawEncode m0 tid0 ans) = llmCalls m0))
  ∧ (∀ m0 t, llmCalls (fireTimer m0 t) = llmCalls m0).
Proof.
  intros Hk Ho Hh. cbn zeta.
  pose proof (lookup_lt_Some _ _ _ Hk) as Htid.
  pose proof (lookup_lt_Some _ _ _ Hh) as Hhis.
  assert (Hs : settle muLawEncode m tid (AHall false)
               = hallAnswered o callSid sock tid transcript lang false m).
  { unfold settle. by rewrite Hk. }
  rewrite Hs.
  destruct (hallAnswered_spec o callSid sock tid transcript lang false m)
    as (_ & Hotp & _ & k & Hta & Hr).
  split_and!.
  - unfold hallAnswered. rewrite Ho. unfold historyOf in Hh. unfold pushTurn. rewrite Hh.
    cbn [manualOverrideResponse set_turnArrs].
    destruct (truthy (manualOverrideResponse m)) as [reply|] eqn:Htr.
    + unfold allocObj. cbn [fst snd objs set_manualOverrideResponse set_turnArrs].
      set (m2 := set_objs _ _).
      destruct (dispatchReply_calm o callSid sock lang (Some tid) reply (length (objs m)) m2)
        as (_ & _ & -> & ->).
      split_and!; [done | done |].
      intros Hw He Hend. unfold dispatchReply.
      rewrite !bool_decide_eq_false_2 by done.
      unfold playAIResponse.
      set (m3 := set_activeCalls _ m2).
      assert (Hg : getCall m3 callSid = Some (length (objs m), set_lastIntentProcessed true s)).
      { apply getCall_Some. cbn. split; [apply lookup_insert_eq|].
        rewrite lookup_app_r by done. by rewrite Nat.sub_diag. }
      rewrite Hg. cbn [isEnding set_lastIntentProcessed]. rewrite Hend.
      unfold pushTurn. cbn [history set_lastIntentProcessed turnArrs m3 m2 set_activeCalls
                            set_objs set_manualOverrideResponse set_turnArrs].
      rewrite list_lookup_insert_eq by done.
      cbn. rewrite list_lookup_insert_eq by (by rewrite length_insert).
      by rewrite <- app_assoc.
    + cbn. split_and!; try done.
      by apply list_lookup_insert_eq.
  - exact Hotp.
  - exists k. split; [|done]. rewrite Hta. by apply list_lookup_insert_eq.
  - intros m0 tid0 ans k0 Hk0. split.
    + by apply settle_rank.
    + by apply settle_llmCalls.
  - intros m0 t. apply fireTimer_calm.
Qed.

End Steps.

(** ** The sending loop always has enough fuel *)


(** ** The watchdog, method by method *)

(** [resetWatchdog] cancels the timer whose handle the registered session
    stores and stores the handle of the new, pending one. *)
Lemma resetWatchdog_cancels_stored m callSid ms reason o s :
  getCall m callSid = Some (o, s) →
  let m' := resetWatchdog m callSid ms reason in
  let t' := length (timers m) in
  (∀ t, watchdogTimeout s = Some t → (t < length (timers m))%nat → isPending m' t = false)
  ∧ timers m' !! t' = Some {| cb := WatchdogCb o callSid reason; delay := ms; pending := true |}
  ∧ getCall m' callSid = Some (o, set_watchdogTimeout (Some t') s).
Proof.
  intros Hget. cbn zeta. unfold resetWatchdog, setTimeout. rewrite Hget.
  pose proof (proj1 (getCall_Some _ _ _ _) Hget) as [Hreg Hobj].
  pose proof (lookup_lt_Some _ _ _ Hobj) as Ho.
  assert (Hts : timers (match watchdogTimeout s with
                        | Some t => clearTimeout t m
                        | None => m
                        end) = cleared (watchdogTimeout s) (timers m))
    by (by destruct (watchdogTimeout s)).
  assert (Hlen : length (cleared (watchdogTimeout s) (timers m)) = length (timers m))
    by (destruct (watchdogTimeout s); cbn; by rewrite ?length_alter).
  set (m1 := match watchdogTimeout s with Some t => clearTimeout t m | None => m end) in *.
  assert (Hac : activeCalls m1 = activeCalls m) by (subst m1; by destruct (watchdogTimeout s)).
  assert (Hob : objs m1 = objs m) by (subst m1; by destruct (watchdogTimeout s)).
  cbv beta iota zeta. rewrite Hts, Hlen. split_and!.
  - intros t Ht Hlt. unfold isPending. cbn [timers putObj set_objs set_timers].
    rewrite Ht. cbn [cleared].
    rewrite lookup_app_l by (by rewrite length_alter).
    rewrite list_lookup_alter_eq. apply cancel_not_pending.
  - cbn [timers putObj set_objs set_timers].
    rewrite lookup_app_r by (by rewrite Hlen). by rewrite Hlen, Nat.sub_diag.
  - apply getCall_Some. cbn [activeCalls objs putObj set_objs set_timers].
    rewrite Hac, Hob. split; [done|]. by apply list_lookup_insert_eq.
Qed.

Lemma endFinish_turnArrs o callSid slot m : turnArrs (endFinish o callSid slot m) = turnArrs m.
Proof. unfold endFinish, wsClose. by repeat case_match; destruct slot. Qed.

Lemma endWaitLoop_turnArrs o callSid n slot m :
  turnArrs (endWaitLoop o callSid n slot m) = turnArrs m.
Proof.
  unfold endWaitLoop. repeat case_match; rewrite ?endFinish_turnArrs; by destruct slot.
Qed.

Lemma endCall_turnArrs m callSid : turnArrs (endCall m callSid) = turnArrs m.
Proof.
  unfold endCall. repeat case_match; try done.
  match goal with
  | H : dropWatchdog (?s0, m) = _ |- _ =>
      destruct (dropWatchdog_spec s0 m)
        as (s' & m' & Hd & _ & _ & _ & _ & _ & _ & _ & _ & _ & _ & Hsame & _);
      rewrite Hd in H; simplify_eq
  end.
  rewrite endWaitLoop_turnArrs. cbn. apply Hsame.
Qed.

Lemma endFinish_timers o callSid slot m : timers (endFinish o callSid slot m) = timers m.
Proof. unfold endFinish, wsClose. by repeat case_match; destruct slot. Qed.

Lemma endWaitLoop_timers o callSid n slot m :
  timers (endWaitLoop o callSid n slot m) = timers m.
Proof.
  unfold endWaitLoop. repeat case_match; rewrite ?endFinish_timers; by destruct slot.
Qed.

Lemma endCall_timers m callSid :
  ∃ h, timers (endCall m callSid) = cleared h (timers m).
Proof.
  unfold endCall. repeat case_match; try (by exists None).
  match goal with
  | H : dropWatchdog (?s0, m) = _ |- _ =>
      destruct (dropWatchdog_spec s0 m)
        as (s' & m' & Hd & _ & _ & _ & _ & _ & _ & _ & _ & Hts & _);
      rewrite Hd in H; simplify_eq
  end.
  rewrite endWaitLoop_timers. cbn. eauto.
Qed.

(** X21.  When a pending watchdog expires, its callback appends the
    terminal turn to the history of the session object it closed over and
    then runs [endCall]; the expired timer is no longer pending. *)
Lemma watchdog_expiry m t o callSid reason ms s h :
  timers m !! t = Some {| cb := WatchdogCb o callSid reason; delay := ms; pending := true |} →
  objs m !! o = Some s →
  historyOf m s = Some h →
  let said := {| role := assistant;
                 content := String.append "[Auto-Terminated: " (String.append reason "]") |} in
  fireTimer m t
  = endCall (set_turnArrs (<[history s := h ++ [said]]> (turnArrs m)) (clearTimeout t m)) callSid
  ∧ turnArrs (fireTimer m t) !! history s = Some (h ++ [said])
  ∧ isPending (fireTimer m t) t = false.
Proof.
  intros Ht Ho Hh. cbn zeta.
  assert (Hf : fireTimer m t
               = endCall (set_turnArrs (<[history s := h ++ [ {| role := assistant;
                    content := String.append "[Auto-Terminated: " (String.append reason "]") |} ]]>
                    (turnArrs m)) (clearTimeout t m)) callSid).
  { unfold fireTimer. rewrite Ht. cbn [pending cb]. unfold watchdogExpired.
    cbn [objs clearTimeout set_timers]. rewrite Ho. unfold pushTurn.
    unfold historyOf in Hh. cbn [turnArrs clearTimeout set_timers]. by rewrite Hh. }
  split; [exact Hf|]. rewrite Hf. split.
  - rewrite endCall_turnArrs. cbn. apply list_lookup_insert_eq.
    by eapply lookup_lt_Some.
  - destruct (endCall_timers
                (set_turnArrs (<[history s := h ++ [ {| role := assistant;
                    content := String.append "[Auto-Terminated: " (String.append reason "]") |} ]]>
                    (turnArrs m)) (clearTimeout t m)) callSid) as (h' & Hts).
    eapply isPending_cleared_same. exact Hts.
Qed.

(** ** A stored boundary-timer handle blocks arming *)

Section Held.

Variable muLawEncode : Z → Z.

(** X22.  While the registered session stores a boundary-timer handle,
    frames that are not loud create no timer and park no task, however many
    arrive; the handle and [isProcessing] stay as they are.  This is how a
    running cycle keeps quiet frames from starting another one. *)
Lemma held_handle_blocks_arming (evs : list Event) (m : Manager) (callSid : string)
    (o : Loc) (s : CallState) (buf : list Chunk) (t : TimerId) :
  getCall m callSid = Some (o, s) →
  bufferOf m s = Some buf →
  silenceTimer s = Some t →
  Forall (λ e, isAudioFor callSid e = true) evs →
  let m' := run muLawEncode m evs in
  timers m' = timers m ∧ tasks m' = tasks m
  ∧ ∃ s', getCall m' callSid = Some (o, s') ∧ silenceTimer s' = Some t
          ∧ isProcessing s' = isProcessing s.
Proof.
  intros Hget Hbuf Hst Hall. cbn zeta. revert m s buf Hget Hbuf Hst.
  induction Hall as [|e evs He Hall IH]; intros m s buf Hget Hbuf Hst.
  { cbn. split_and!; [done | done |]. exists s. by split_and!. }
  destruct e; try discriminate He. cbn in He.
  apply andb_true_iff in He as [Hc Hq]. apply bool_decide_eq_true in Hc as ->.
  apply negb_true_iff in Hq.
  change (run muLawEncode m (EvAudio callSid audioChunk sock rms :: evs))
    with (run muLawEncode (handleIncomingAudio m callSid audioChunk sock rms) evs).
  destruct (handleIncomingAudio_spec m callSid audioChunk sock rms o s buf Hget Hbuf)
    as (s1 & Hget1 & Hbuf1 & _ & _ & Hgate & _ & Hta & _ & _ & Hcore).
  rewrite Hq, Hst in Hgate. cbn [isSet negb] in Hgate. rewrite andb_false_r in Hgate.
  destruct Hgate as [Hst1 Hts1].
  destruct (IH _ s1 _ Hget1 Hbuf1 Hst1) as (Hts & Htas & s' & Hget' & Hst' & Hp').
  split_and!; [congruence | congruence |].
  exists s'. split_and!; [done | done |].
  rewrite Hp'. apply Hcore.
Qed.

End Held.

(** ** Runs that break the turn-taking invariants *)

Section Runs.

Variable muLawEncode : Z → Z.

(** C1.  After [overlapRun] the first cycle of call CA1 is still awaiting
    its transcription ([isProcessing] is true, one cycle in flight) and a
    second boundary timer is pending on the same session; when it expires a
    second cycle starts, so two cycles are in flight at once. *)
Theorem second_cycle_while_processing :
  let m := run muLawEncode newManager overlapRun in
  (∃ o s, getCall m "CA1" = Some (o, s) ∧ isProcessing s = true
          ∧ timers m !! 1%nat =
              Some {| cb := SilenceCb o "CA1" 0; delay := 1200; pending := true |})
  ∧ cyclesInFlight m "CA1" = 1%nat
  ∧ cyclesInFlight (step muLawEncode m (EvTimer 1)) "CA1" = 2%nat.
Proof.
  vm_compute. split; [|split; reflexivity].
  eexists _, _. split_and!; reflexivity.
Qed.

(** C5.  In [doubleEndRun] the first [endCall] marks the session as ending;
    the generation call then returns and the cycle registers its copy of the
    session, taken before the mark, so the second [endCall] finds [isEnding]
    false, runs as well, and two reports are printed for the call. *)
Theorem endCall_twice_two_reports :
  let m1 := run muLawEncode newManager (toGeneration ++ [EvEndCall "CA1"]) in
  let m2 := step muLawEncode m1 (EvSettle 0 (ALlm "I want to book an appointment.")) in
  let m3 := step muLawEncode m2 (EvEndCall "CA1") in
  (∃ o s, getCall m1 "CA1" = Some (o, s) ∧ isEnding s = true)
  ∧ (∃ o s, getCall m2 "CA1" = Some (o, s) ∧ isEnding s = false)
  ∧ (∃ o s, getCall m3 "CA1" = Some (o, s) ∧ isEnding s = true
            ∧ tasks m3 !! 2%nat = Some (KEndWait o "CA1" 0))
  ∧ tasks m2 !! 2%nat = None
  ∧ reportsFor (run muLawEncode newManager doubleEndRun) "CA1" = 2%nat.
Proof.
  vm_compute. split_and!; try reflexivity; eexists _, _; split_and!; reflexivity.
Qed.

(** C6.  After [twoWatchdogsRun] two watchdog timers of call CA1 are pending
    at once: the second re-arm did not cancel the first, whose handle the
    registered session no longer holds.  A loud frame then disarms only the
    second, and the first still expires and tears the call down. *)
Theorem two_watchdogs_armed :
  let m := run muLawEncode newManager twoWatchdogsRun in
  let m' := step muLawEncode m (EvAudio "CA1" [3; 0] 0 loudRms) in
  let m'' := step muLawEncode m' (EvTimer 2) in
  pendingWatchdogs m "CA1" = [2; 3]%nat
  ∧ (∃ o s, getCall m "CA1" = Some (o, s) ∧ watchdogTimeout s = Some 3%nat)
  ∧ pendingWatchdogs m' "CA1" = [2]%nat
  ∧ (∃ o s, getCall m' "CA1" = Some (o, s) ∧ watchdogTimeout s = None
            ∧ isEnding s = false)
  ∧ (∃ o s, getCall m'' "CA1" = Some (o, s) ∧ isEnding s = true).
Proof.
  vm_compute. split_and!; try reflexivity; eexists _, _; split_and!; reflexivity.
Qed.

End Runs.

(** ** Closed instances *)

Lemma buffer_caps_witness :
  ∃ s' buf',
    getCall (handleIncomingAudio (run lowByte newManager quietBacklog) "CA1" [7; 0] 0 quietRms)
      "CA1" = Some (0%nat, s')
    ∧ bufferOf (handleIncomingAudio (run lowByte newManager quietBacklog) "CA1" [7; 0] 0 quietRms)
        s' = Some buf'
    ∧ buf' = replicate 49 [0; 0] ++ [[7; 0]].
Proof.
  edestruct (buffer_caps (run lowByte newManager quietBacklog) "CA1" [7; 0] 0 quietRms)
    as (s' & buf' & Hg & Hb & _ & _ & _ & Heq).
  - vm_compute. reflexivity.
  - vm_compute. reflexivity.
  - exists s', buf'. split; [exact Hg|]. split; [exact Hb|].
    rewrite Heq. vm_compute. reflexivity.
Defined.


Lemma absent_or_ending_is_noop_witness :
  endCall newManager "CA9" = newManager
  ∧ playAIResponse (run lowByte newManager (toGeneration ++ [EvEndCall "CA1"])) "CA1"
      "Hello?" 0 "en-IN" Detached None
    = run lowByte newManager (toGeneration ++ [EvEndCall "CA1"]).
Proof.
  pose proof (absent_or_ending_is_noop newManager "CA9") as [Habs _].
  pose proof (absent_or_ending_is_noop
                (run lowByte newManager (toGeneration ++ [EvEndCall "CA1"])) "CA1")
    as [_ Hend].
  split.
  - destruct (Habs eq_refl) as (_ & _ & Hec & _). exact Hec.
  - edestruct Hend as (_ & Hplay & _).
    + vm_compute. reflexivity.
    + reflexivity.
    + exact (Hplay "Hello?" 0%nat "en-IN").
Defined.

Lemma control_tokens_witness :
  out (dispatchReply 0 "CA1" 0 "en-IN" (Some 0%nat) " WAIT " 0
         (run lowByte newManager toGeneration))
  = out (run lowByte newManager toGeneration)
  ∧ isOpen (dispatchReply 0 "CA1" 0 "en-IN" (Some 0%nat) "END_CALL_LOOP" 0
              (run lowByte newManager toGeneration)) 0 = false.
Proof.
  pose proof (control_tokens 0 "CA1" 0 "en-IN" (Some 0%nat) " WAIT " 0
                (run lowByte newManager toGeneration)) as [Hwait _].
  pose proof (control_tokens 0 "CA1" 0 "en-IN" (Some 0%nat) "END_CALL_LOOP" 0
                (run lowByte newManager toGeneration)) as [_ Hend].
  split.
  - destruct Hwait as (Hout & _); [vm_compute; reflexivity | exact Hout].
  - edestruct Hend as (_ & _ & Hclosed & _).
    + vm_compute. reflexivity.
    + vm_compute. reflexivity.
    + vm_compute. reflexivity.
    + exact Hclosed.
Defined.



Lemma side_channels_once_per_turn_witness :
  manualOverrideResponse
    (settle lowByte (run lowByte newManager overrideHeard) 0 (AHall false)) = None
  ∧ out (settle lowByte (run lowByte newManager overrideHeard) 0 (AHall false))
    = out (run lowByte newManager overrideHeard)
      ++ [OTtsCall "Please repeat that." "en-IN"].
Proof.
  edestruct (side_channels_once_per_turn lowByte (run lowByte newManager overrideHeard) 0)
    as (Hres & _).
  - vm_compute. reflexivity.
  - vm_compute. reflexivity.
  - vm_compute. reflexivity.
  - assert (Htr : truthy (manualOverrideResponse (run lowByte newManager overrideHeard))
                  = Some "Please repeat that.") by (vm_compute; reflexivity).
    rewrite Htr in Hres. destruct Hres as (Hnone & _ & Hused).
    split; [exact Hnone|].
    apply Hused.
    + vm_compute. discriminate.
    + vm_compute. discriminate.
    + reflexivity.
Defined.

(** C8, as stated, fails: an override is pending when the cycle of
    [overrideRun] starts.  If transcription returns nothing, the cycle ends
    and the override is neither used as a reply (nothing is recorded or
    synthesised) nor cleared.  If another call starts meanwhile, the
    override is reset, and the cycle, whose transcript is accepted, makes a
    generation call instead of using it. *)
Lemma override_pending_not_used :
  manualOverrideResponse (run lowByte newManager overrideRun) = Some "Please repeat that."
  ∧ cyclesInFlight (run lowByte newManager overrideRun) "CA1" = 1%nat
  ∧ cyclesInFlight (run lowByte newManager overrideAbandoned) "CA1" = 0%nat
  ∧ manualOverrideResponse (run lowByte newManager overrideAbandoned)
    = Some "Please repeat that."
  ∧ turnArrs (run lowByte newManager overrideAbandoned) = [[]]
  ∧ out (run lowByte newManager overrideAbandoned) = [OSttCall [[1; 0]; [0; 0]]]
  ∧ out (run lowByte newManager overrideLost)
    = [OSttCall [[1; 0]; [0; 0]];
       OHallCall "Hello, how can I help you?" "English" "en-IN";
       OLlmCall "Hello, how can I help you?" 2 None]
  ∧ tasks (run lowByte newManager overrideLost) = [KLlm 0 "CA1" 0 "en-IN" 2].
Proof. vm_compute. split_and!; reflexivity. Qed.

(** * The rest of the engine, its providers and its callers *)

(** ** Starting a call *)

(** X1.  [startCall] for a call identifier that is not registered creates no
    timer: its [resetWatchdog] runs before the session is stored and finds
    nothing, so a new call has no watchdog.  The session it registers has an
    empty history and an empty buffer, no timer handle, all flags false, the
    socket it was given, the scenario selected for the next call, the
    pending language (English when that is empty) and one of the ten
    symptoms; the manual override is cleared. *)
Lemma startCall_fresh_arms_nothing (m : Manager) (callSid : string) (sock : option WsId)
    (rnd : nat) (now : Z) :
  activeCalls m !! callSid = None →
  let m' := startCall m callSid sock rnd now in
  timers m' = timers m
  ∧ pendingWatchdogs m' callSid = pendingWatchdogs m callSid
  ∧ manualOverrideResponse m' = None
  ∧ ∃ o s, getCall m' callSid = Some (o, s)
      ∧ watchdogTimeout s = None ∧ silenceTimer s = None
      ∧ historyOf m' s = Some [] ∧ bufferOf m' s = Some []
      ∧ hasSpoken s = false ∧ isProcessing s = false ∧ isEnding s = false
      ∧ ws s = sock
      ∧ scenario s = nextScenario m
      ∧ targetLanguage s = (if bool_decide (pendingTestLanguage m = "") then "English"
                            else pendingTestLanguage m)
      ∧ symptom s ∈ symptomOptions.
Proof.
  intros Habs. cbn zeta. unfold startCall.
  assert (Hsym : nth (rnd mod 10) symptomOptions "fever" ∈ symptomOptions).
  { apply list_elem_of_In, nth_In. cbn [length symptomOptions].
    apply Nat.mod_upper_bound. lia. }
  set (m1 := set_manualOverrideResponse None m).
  assert (Hr : resetWatchdog m1 callSid 120000
                 "Target bot unreachable (no connection) for 2 minutes." = m1).
  { unfold resetWatchdog. by rewrite getCall_None. }
  rewrite Hr. unfold allocTurns, allocFrames, allocObj, pendingWatchdogs. cbn.
  split_and!; try done.
  eexists _, _. split.
  { apply getCall_Some. cbn. split; [apply lookup_insert_eq|].
    rewrite lookup_app_r by done. by rewrite Nat.sub_diag. }
  unfold historyOf, bufferOf. cbn.
  rewrite !lookup_app_r by done. rewrite !Nat.sub_diag. cbn.
  split_and!; try done.
  by destruct (pendingTestLanguage m).
Qed.

(** X2.  [startCall] for a call identifier that is still registered arms
    the two-minute watchdog on the old session object, which gets its
    handle; the session that replaces it in the registry is a new object
    that holds no watchdog handle. *)
Lemma startCall_again_watchdog_on_old (m : Manager) (callSid : string)
    (sock : option WsId) (rnd : nat) (now : Z) (o : Loc) (s : CallState) :
  getCall m callSid = Some (o, s) →
  let m' := startCall m callSid sock rnd now in
  let t := length (timers m) in
  timers m' !! t =
    Some {| cb := WatchdogCb o callSid "Target bot unreachable (no connection) for 2 minutes.";
            delay := 120000; pending := true |}
  ∧ objs m' !! o = Some (set_watchdogTimeout (Some t) s)
  ∧ ∃ o' s', getCall m' callSid = Some (o', s') ∧ o' ≠ o
      ∧ watchdogTimeout s' = None ∧ historyOf m' s' = Some [] ∧ isEnding s' = false.
Proof.
  intros Hget. cbn zeta. unfold startCall.
  set (m1 := set_manualOverrideResponse None m).
  assert (Hget1 : getCall m1 callSid = Some (o, s)) by done.
  destruct (resetWatchdog_cancels_stored m1 callSid 120000
              "Target bot unreachable (no connection) for 2 minutes." o s Hget1)
    as (_ & Ht & Hg).
  set (m2 := resetWatchdog m1 callSid 120000 _) in *.
  apply getCall_Some in Hg as [Hreg Hobj].
  pose proof (lookup_lt_Some _ _ _ Hobj) as Hlt.
  unfold allocTurns, allocFrames, allocObj. cbn.
  split_and!.
  - exact Ht.
  - by rewrite lookup_app_l.
  - eexists _, _. split.
    { apply getCall_Some. cbn. split; [apply lookup_insert_eq|].
      rewrite lookup_app_r by done. by rewrite Nat.sub_diag. }
    unfold historyOf. cbn. rewrite lookup_app_r by done. rewrite Nat.sub_diag.
    split_and!; try done. lia.
Qed.

(** ** Teardown *)

Lemma endCall_noop m callSid :
  (getCall m callSid = None ∨ ∃ o s, getCall m callSid = Some (o, s) ∧ isEnding s = true) →
  endCall m callSid = m.
Proof.
  unfold endCall. intros [-> | (o & s & -> & ->)]; done.
Qed.

Lemma endFinish_registry o callSid slot m s :
  objs m !! o = Some s →
  let m' := endFinish o callSid slot m in
  objs m' = objs m
  ∧ (activeCalls m' = activeCalls m ∨ activeCalls m' = delete callSid (activeCalls m)).
Proof.
  intros Ho. cbn zeta. unfold endFinish, wsClose. rewrite Ho.
  repeat case_match; destruct slot; cbn; eauto.
Qed.

Lemma getCall_after m m' callSid o s :
  objs m' !! o = Some s →
  (activeCalls m' = activeCalls m ∨ activeCalls m' = delete callSid (activeCalls m)) →
  activeCalls m !! callSid = Some o →
  getCall m' callSid = None ∨ getCall m' callSid = Some (o, s).
Proof.
  intros Ho [Ha | Ha] Hreg.
  - right. apply getCall_Some. by rewrite Ha.
  - left. apply getCall_None. rewrite Ha. apply lookup_delete_eq.
Qed.

Lemma endCall_endCall (m : Manager) (callSid : string) :
  endCall (endCall m callSid) callSid = endCall m callSid.
Proof.
  destruct (getCall m callSid) as [[o s]|] eqn:Hget.
  2:{ rewrite (endCall_noop m) by eauto. apply endCall_noop. eauto. }
  destruct (isEnding s) eqn:Hend.
  { rewrite (endCall_noop m) by eauto. apply endCall_noop. eauto. }
  apply endCall_noop.
  unfold endCall. rewrite Hget, Hend.
  destruct (dropWatchdog_spec (set_isEnding true s) m)
    as (s' & m1 & -> & _ & _ & _ & _ & He & _ & _ & _ & _ & _ & Hsame & _).
  destruct Hsame as (Hac & Hob & _).
  apply getCall_Some in Hget as [Hreg Hobj].
  pose proof (lookup_lt_Some _ _ _ Hobj) as Hlt.
  set (m2 := putObj o s' m1).
  assert (Ho2 : objs m2 !! o = Some s').
  { cbn. rewrite Hob. by apply list_lookup_insert_eq. }
  assert (Hreg2 : activeCalls m2 !! callSid = Some o) by (cbn; by rewrite Hac).
  cbn in He.
  assert (Hgoal : ∀ m3, objs m3 !! o = Some s' →
            (activeCalls m3 = activeCalls m2 ∨ activeCalls m3 = delete callSid (activeCalls m2)) →
            getCall m3 callSid = None
            ∨ ∃ o0 s0, getCall m3 callSid = Some (o0, s0) ∧ isEnding s0 = true).
  { intros m3 Ho3 Ha3.
    destruct (getCall_after m2 m3 callSid o s' Ho3 Ha3 Hreg2) as [Hn | Hs]; eauto 6. }
  unfold endWaitLoop. rewrite Ho2.
  destruct ((isProcessing s' || isSet (silenceTimer s')) && (0 <? 60)%nat).
  - apply Hgoal; cbn; eauto.
  - destruct (endFinish_registry o callSid None m2 s' Ho2) as (Hob3 & Ha3).
    apply Hgoal; [by rewrite Hob3 | done].
Qed.

(** X3.  Two [endCall]s in a row are one: the second finds the session
    ending or gone and changes nothing, so it prints no report.  In
    particular the [close] event of a connection right after its [stop]
    message does nothing. *)
Theorem endCall_twice_in_a_row (m : Manager) (callSid : string) :
  endCall (endCall m callSid) callSid = endCall m callSid
  ∧ reportsFor (endCall (endCall m callSid) callSid) callSid
    = reportsFor (endCall m callSid) callSid
  ∧ ∀ c rnd now,
      let '(c', m') := onMessage c MsgStop rnd now m in
      c' = c ∧ onClose c' m' = m'.
Proof.
  split_and!.
  - apply endCall_endCall.
  - by rewrite endCall_endCall.
  - intros c rnd now. cbn [onMessage]. split; [done|]. apply endCall_endCall.
Qed.

Lemma endWaitLoop_next o callSid n tid m :
  ∃ k, tasks (endWaitLoop o callSid n (Some tid) m) = <[tid := k]> (tasks m)
       ∧ (k = KDone ∨ k = KEndReport o callSid
          ∨ (k = KEndWait o callSid n ∧ (n < 60)%nat)).
Proof.
  unfold endWaitLoop. destruct (objs m !! o) as [s|]; [|cbn; eauto].
  destruct (Nat.ltb_spec n 60) as [Hlt|Hge].
  - destruct (isProcessing s || isSet (silenceTimer s)); cbn [andb].
    + cbn. eauto 6.
    + destruct (endFinish_tasks o callSid tid m) as (k & -> & [-> | ->]); eauto.
  - rewrite andb_false_r.
    destruct (endFinish_tasks o callSid tid m) as (k & -> & [-> | ->]); eauto.
Qed.

Section Polls.

Variable muLawEncode : Z → Z.

Lemma sleep_settled m tid k n :
  tasks m !! tid = Some k → (k = KDone ∨ ∃ o c, k = KEndReport o c) →
  run muLawEncode m (replicate n (EvSettle tid ASleep)) = m.
Proof.
  intros Hk Hd. induction n as [|n IH]; [done|].
  cbn [replicate]. unfold run in *. cbn [foldl step].
  assert (Hs : settle muLawEncode m tid ASleep = m).
  { unfold settle. rewrite Hk. by destruct Hd as [-> | (o & c & ->)]. }
  by rewrite Hs.
Qed.

(** X4.  The wait loop of [endCall] gives up: a teardown that has polled
    [waitLoops] times has left the loop after at most [60 - waitLoops] more
    pauses, whatever the flags of its session say; it has then returned or
    is awaiting the report. *)
Theorem endCall_wait_gives_up (m : Manager) (tid : TaskId) (o : Loc) (callSid : string)
    (waitLoops : nat) :
  tasks m !! tid = Some (KEndWait o callSid waitLoops) →
  (waitLoops < 60)%nat →
  let m' := run muLawEncode m (replicate (60 - waitLoops) (EvSettle tid ASleep)) in
  tasks m' !! tid = Some KDone ∨ tasks m' !! tid = Some (KEndReport o callSid).
Proof.
  cbn zeta. remember (60 - waitLoops)%nat as n eqn:Hn.
  revert m waitLoops Hn. induction n as [|n IH]; intros m k Hn Hk Hlt; [lia|].
  cbn [replicate]. unfold run in *. cbn [foldl step].
  pose proof (lookup_lt_Some _ _ _ Hk) as Htid.
  assert (Hs : settle muLawEncode m tid ASleep = endWaitLoop o callSid (S k) (Some tid) m).
  { unfold settle. by rewrite Hk. }
  rewrite Hs.
  destruct (endWaitLoop_next o callSid (S k) tid m) as (k' & Hta & Hk').
  set (m1 := endWaitLoop o callSid (S k) (Some tid) m) in *.
  assert (Hk1 : tasks m1 !! tid = Some k').
  { rewrite Hta. by apply list_lookup_insert_eq. }
  destruct Hk' as [-> | [-> | [-> Hlt']]].
  - fold (run muLawEncode m1 (replicate n (EvSettle tid ASleep))).
    rewrite (sleep_settled m1 tid KDone) by eauto. by left.
  - fold (run muLawEncode m1 (replicate n (EvSettle tid ASleep))).
    rewrite (sleep_settled m1 tid (KEndReport o callSid)) by eauto. by right.
  - apply (IH m1 (S k)); [lia | done | done].
Qed.

(** ** The one-time password *)

Lemma step_latestReceivedOTP m e :
  latestReceivedOTP (step muLawEncode m e)
  = match e with
    | EvInjectOtp (String a rest) => Some (String a rest)
    | _ => latestReceivedOTP m
    end.
Proof.
  destruct e; cbn [step].
  - apply startCall_calm.
  - apply handleIncomingAudio_calm.
  - apply endCall_calm.
  - apply triggerAIResponse_spec.
  - apply playAIResponse_calm.
  - apply resetWatchdog_calm.
  - apply fireTimer_calm.
  - destruct (settle_cases muLawEncode m tid ans)
      as [Hc | [(o & c & sock & tr & lang & b & Hk & -> & ->) | (o & c & r & s & Hk & -> & Ho & ->)]].
    + apply Hc.
    + apply hallAnswered_spec.
    + by destruct (reportAnswered_spec o c tid (Some r) m s Ho) as (_ & _ & _ & ? & _).
  - by destruct otp.
  - done.
  - done.
  - done.
Qed.

(** X6.  The injected one-time password outlives calls: no step of the
    engine clears it ([startCall] resets the override only) and an empty
    injection is refused, so once a password is set every later state has
    one; a run without injections leaves it unchanged, and a non-empty
    injection replaces it. *)
Theorem otp_outlives_calls (m : Manager) (evs : list Event) :
  let m' := run muLawEncode m evs in
  (latestReceivedOTP m ≠ None → latestReceivedOTP m' ≠ None)
  ∧ (Forall (λ e, isInjectOtp e = false) evs → latestReceivedOTP m' = latestReceivedOTP m)
  ∧ (∀ a rest, latestReceivedOTP (step muLawEncode m' (EvInjectOtp (String a rest)))
               = Some (String a rest))
  ∧ latestReceivedOTP (step muLawEncode m' (EvInjectOtp "")) = latestReceivedOTP m'.
Proof.
  cbn zeta. split_and!.
  - revert m. induction evs as [|e evs IH]; intros m Hm; [done|].
    unfold run in *. cbn [foldl]. apply IH.
    rewrite step_latestReceivedOTP. destruct e; try done. by destruct otp.
  - intros Hall. revert m. induction Hall as [|e evs He Hall IH]; intros m; [done|].
    unfold run in *. cbn [foldl]. rewrite IH, step_latestReceivedOTP.
    by destruct e.
  - done.
  - done.
Qed.

End Polls.

(** ** Frames that are neither loud nor quiet *)

(** X7.  A frame whose loudness is neither above the threshold nor at most
    the threshold, which is the [NaN] of an empty frame, is only buffered:
    no timer is created or cleared, no cycle starts, and [hasSpoken] and
    both timer handles stay as they are. *)
Theorem nan_frame_only_buffers (m : Manager) (callSid : string) (chunk : Chunk)
    (sock : WsId) (rms : JsNum) (o : Loc) (s : CallState) (buf : list Chunk) :
  getCall m callSid = Some (o, s) →
  bufferOf m s = Some buf →
  isLoud rms = false → isQuiet rms = false →
  let m' := handleIncomingAudio m callSid chunk sock rms in
  rms = NaN
  ∧ timers m' = timers m ∧ tasks m' = tasks m
  ∧ ∃ s', getCall m' callSid = Some (o, s')
      ∧ hasSpoken s' = hasSpoken s ∧ silenceTimer s' = silenceTimer s
      ∧ watchdogTimeout s' = watchdogTimeout s
      ∧ ∃ buf', bufferOf m' s' = Some buf' ∧ last buf' = Some chunk.
Proof.
  intros Hget Hbuf Hl Hq. cbn zeta.
  destruct (handleIncomingAudio_spec m callSid chunk sock rms o s buf Hget Hbuf)
    as (s' & Hget' & Hbuf' & Hsp & Hwd & Hgate & _ & Hta & _).
  rewrite Hl, Hq in *. cbn in Hgate, Hsp, Hwd. destruct Hgate as [Hst Hts].
  split_and!; try done.
  - destruct rms as [|q]; [done|]. cbn in Hl, Hq.
    destruct (Qle_bool q LOUDNESS_THRESHOLD); done.
  - exists s'. split_and!; try done.
    eexists. split; [exact Hbuf'|].
    assert (Hlast : ∀ k, (0 < k)%nat → last (sliceLast k (buf ++ [chunk])) = Some chunk).
    { intros k Hk. unfold sliceLast. rewrite length_app. cbn [length].
      rewrite drop_app_le by lia.
      apply last_snoc. }
    repeat case_match; rewrite ?Hlast by lia; try done. apply last_snoc.
Qed.

(** ** The start of a turn cycle *)

(** X8.  When a pending boundary timer expires, its callback marks the
    session object it closed over as processing, hands the whole buffer to
    transcription, gives the object a new empty buffer (the old array is
    left as it was), resets [hasSpoken] and keeps the handle of the expired
    timer stored; one more task awaits the transcript, and the registry is
    not touched. *)
Theorem boundary_expiry_starts_cycle (m : Manager) (t : TimerId) (o : Loc)
    (callSid : string) (sock : WsId) (ms : Z) (s : CallState) (buf : list Chunk) :
  timers m !! t = Some {| cb := SilenceCb o callSid sock; delay := ms; pending := true |} →
  objs m !! o = Some s →
  bufferOf m s = Some buf →
  let m' := fireTimer m t in
  out m' = out m ++ [OSttCall buf]
  ∧ tasks m' = tasks m ++ [KStt o callSid sock]
  ∧ isPending m' t = false
  ∧ length (timers m') = length (timers m)
  ∧ activeCalls m' = activeCalls m
  ∧ ∃ s', objs m' !! o = Some s'
      ∧ isProcessing s' = true ∧ hasSpoken s' = false
      ∧ silenceTimer s' = silenceTimer s ∧ watchdogTimeout s' = watchdogTimeout s
      ∧ bufferOf m' s' = Some [] ∧ audioBuffer s' ≠ audioBuffer s
      ∧ bufferOf m' s = Some buf.
Proof.
  intros Ht Ho Hbuf. cbn zeta.
  pose proof (lookup_lt_Some _ _ _ Ho) as Hlo.
  pose proof (lookup_lt_Some _ _ _ Hbuf) as Hlb.
  unfold fireTimer. rewrite Ht. cbn [pending cb].
  unfold silenceExpired. cbn [objs clearTimeout set_timers]. rewrite Ho.
  unfold bufferOf in *. cbn [audioBuffer set_isProcessing frameArrs set_timers clearTimeout].
  rewrite Hbuf. unfold allocFrames, isPending. cbn.
  split_and!; try done.
  - rewrite list_lookup_alter_eq. apply cancel_not_pending.
  - by rewrite length_alter.
  - eexists. split; [by apply list_lookup_insert_eq|]. cbn.
    split_and!; try done.
    + rewrite lookup_app_r by done. by rewrite Nat.sub_diag.
    + lia.
    + by rewrite lookup_app_l.
Qed.

(** ** Transcripts that are dropped *)

Section Dropped.

Variable muLawEncode : Z → Z.

(** X9.  A transcript shorter than two characters after trimming, or one
    that the filter flags, ends the cycle without a trace: no turn is
    recorded, no further provider call is made, nothing is sent, no timer
    changes and a pending override stays pending; the cycle only clears
    [isProcessing] and the boundary-timer handle of its own session
    object. *)
Theorem dropped_transcript_leaves_no_trace (m : Manager) (tid : TaskId) (k : Kont)
    (ans : Answer) (o : Loc) (callSid : string) (sock : WsId) :
  tasks m !! tid = Some k →
  ((∃ text lang, k = KStt o callSid sock ∧ ans = AStt text lang
                 ∧ (String.length (trim text) < 2)%nat)
   ∨ (∃ transcript lang, k = KHall o callSid sock transcript lang ∧ ans = AHall true)) →
  let m' := settle muLawEncode m tid ans in
  turnArrs m' = turnArrs m ∧ out m' = out m ∧ activeCalls m' = activeCalls m
  ∧ timers m' = timers m ∧ sockets m' = sockets m
  ∧ manualOverrideResponse m' = manualOverrideResponse m
  ∧ tasks m' = <[tid := KDone]> (tasks m)
  ∧ (∀ s, objs m !! o = Some s →
       objs m' = <[o := set_silenceTimer None (set_isProcessing false s)]> (objs m)).
Proof.
  intros Hk Hcase. cbn zeta.
  assert (Hs : settle muLawEncode m tid ans = cycleFinally o (Some tid) m).
  { unfold settle. rewrite Hk.
    destruct Hcase as [(text & lang & -> & -> & Hlen) | (tr & lang & -> & ->)].
    - unfold sttAnswered.
      destruct (Nat.ltb_spec (String.length (trim text)) 2) as [_|Hge]; [|lia].
      by rewrite orb_true_r.
    - done. }
  rewrite Hs.
  destruct (cycleFinally_frame o (Some tid) m) as (Ho & Ht & Htu & Hso & Hac & Hta & _ & Hov & _).
  split_and!; try done.
  intros s Hobj. unfold cycleFinally. rewrite Hobj. done.
Qed.

End Dropped.




Lemma resetWatchdog_frame m callSid ms reason :
  let m' := resetWatchdog m callSid ms reason in
  out m' = out m ∧ sockets m' = sockets m ∧ turnArrs m' = turnArrs m
  ∧ activeCalls m' = activeCalls m ∧ tasks m' = tasks m
  ∧ length (objs m') = length (objs m)
  ∧ (getCall m callSid = None → m' = m).
Proof.
  cbn zeta. unfold resetWatchdog, setTimeout.
  destruct (getCall m callSid) as [[o s]|]; [|done].
  destruct (watchdogTimeout s); cbn; rewrite ?length_insert; done.
Qed.

Lemma cycleFinally_object o slot m p s :
  objs m !! p = Some s →
  ∃ s', objs (cycleFinally o slot m) !! p = Some s'
        ∧ watchdogTimeout s' = watchdogTimeout s ∧ isEnding s' = isEnding s
        ∧ history s' = history s ∧ hasSpoken s' = hasSpoken s.
Proof.
  intros Hp. unfold cycleFinally.
  destruct (objs m !! o) as [so|] eqn:Ho.
  - destruct (decide (p = o)) as [->|Hne].
    + pose proof (eq_trans (eq_sym Hp) Ho) as [= <-].
      exists (set_silenceTimer None (set_isProcessing false s)).
      split; [|done].
      destruct slot; cbn; apply list_lookup_insert_eq; by eapply lookup_lt_Some.
    + exists s. split; [|done].
      destruct slot; cbn; by rewrite list_lookup_insert_ne.
  - exists s. split; [|done]. by destruct slot.
Qed.

Lemma playDone_object aft slot m p s :
  objs m !! p = Some s →
  ∃ s', objs (playDone aft slot m) !! p = Some s'
        ∧ watchdogTimeout s' = watchdogTimeout s ∧ isEnding s' = isEnding s
        ∧ history s' = history s ∧ hasSpoken s' = hasSpoken s.
Proof.
  intros Hp. destruct aft; [by apply cycleFinally_object|].
  exists s. split; [|done]. by destruct slot.
Qed.

Lemma playDone_frame aft slot m :
  let m' := playDone aft slot m in
  out m' = out m ∧ timers m' = timers m ∧ turnArrs m' = turnArrs m
  ∧ sockets m' = sockets m ∧ activeCalls m' = activeCalls m
  ∧ tasks m' = tasks (finish slot m).
Proof.
  destruct aft; cbn zeta; cbn [playDone].
  - destruct (cycleFinally_frame o slot m) as (?&?&?&?&?&?&_). done.
  - by destruct slot.
Qed.

(** What the end of a playback does: the watchdog of the registered session
    is replaced by a new one of 45 seconds. *)
Lemma playFinished_spec callSid aft tid m :
  let m' := playFinished callSid aft tid m in
  let t' := length (timers m) in
  out m' = out m ∧ sockets m' = sockets m ∧ turnArrs m' = turnArrs m
  ∧ activeCalls m' = activeCalls m ∧ tasks m' = <[tid := KDone]> (tasks m)
  ∧ (getCall m callSid = None → timers m' = timers m)
  ∧ (∀ o s, getCall m callSid = Some (o, s) →
       timers m' !! t' =
         Some {| cb := WatchdogCb o callSid watchdogAfterPlayback; delay := 45000;
                 pending := true |}
       ∧ (∀ t, watchdogTimeout s = Some t → (t < t')%nat → isPending m' t = false)
       ∧ ∃ s', getCall m' callSid = Some (o, s') ∧ watchdogTimeout s' = Some t').
Proof.
  cbn zeta. unfold playFinished.
  set (m1 := resetWatchdog m callSid 45000 watchdogAfterPlayback).
  destruct (resetWatchdog_frame m callSid 45000 watchdogAfterPlayback)
    as (Ho1 & Hs1 & Ht1 & Ha1 & Hta1 & _ & Hnone).
  fold m1 in Ho1, Hs1, Ht1, Ha1, Hta1, Hnone.
  destruct (playDone_frame aft (Some tid) m1) as (Ho2 & Hti2 & Ht2 & Hs2 & Ha2 & Hta2).
  split_and!; try congruence.
  - rewrite Hta2. cbn. by rewrite Hta1.
  - intros Hn. rewrite Hti2. by rewrite (Hnone Hn).
  - intros o s Hget.
    destruct (resetWatchdog_cancels_stored m callSid 45000 watchdogAfterPlayback o s Hget)
      as (Hc & Hnew & Hg).
    fold m1 in Hc, Hnew, Hg. split_and!.
    + by rewrite Hti2.
    + intros t Hw Hlt. specialize (Hc t Hw Hlt). unfold isPending in *. by rewrite Hti2.
    + apply getCall_Some in Hg as [Hreg Hobj].
      destruct (playDone_object aft (Some tid) m1 o _ Hobj) as (s' & Hobj' & Hw' & _).
      exists s'. split; [|by rewrite Hw'].
      apply getCall_Some. by rewrite Ha2.
Qed.

Section Pacing.

Variable muLawEncode : Z → Z.



Lemma settle_pace m tid callSid sock arr offset aft :
  tasks m !! tid = Some (KPace callSid sock arr offset aft) →
  settle muLawEncode m tid ASleep
  = paceLoop (S (length arr)) callSid sock arr offset aft tid m.
Proof. intros Hk. unfold settle. by rewrite Hk. Qed.



(** X15.  Playback without an open socket.  If synthesis failed or the
    socket is not open when it returns, nothing is sent and no timer
    changes: the watchdog is not re-armed, and no session's watchdog handle
    or [hasSpoken] flag changes.  If the socket closes during a pause of the
    sending loop, nothing more is sent, yet the watchdog of the registered
    session is re-armed. *)
Theorem playback_without_open_socket (callSid : string) (sock : WsId) (aft : After)
    (tid : TaskId) (m : Manager) :
  (∀ samples, samples = None ∨ isOpen m sock = false →
     let m' := ttsAnswered muLawEncode callSid sock aft tid samples m in
     out m' = out m ∧ timers m' = timers m ∧ turnArrs m' = turnArrs m
     ∧ activeCalls m' = activeCalls m ∧ tasks m' = <[tid := KDone]> (tasks m)
     ∧ ∀ p s, objs m !! p = Some s →
         ∃ s', objs m' !! p = Some s' ∧ watchdogTimeout s' = watchdogTimeout s
               ∧ hasSpoken s' = hasSpoken s)
  ∧ (∀ arr offset,
       tasks m !! tid = Some (KPace callSid sock arr offset aft) →
       isOpen m sock = false →
       let m' := settle muLawEncode m tid ASleep in
       let t' := length (timers m) in
       out m' = out m ∧ tasks m' !! tid = Some KDone
       ∧ (getCall m callSid = None → timers m' = timers m)
       ∧ (∀ o s, getCall m callSid = Some (o, s) →
            timers m' !! t' =
              Some {| cb := WatchdogCb o callSid watchdogAfterPlayback; delay := 45000;
                      pending := true |}
            ∧ ∃ s', getCall m' callSid = Some (o, s') ∧ watchdogTimeout s' = Some t')).
Proof.
  split.
  - intros samples Hcase. cbn zeta.
    assert (Hs : ttsAnswered muLawEncode callSid sock aft tid samples m
                 = playDone aft (Some tid) m).
    { unfold ttsAnswered. destruct Hcase as [-> | Hcl]; [done|].
      destruct samples; [by rewrite Hcl | done]. }
    rewrite Hs.
    destruct (playDone_frame aft (Some tid) m) as (?&?&?&?&?&?).
    split_and!; try done.
    intros p s Hp.
    destruct (playDone_object aft (Some tid) m p s Hp) as (s' & ? & ? & _ & _ & ?).
    eauto.
  - intros arr offset Hk Hcl. cbn zeta.
    pose proof (lookup_lt_Some _ _ _ Hk) as Htid.
    rewrite (settle_pace _ _ _ _ _ _ _ Hk). cbn [paceLoop]. rewrite Hcl.
    assert (Hs : (if (offset <? length arr)%nat
                  then playFinished callSid aft tid m
                  else playFinished callSid aft tid m) = playFinished callSid aft tid m)
      by (by destruct (offset <? length arr)%nat).
    rewrite Hs.
    destruct (playFinished_spec callSid aft tid m)
      as (Ho' & Hs' & Ht' & Ha' & Hta' & Hn' & Hw').
    split_and!; try done.
    + rewrite Hta'. by apply list_lookup_insert_eq.
    + intros o s Hget. destruct (Hw' o s Hget) as (H1 & _ & H3). done.
Qed.

End Pacing.

(** ** The generation request *)

Section Generation.

Variable muLawEncode : Z → Z.

(** X10.  The messages of a generation request.  From a turn cycle: the
    system prompt (built from the session's scenario, symptom and language
    and the truthy one-time password), the history, and the transcript
    twice, once as the user turn the cycle has just recorded and once as the
    message [processCustomerIntent] appends.  From [triggerAIResponse]: the
    history, the note recorded as an assistant turn, and the initial text as
    a user message; the registry is left alone. *)
Theorem generation_request_messages (m : Manager) (o : Loc) (s : CallState)
    (h : list Turn) (callSid : string) (sock : WsId) :
  objs m !! o = Some s →
  historyOf m s = Some h →
  let prompt := SystemPrompt
                  {| promptScenario := scenario s; promptSymptom := symptom s;
                     promptOtp := truthy (latestReceivedOTP m);
                     promptLanguage := targetLanguage s |} in
  let c := length (objs m) in
  (∀ tid transcript lang,
     tasks m !! tid = Some (KHall o callSid sock transcript lang) →
     truthy (manualOverrideResponse m) = None →
     let m' := settle muLawEncode m tid (AHall false) in
     let heard := Chat {| role := user; content := transcript |} in
     out m' = out m ++ [OLlmCall transcript c (latestReceivedOTP m)]
     ∧ chatMessages m' transcript c = Some (prompt :: (Chat <$> h) ++ [heard; heard]))
  ∧ (∀ initialText,
     getCall m callSid = Some (o, s) → isEnding s = false →
     let m' := triggerAIResponse m callSid initialText sock in
     let note := {| role := assistant;
                    content := String.append "(System: Bot was silent. AI is taking initiative: "
                                 (String.append initialText ")") |} in
     out m' = out m ++ [OLlmCall initialText c (latestReceivedOTP m)]
     ∧ chatMessages m' initialText c
       = Some (prompt :: (Chat <$> h)
                 ++ [Chat note; Chat {| role := user; content := initialText |}])
     ∧ activeCalls m' = activeCalls m).
Proof.
  intros Ho Hh. cbn zeta.
  pose proof (lookup_lt_Some _ _ _ Hh) as Hlh.
  unfold historyOf in Hh.
  split.
  - intros tid transcript lang Hk Hov.
    unfold settle. rewrite Hk. unfold hallAnswered. rewrite Ho.
    unfold pushTurn. rewrite Hh. cbn [manualOverrideResponse set_turnArrs].
    rewrite Hov. unfold allocObj, chatMessages. cbn.
    split; [done|].
    rewrite lookup_app_r by done. rewrite Nat.sub_diag. cbn.
    rewrite list_lookup_insert_eq by done.
    rewrite fmap_app, <- app_assoc. done.
  - intros initialText Hget Hend.
    unfold triggerAIResponse. rewrite Hget, Hend.
    unfold pushTurn. rewrite Hh. unfold allocObj, chatMessages. cbn.
    split; [done|]. split; [|done].
    rewrite lookup_app_r by done. rewrite Nat.sub_diag. cbn.
    rewrite list_lookup_insert_eq by done.
    rewrite fmap_app, <- app_assoc. done.
Qed.

(** ** The registered copy after a reply *)

Lemma endWaitLoop_waits o callSid slot m s :
  objs m !! o = Some s → isProcessing s = true →
  endWaitLoop o callSid 0 slot m = park slot (KEndWait o callSid 0) m.
Proof. intros Ho Hp. unfold endWaitLoop. by rewrite Ho, Hp. Qed.

(** X12.  After a reply that trims to ["WAIT"] the cycle is over and its
    own session object is idle again, but the registered session is now the
    copy made during the cycle, with the flags of that moment: if the copy
    was taken while [isProcessing] was true, a following [endCall] enters
    its wait loop. *)
Theorem wait_reply_leaves_copy_processing (m : Manager) (tid : TaskId) (o : Loc)
    (s : CallState) (callSid : string) (sock : WsId) (lang : string) (c : Loc)
    (cs : CallState) (replyText : string) :
  tasks m !! tid = Some (KLlm o callSid sock lang c) →
  objs m !! o = Some s →
  objs m !! c = Some cs →
  trim replyText = "WAIT" →
  let m' := settle muLawEncode m tid (ALlm replyText) in
  let u := length (objs m) in
  tasks m' !! tid = Some KDone
  ∧ getCall m' callSid = Some (u, set_lastIntentProcessed true cs)
  ∧ objs m' !! o = Some (set_silenceTimer None (set_isProcessing false s))
  ∧ (isProcessing cs = true → isEnding cs = false →
       tasks (endCall m' callSid) = tasks m' ++ [KEndWait u callSid 0]).
Proof.
  intros Hk Ho Hc Hw. cbn zeta.
  pose proof (lookup_lt_Some _ _ _ Hk) as Htid.
  pose proof (lookup_lt_Some _ _ _ Ho) as Hlo.
  unfold settle. rewrite Hk. unfold llmResult. rewrite Hc.
  unfold allocObj. cbn [fst snd]. unfold dispatchReply.
  rewrite Hw. rewrite bool_decide_eq_true_2 by done.
  set (m1 := set_activeCalls _ _).
  assert (Ho1 : objs m1 !! o = Some s) by (cbn; by rewrite lookup_app_l).
  unfold cycleFinally. rewrite Ho1.
  set (m2 := finish (Some tid) _).
  assert (Hu : objs m2 !! length (objs m) = Some (set_lastIntentProcessed true cs)).
  { cbn. rewrite list_lookup_insert_ne by lia.
    rewrite lookup_app_r by done. by rewrite Nat.sub_diag. }
  assert (Hget : getCall m2 callSid = Some (length (objs m), set_lastIntentProcessed true cs)).
  { apply getCall_Some. split; [|exact Hu]. cbn. apply lookup_insert_eq. }
  split_and!.
  - cbn. by apply list_lookup_insert_eq.
  - exact Hget.
  - cbn. apply list_lookup_insert_eq. rewrite length_app. lia.
  - intros Hp He. unfold endCall. rewrite Hget.
    cbn [isEnding set_lastIntentProcessed]. rewrite He.
    destruct (dropWatchdog_spec (set_isEnding true (set_lastIntentProcessed true cs)) m2)
      as (s' & m3 & -> & _ & _ & _ & _ & _ & Hp' & _ & _ & _ & _ & Hsame & _).
    destruct Hsame as (Hac3 & Hob3 & _ & Hta3 & _).
    assert (Hu3 : objs (putObj (length (objs m)) s' m3) !! length (objs m) = Some s').
    { cbn. rewrite Hob3. apply list_lookup_insert_eq. by eapply lookup_lt_Some. }
    cbn in Hp'. rewrite (endWaitLoop_waits _ _ _ _ s' Hu3) by congruence.
    cbn. by rewrite Hta3.
Qed.

End Generation.

(** ** Trimming *)

Lemma trimEnd_idem (s : string) : trimEnd (trimEnd s) = trimEnd s.
Proof.
  induction s as [|c rest IH]; [done|].
  cbn [trimEnd]. destruct (trimEnd rest) as [|d r] eqn:Hr.
  - destruct (isWhiteSpace c) eqn:Hc; [done|]. cbn [trimEnd]. by rewrite Hc.
  - change (trimEnd (String c (String d r)))
      with (match trimEnd (String d r) with
            | EmptyString => if isWhiteSpace c then EmptyString else String c EmptyString
            | rest' => String c rest'
            end).
    by rewrite IH.
Qed.

Lemma trimStart_head (s : string) :
  trimStart s = "" ∨ ∃ c rest, trimStart s = String c rest ∧ isWhiteSpace c = false.
Proof.
  induction s as [|c rest IH]; [by left|].
  cbn [trimStart]. destruct (isWhiteSpace c) eqn:Hc; [exact IH|]. right. eauto.
Qed.

Lemma trimEnd_head c rest :
  isWhiteSpace c = false → ∃ rest', trimEnd (String c rest) = String c rest'.
Proof.
  intros Hc. cbn [trimEnd]. destruct (trimEnd rest); [rewrite Hc|]; eauto.
Qed.

Lemma trim_idem (s : string) : trim (trim s) = trim s.
Proof.
  unfold trim. destruct (trimStart_head s) as [-> | (c & rest & -> & Hc)]; [done|].
  destruct (trimEnd_head c rest Hc) as (rest' & Hr).
  rewrite Hr. cbn [trimStart]. rewrite Hc, <- Hr. apply trimEnd_idem.
Qed.

(** ** The speech provider *)

Section Speech.

Variable muLawEncode : Z → Z.

(** X17.  [streamToText] always returns a transcript without surrounding
    white space and a truthy language code; a rejected request, a response
    without data, or one whose [transcript] and [text] are both falsy gives
    the empty transcript, on which the turn cycle ends without recording or
    sending anything. *)
Theorem streamToText_result (r : Settled Sarvam.SttData) :
  let res := Sarvam.streamToText r in
  trim (Sarvam.resultText res) = Sarvam.resultText res
  ∧ Sarvam.truthyField (Sarvam.languageCode res) = true
  ∧ ((r = Rejected ∨ r = Resolved None
      ∨ ∃ d, r = Resolved (Some d)
             ∧ Sarvam.truthyField (Sarvam.transcript d) = false
             ∧ Sarvam.truthyField (Sarvam.text d) = false) →
     Sarvam.resultText res = ""
     ∧ ∀ m tid o callSid sock lang,
         tasks m !! tid = Some (KStt o callSid sock) →
         let m' := settle muLawEncode m tid (AStt (Sarvam.resultText res) lang) in
         out m' = out m ∧ turnArrs m' = turnArrs m ∧ tasks m' = <[tid := KDone]> (tasks m)).
Proof.
  cbn zeta. split_and!.
  - destruct r as [[d|]|]; cbn; try done.
    destruct (Sarvam.orElse (Sarvam.orElse (Sarvam.transcript d) (Sarvam.text d))
                (Sarvam.Text "")); cbn; try done.
    apply trim_idem.
  - destruct r as [[d|]|]; cbn; try done.
    destruct (Sarvam.orElse (Sarvam.orElse (Sarvam.transcript d) (Sarvam.text d))
                (Sarvam.Text "")); cbn; try done.
    unfold Sarvam.orElse. by destruct (Sarvam.truthyField (Sarvam.language_code d)) eqn:E.
  - intros Hcase.
    assert (Hempty : Sarvam.resultText (Sarvam.streamToText r) = "").
    { destruct Hcase as [-> | [-> | (d & -> & Ht & Hx)]]; try done.
      cbn. unfold Sarvam.orElse. rewrite Ht, Hx. done. }
    split; [exact Hempty|].
    intros m tid o callSid sock lang Hk. rewrite Hempty. cbn zeta.
    unfold settle. rewrite Hk. unfold sttAnswered. cbn [bool_decide orb].
    rewrite bool_decide_eq_true_2 by done. cbn [orb].
    destruct (cycleFinally_frame o (Some tid) m) as (? & _ & ? & _ & _ & ? & _).
    done.
Qed.

End Speech.

Lemma languageCodeMap_entries name code :
  Sarvam.languageCodeMap !! name = Some code →
  (name, code) ∈ [("English", "en-IN"); ("Hindi", "hi-IN"); ("Tamil", "ta-IN");
                  ("Telugu", "te-IN"); ("Kannada", "kn-IN"); ("Marathi", "mr-IN");
                  ("Gujarati", "gu-IN")].
Proof. apply elem_of_list_to_map_2. Qed.

(** X18.  [textToStream] resolves the seven language names to their codes
    and every other string that is not a property of [Object.prototype] to
    [en-IN]; in particular each of the codes themselves resolves to [en-IN],
    and so does the language code of every synthesis request that
    [triggerAIResponse] makes, whatever the session's language. *)
Theorem synthesis_language_is_english_for_codes :
  (∀ name code, Sarvam.languageCodeMap !! name = Some code →
     Sarvam.targetLanguageCode name = Sarvam.Text code
     ∧ Sarvam.targetLanguageCode code = Sarvam.Text "en-IN")
  ∧ (∀ name, Sarvam.languageCodeMap !! name = None → name ∉ Sarvam.objectPrototypeKeys →
       Sarvam.targetLanguageCode name = Sarvam.Text "en-IN")
  ∧ (∀ o callSid sock tid replyText m e,
       e ∈ out (triggerAnswered o callSid sock tid replyText m) → e ∉ out m →
       ∃ languageCode, e = OTtsCall replyText languageCode
                       ∧ Sarvam.targetLanguageCode languageCode = Sarvam.Text "en-IN").
Proof.
  split_and!.
  - intros name code Hl. apply languageCodeMap_entries in Hl.
    repeat match goal with
           | H : _ ∈ _ :: _ |- _ => apply elem_of_cons in H as [[= -> ->]|H]
           end;
      try (split; vm_compute; reflexivity).
    by apply elem_of_nil in Hl.
  - intros name Hn Hp. unfold Sarvam.targetLanguageCode. rewrite Hn.
    by rewrite bool_decide_eq_false_2.
  - intros o callSid sock tid replyText m e Hin Hnot.
    unfold triggerAnswered in Hin.
    destruct (objs m !! o) as [s|]; [|done].
    unfold playAIResponse in Hin.
    destruct (getCall m callSid) as [[p ps]|];
      [|by rewrite (proj1 (playDone_frame Detached (Some tid) m)) in Hin].
    destruct (isEnding ps);
      [by rewrite (proj1 (playDone_frame Detached (Some tid) m)) in Hin|].
    unfold pushTurn in Hin.
    destruct (turnArrs m !! history ps);
      [|by rewrite (proj1 (playDone_frame Detached (Some tid) m)) in Hin].
    cbn in Hin. apply elem_of_app in Hin as [Hin | Hin]; [done|].
    apply list_elem_of_singleton in Hin as ->.
    eexists. split; [reflexivity|].
    by destruct (bool_decide (targetLanguage s = "English")).
Qed.

(** ** The report transcript *)

Lemma hasLineFeed_append (a b : string) :
  hasLineFeed (String.append a b) = hasLineFeed a || hasLineFeed b.
Proof.
  induction a as [|c a IH]; [done|].
  change (String c a +:+ b) with (String c (a +:+ b)).
  cbn [hasLineFeed]. rewrite IH. by rewrite orb_assoc.
Qed.

(** X19.  The transcript that [generateTestReport] sends is one line: turns
    are joined by a backslash and the letter n, so the text has no line feed
    unless the content of a turn has one. *)
Theorem transcriptText_is_one_line (chatHistory : list Turn) :
  Forall (λ t, hasLineFeed (content t) = false) chatHistory →
  hasLineFeed (transcriptText chatHistory) = false.
Proof.
  unfold transcriptText. induction 1 as [|t l Ht Hl IH]; [done|].
  assert (Hline : hasLineFeed (transcriptLine t) = false).
  { unfold transcriptLine. rewrite !hasLineFeed_append, Ht. by destruct (role t). }
  cbn [fmap list_fmap join]. destruct l as [|t' l']; [exact Hline|].
  change (hasLineFeed
            (String.append (transcriptLine t)
               (String.append transcriptSeparator (join transcriptSeparator (transcriptLine <$> t' :: l'))))
          = false).
  rewrite !hasLineFeed_append, Hline, IH. done.
Qed.

(** ** The dialer *)

(** X20.  The dialer's number normalisation never yields a number that
    starts with 0; a leading 0 is replaced by +91; a ten-character number
    without one gets +91 prepended, so that both spellings of a local number
    give the same thirteen characters and normalising again changes nothing;
    any other number is left as it is. *)
Theorem targetBotNumber_normalised (number : string) :
  (∀ rest, targetBotNumber number ≠ String "0" rest)
  ∧ (∀ rest, number = String "0" rest → targetBotNumber number = String.append "+91" rest)
  ∧ (String.length number = 10%nat → (∀ rest, number ≠ String "0" rest) →
       targetBotNumber number = String.append "+91" number
       ∧ targetBotNumber (String "0" number) = targetBotNumber number
       ∧ String.length (targetBotNumber number) = 13%nat
       ∧ targetBotNumber (targetBotNumber number) = targetBotNumber number)
  ∧ (String.length number ≠ 10%nat → (∀ rest, number ≠ String "0" rest) →
       targetBotNumber number = number).
Proof.
  assert (Hnot0 : (∀ rest, number ≠ String "0" rest) →
            targetBotNumber number
            = if (String.length number =? 10)%nat then String.append "+91" number else number).
  { intros Hn. unfold targetBotNumber. destruct number as [|c rest]; [done|].
    destruct (Ascii.ascii_dec c "0") as [->|Hc]; [by destruct (Hn rest)|].
    destruct c as [[] [] [] [] [] [] [] []]; try done. }
  split_and!.
  - intros rest Heq.
    destruct number as [|c r]; [done|].
    destruct (Ascii.ascii_dec c "0") as [->|Hc]; [done|].
    rewrite Hnot0 in Heq by (intros r' [= ? ?]; done).
    destruct (String.length (String c r) =? 10)%nat; [done|]. by injection Heq.
  - by intros rest ->.
  - intros Hlen Hn. rewrite (Hnot0 Hn), Hlen. cbn [Nat.eqb].
    change ("+91" +:+ number) with (String "+" (String "9" (String "1" number))).
    split_and!; try done.
    + cbn [String.length]. by rewrite Hlen.
    + unfold targetBotNumber. cbn [String.length]. by rewrite Hlen.
  - intros Hlen Hn. rewrite (Hnot0 Hn).
    by destruct (Nat.eqb_spec (String.length number) 10).
Qed.

(** ** After the tester has spoken *)

Lemma isQuiet_not_loud rms : isQuiet rms = true → isLoud rms = false.
Proof. destruct rms; cbn; [done|]. by intros ->. Qed.

(** X13.  [playAIResponse] marks the session as having heard speech: on a
    registered session that is not ending it records the reply as an
    assistant turn, requests its synthesis and sets [hasSpoken], so that the
    next quiet frame arms the boundary timer if no handle is stored, whether
    or not the bot has spoken. *)
Theorem reply_marks_speech (m : Manager) (callSid replyText : string) (sock : WsId)
    (languageCode : string) (aft : After) (slot : option TaskId) (p : Loc)
    (s : CallState) (h : list Turn) (buf : list Chunk) (chunk : Chunk) (rms : JsNum) :
  getCall m callSid = Some (p, s) →
  isEnding s = false →
  historyOf m s = Some h →
  bufferOf m s = Some buf →
  let m1 := playAIResponse m callSid replyText sock languageCode aft slot in
  let m2 := handleIncomingAudio m1 callSid chunk sock rms in
  getCall m1 callSid = Some (p, set_hasSpoken true s)
  ∧ historyOf m1 s = Some (h ++ [{| role := assistant; content := replyText |}])
  ∧ out m1 = out m ++ [OTtsCall replyText languageCode]
  ∧ (isQuiet rms = true → silenceTimer s = None →
       timers m2 = timers m1 ++
         [{| cb := SilenceCb p callSid sock; delay := 1200; pending := true |}]).
Proof.
  intros Hget Hend Hh Hbuf. cbn zeta.
  pose proof (proj1 (getCall_Some _ _ _ _) Hget) as [Hreg Hobj].
  pose proof (lookup_lt_Some _ _ _ Hobj) as Hlo.
  pose proof (lookup_lt_Some _ _ _ Hh) as Hlh.
  unfold playAIResponse. rewrite Hget, Hend. unfold pushTurn.
  unfold historyOf in Hh. rewrite Hh.
  set (m1 := park slot _ _).
  assert (Hget1 : getCall m1 callSid = Some (p, set_hasSpoken true s)).
  { apply getCall_Some. subst m1. destruct slot; cbn; split; try done;
      by apply list_lookup_insert_eq. }
  assert (Hbuf1 : bufferOf m1 (set_hasSpoken true s) = Some buf).
  { subst m1. unfold bufferOf in *. by destruct slot. }
  split_and!.
  - exact Hget1.
  - subst m1. unfold historyOf. destruct slot; cbn; by apply list_lookup_insert_eq.
  - subst m1. by destruct slot.
  - intros Hq Hst.
    destruct (handleIncomingAudio_spec m1 callSid chunk sock rms p _ buf Hget1 Hbuf1)
      as (s' & _ & _ & _ & _ & Hgate & _).
    rewrite (isQuiet_not_loud _ Hq), Hq in Hgate. cbn in Hgate. rewrite Hst in Hgate.
    cbn in Hgate. by destruct Hgate as [_ ->].
Qed.

(** ** Sessions that store no socket *)

Lemma nss_put o s s' m m' :
  noStoredSocket m → objs m' = objs m → objs m !! o = Some s → ws s' = ws s →
  noStoredSocket (putObj o s' m').
Proof.
  unfold noStoredSocket. intros Hn Ho Hs Hw. cbn. rewrite Ho.
  apply Forall_insert; [done|]. rewrite Hw. by eapply (Forall_lookup_1 _ _ _ _ Hn).
Qed.

Lemma nss_same m m' : noStoredSocket m → objs m' = objs m → noStoredSocket m'.
Proof. unfold noStoredSocket. by intros ? ->. Qed.

Lemma nss_alloc s s' o m m' :
  noStoredSocket m → objs m' = objs m → objs m !! o = Some s → ws s' = ws s →
  noStoredSocket (snd (allocObj s' m')).
Proof.
  unfold noStoredSocket. intros Hn Ho Hs Hw. cbn. rewrite Ho.
  apply Forall_app. split; [done|]. apply Forall_singleton.
  rewrite Hw. by eapply (Forall_lookup_1 _ _ _ _ Hn).
Qed.

Lemma resetWatchdog_nss m callSid ms reason :
  noStoredSocket m → noStoredSocket (resetWatchdog m callSid ms reason).
Proof.
  intros Hn. unfold resetWatchdog, setTimeout.
  destruct (getCall m callSid) as [[o s]|] eqn:Hget; [|done].
  apply getCall_Some in Hget as [_ Ho].
  eapply nss_put; [exact Hn | | exact Ho | done].
  by destruct (watchdogTimeout s).
Qed.

Lemma finish_nss slot m : noStoredSocket m → noStoredSocket (finish slot m).
Proof. intros Hn. eapply nss_same; [exact Hn | by destruct slot]. Qed.

Lemma cycleFinally_nss o slot m : noStoredSocket m → noStoredSocket (cycleFinally o slot m).
Proof.
  intros Hn. unfold cycleFinally. apply finish_nss.
  destruct (objs m !! o) as [s|] eqn:Ho; [|done].
  by eapply (nss_put o s _ m m Hn eq_refl Ho).
Qed.

Lemma playDone_nss aft slot m : noStoredSocket m → noStoredSocket (playDone aft slot m).
Proof. destruct aft; [apply cycleFinally_nss | apply finish_nss]. Qed.

Lemma pushTurn_objs h t m m' : pushTurn h t m = Some m' → objs m' = objs m.
Proof. unfold pushTurn. case_match; [|done]. by intros [= <-]. Qed.

Lemma playAIResponse_nss m callSid text sock lang aft slot :
  noStoredSocket m → noStoredSocket (playAIResponse m callSid text sock lang aft slot).
Proof.
  intros Hn. unfold playAIResponse.
  destruct (getCall m callSid) as [[p s]|] eqn:Hget; [|by apply playDone_nss].
  destruct (isEnding s); [by apply playDone_nss|].
  destruct (pushTurn (history s) _ m) as [m1|] eqn:Hp; [|by apply playDone_nss].
  apply getCall_Some in Hget as [_ Ho].
  eapply nss_same;
    [eapply (nss_put p s (set_hasSpoken true s) m m1 Hn (pushTurn_objs _ _ _ _ Hp) Ho); done|].
  by destruct slot.
Qed.

Lemma silenceExpired_nss o callSid sock m :
  noStoredSocket m → noStoredSocket (silenceExpired o callSid sock m).
Proof.
  intros Hn. unfold silenceExpired. destruct (objs m !! o) as [s|] eqn:Ho; [|done].
  destruct (frameArrs m !! audioBuffer (set_isProcessing true s)).
  - unfold allocFrames. cbn [fst snd].
    eapply nss_same; [|reflexivity].
    by eapply (nss_put o s _ m (set_frameArrs (frameArrs m ++ [[]]) m) Hn eq_refl Ho).
  - apply cycleFinally_nss. by eapply (nss_put o s _ m m Hn eq_refl Ho).
Qed.

Lemma dispatchReply_nss o callSid sock lang slot reply u m :
  noStoredSocket m → noStoredSocket (dispatchReply o callSid sock lang slot reply u m).
Proof.
  intros Hn. unfold dispatchReply.
  destruct (bool_decide (trim reply = "WAIT")).
  { apply cycleFinally_nss. by eapply nss_same. }
  destruct (bool_decide (trim reply = "END_CALL_LOOP")).
  - destruct (objs m !! u) as [us|]; [|by apply cycleFinally_nss].
    destruct (pushTurn (history us) loopTerminalTurn m) as [m1|] eqn:Hp;
      [|by apply cycleFinally_nss].
    apply cycleFinally_nss. eapply nss_same; [exact Hn|].
    rewrite <- (pushTurn_objs _ _ _ _ Hp). unfold wsClose. by case_match.
  - apply playAIResponse_nss. by eapply nss_same.
Qed.

Lemma sttAnswered_nss o callSid sock tid text lang m :
  noStoredSocket m → noStoredSocket (sttAnswered o callSid sock tid text lang m).
Proof.
  intros Hn. unfold sttAnswered. repeat case_match; try by apply cycleFinally_nss.
  by eapply nss_same.
Qed.

Lemma hallAnswered_nss o callSid sock tid transcript lang b m :
  noStoredSocket m → noStoredSocket (hallAnswered o callSid sock tid transcript lang b m).
Proof.
  intros Hn. unfold hallAnswered. destruct b; [by apply cycleFinally_nss|].
  destruct (objs m !! o) as [s|] eqn:Ho; [|by apply cycleFinally_nss].
  destruct (pushTurn (history s) _ m) as [m1|] eqn:Hp; [|by apply cycleFinally_nss].
  pose proof (pushTurn_objs _ _ _ _ Hp) as Hob.
  destruct (truthy (manualOverrideResponse m1)).
  - set (m2 := set_manualOverrideResponse None m1).
    pose proof (nss_alloc s (set_lastIntentProcessed true s) o m m2 Hn Hob Ho eq_refl) as Hn2.
    destruct (allocObj (set_lastIntentProcessed true s) m2) as [u m3] eqn:Ha.
    by apply dispatchReply_nss.
  - pose proof (nss_alloc s (set_otpCopy (Some (latestReceivedOTP m1)) s) o m m1 Hn Hob Ho eq_refl)
      as Hn2.
    destruct (allocObj (set_otpCopy (Some (latestReceivedOTP m1)) s) m1) as [c m3] eqn:Ha.
    by eapply nss_same.
Qed.

Lemma llmResult_nss c ans m reply u m' :
  noStoredSocket m → llmResult c ans m = Some (reply, u, m') → noStoredSocket m'.
Proof.
  intros Hn. unfold llmResult. destruct ans; try done.
  - destruct (objs m !! c) as [cs|] eqn:Hc; [|done].
    pose proof (nss_alloc cs (set_lastIntentProcessed true cs) c m m Hn eq_refl Hc eq_refl) as Hn2.
    destruct (allocObj (set_lastIntentProcessed true cs) m) as [u' m2].
    by intros [= _ _ <-].
  - by intros [= _ _ <-].
Qed.

Lemma triggerAIResponse_nss m callSid text sock :
  noStoredSocket m → noStoredSocket (triggerAIResponse m callSid text sock).
Proof.
  intros Hn. unfold triggerAIResponse.
  destruct (getCall m callSid) as [[o s]|] eqn:Hget; [|done].
  destruct (isEnding s); [done|].
  destruct (pushTurn (history s) _ m) as [m1|] eqn:Hp; [|done].
  apply getCall_Some in Hget as [_ Ho].
  pose proof (nss_alloc s (set_otpCopy (Some (latestReceivedOTP m1)) s) o m m1 Hn
                (pushTurn_objs _ _ _ _ Hp) Ho eq_refl) as Hn2.
  destruct (allocObj (set_otpCopy (Some (latestReceivedOTP m1)) s) m1) as [c m3].
  by eapply nss_same.
Qed.

Lemma triggerAnswered_nss o callSid sock tid reply m :
  noStoredSocket m → noStoredSocket (triggerAnswered o callSid sock tid reply m).
Proof.
  intros Hn. unfold triggerAnswered. case_match; [by apply playAIResponse_nss|].
  by apply finish_nss.
Qed.

Lemma endFinish_objs o callSid slot m : objs (endFinish o callSid slot m) = objs m.
Proof. unfold endFinish, wsClose. by repeat case_match; destruct slot. Qed.

Lemma endWaitLoop_objs o callSid n slot m : objs (endWaitLoop o callSid n slot m) = objs m.
Proof.
  unfold endWaitLoop. repeat case_match; rewrite ?endFinish_objs; by destruct slot.
Qed.

Lemma endCall_nss m callSid : noStoredSocket m → noStoredSocket (endCall m callSid).
Proof.
  intros Hn. unfold endCall.
  destruct (getCall m callSid) as [[o s]|] eqn:Hget; [|done].
  destruct (isEnding s); [done|].
  destruct (dropWatchdog_spec (set_isEnding true s) m)
    as (s' & m1 & -> & _ & _ & _ & _ & _ & _ & _ & Hws & _ & _ & Hsame & _).
  destruct Hsame as (_ & Hob & _).
  apply getCall_Some in Hget as [_ Ho].
  eapply nss_same; [|apply endWaitLoop_objs].
  by eapply (nss_put o s s' m m1 Hn Hob Ho).
Qed.

Lemma reportAnswered_nss o callSid tid r m :
  noStoredSocket m → noStoredSocket (reportAnswered o callSid tid r m).
Proof.
  intros Hn. eapply nss_same; [exact Hn|].
  unfold reportAnswered. by repeat case_match.
Qed.

Lemma watchdogExpired_nss o callSid reason m :
  noStoredSocket m → noStoredSocket (watchdogExpired o callSid reason m).
Proof.
  intros Hn. unfold watchdogExpired. destruct (objs m !! o) as [s|]; [|done].
  destruct (pushTurn (history s) _ m) as [m1|] eqn:Hp; [|done].
  apply endCall_nss. eapply nss_same; [exact Hn | by eapply pushTurn_objs].
Qed.

Lemma playFinished_nss callSid aft tid m :
  noStoredSocket m → noStoredSocket (playFinished callSid aft tid m).
Proof. intros Hn. by apply playDone_nss, resetWatchdog_nss. Qed.

Lemma paceLoop_nss fuel callSid sock arr offset aft tid m :
  noStoredSocket m → noStoredSocket (paceLoop fuel callSid sock arr offset aft tid m).
Proof.
  revert offset m. induction fuel as [|fuel IH]; intros offset m Hn; [done|].
  cbn [paceLoop].
  destruct (offset <? length arr)%nat; [|by apply playFinished_nss].
  destruct (isOpen m sock); [|by apply playFinished_nss].
  destruct (5 <=? offset / CHUNK_SIZE_BYTES)%nat.
  - by eapply nss_same.
  - apply IH. by eapply nss_same.
Qed.

Lemma handleIncomingAudio_nss m callSid chunk sock rms :
  noStoredSocket m → noStoredSocket (handleIncomingAudio m callSid chunk sock rms).
Proof.
  intros Hn. unfold handleIncomingAudio.
  destruct (getCall m callSid) as [[o s]|] eqn:Hget; [|done].
  apply getCall_Some in Hget as [_ Ho].
  cbn [audioBuffer set_packetCount].
  destruct (frameArrs m !! audioBuffer s) as [buf|] eqn:Hbuf.
  2:{ by eapply (nss_put o s _ m m Hn eq_refl Ho). }
  set (s0 := set_packetCount _ _).
  set (m0 := set_frameArrs _ m).
  assert (Hb0 : bufferOf m0 s0 = Some (buf ++ [chunk])).
  { apply list_lookup_insert_eq. by eapply lookup_lt_Some. }
  destruct (capBuffer_spec false 150 50 s0 m0 _ Hb0)
    as (s1 & m1 & -> & Hb1 & _ & _ & _ & _ & Hsame1 & Hcore1).
  destruct (capBuffer_spec true 1400 1400 s1 m1 _ Hb1)
    as (s2 & m2 & -> & _ & _ & _ & _ & _ & Hsame2 & Hcore2).
  destruct (loudnessGate_spec rms s2 m2)
    as (s3 & m3 & -> & _ & _ & _ & _ & _ & _ & Hsame3 & Hcore3).
  destruct (armBoundary_spec o callSid sock rms s3 m3)
    as (s4 & m4 & -> & _ & _ & _ & _ & _ & Hsame4 & Hcore4).
  pose proof (sameHeap_trans _ _ _ (sameHeap_trans _ _ _ Hsame1 Hsame2)
                (sameHeap_trans _ _ _ Hsame3 Hsame4)) as (_ & Hob & _).
  eapply (nss_put o s s4 m m4 Hn Hob Ho).
  unfold sameCore in *. subst s0. cbn in Hcore1.
  destruct Hcore1 as (_&_&_&_&?&_), Hcore2 as (_&_&_&_&?&_),
    Hcore3 as (_&_&_&_&?&_), Hcore4 as (_&_&_&_&?&_).
  congruence.
Qed.

Lemma startCall_nss m callSid rnd now :
  noStoredSocket m → noStoredSocket (startCall m callSid None rnd now).
Proof.
  intros Hn. unfold startCall.
  set (m1 := set_manualOverrideResponse None m).
  assert (Hn1 : noStoredSocket m1) by done.
  pose proof (resetWatchdog_nss m1 callSid 120000
                "Target bot unreachable (no connection) for 2 minutes." Hn1) as Hn2.
  unfold allocTurns, allocFrames, allocObj, noStoredSocket in *. cbn.
  apply Forall_app. split; [exact Hn2|]. by apply Forall_singleton.
Qed.

Section Bare.

Variable muLawEncode : Z → Z.

Lemma ttsAnswered_nss callSid sock aft tid samples m :
  noStoredSocket m → noStoredSocket (ttsAnswered muLawEncode callSid sock aft tid samples m).
Proof.
  intros Hn. unfold ttsAnswered. destruct samples; [|by apply playDone_nss].
  destruct (isOpen m sock); [by apply paceLoop_nss | by apply playDone_nss].
Qed.

Lemma fireTimer_nss m t : noStoredSocket m → noStoredSocket (fireTimer m t).
Proof.
  intros Hn. unfold fireTimer. destruct (timers m !! t) as [tm|]; [|done].
  destruct (pending tm); [|done].
  destruct (cb tm); [apply silenceExpired_nss | apply watchdogExpired_nss];
    by eapply nss_same.
Qed.

Lemma settle_nss m tid ans : noStoredSocket m → noStoredSocket (settle muLawEncode m tid ans).
Proof.
  intros Hn. unfold settle. destruct (tasks m !! tid) as [k|]; [|done].
  destruct k, ans; try done.
  - by apply sttAnswered_nss.
  - by apply hallAnswered_nss.
  - destruct (llmResult passed (ALlm replyText) m) as [[[r u] m1]|] eqn:Hr.
    + apply dispatchReply_nss. by eapply llmResult_nss.
    + by apply cycleFinally_nss.
  - destruct (llmResult passed ALlmError m) as [[[r u] m1]|] eqn:Hr.
    + apply dispatchReply_nss. by eapply llmResult_nss.
    + by apply cycleFinally_nss.
  - by apply triggerAnswered_nss.
  - by apply triggerAnswered_nss.
  - by apply ttsAnswered_nss.
  - by apply paceLoop_nss.
  - eapply nss_same; [exact Hn | apply endWaitLoop_objs].
  - by apply reportAnswered_nss.
  - by apply reportAnswered_nss.
Qed.

Lemma step_nss m e : startsBare e = true → noStoredSocket m → noStoredSocket (step muLawEncode m e).
Proof.
  intros He Hn. destruct e; cbn [step].
  - destruct sock; [done|]. by apply startCall_nss.
  - by apply handleIncomingAudio_nss.
  - by apply endCall_nss.
  - by apply triggerAIResponse_nss.
  - by apply playAIResponse_nss.
  - by apply resetWatchdog_nss.
  - by apply fireTimer_nss.
  - by apply settle_nss.
  - by destruct otp.
  - done.
  - done.
  - done.
Qed.

End Bare.

Lemma endFinish_bare o callSid slot m :
  noStoredSocket m → sockets (endFinish o callSid slot m) = sockets m.
Proof.
  intros Hn. unfold endFinish. destruct (objs m !! o) as [s|] eqn:Ho; [|by destruct slot].
  rewrite (Forall_lookup_1 _ _ _ _ Hn Ho).
  by repeat case_match; destruct slot.
Qed.

Lemma endWaitLoop_bare o callSid n slot m :
  noStoredSocket m → sockets (endWaitLoop o callSid n slot m) = sockets m.
Proof.
  intros Hn. unfold endWaitLoop. repeat case_match; rewrite ?endFinish_bare by done;
    by destruct slot.
Qed.

Lemma endCall_bare m callSid : noStoredSocket m → sockets (endCall m callSid) = sockets m.
Proof.
  intros Hn. unfold endCall.
  destruct (getCall m callSid) as [[o s]|] eqn:Hget; [|done].
  destruct (isEnding s); [done|].
  destruct (dropWatchdog_spec (set_isEnding true s) m)
    as (s' & m1 & -> & _ & _ & _ & _ & _ & _ & _ & Hws & _ & _ & Hsame & _).
  destruct Hsame as (_ & Hob & _ & _ & _ & Hso & _).
  apply getCall_Some in Hget as [_ Ho].
  rewrite endWaitLoop_bare; [by cbn|].
  by eapply (nss_put o s s' m m1 Hn Hob Ho).
Qed.

Section BareSessions.

Variable muLawEncode : Z → Z.

Lemma run_nss m evs :
  noStoredSocket m → Forall (λ e, startsBare e = true) evs →
  noStoredSocket (run muLawEncode m evs).
Proof.
  intros Hn Hall. revert m Hn. induction Hall as [|e evs He Hall IH]; intros m Hn; [done|].
  unfold run in *. cbn [foldl]. apply IH. by apply step_nss.
Qed.

(** X16.  Sessions that store no socket stay that way under every run of the
    engine in which no [startCall] is given one, and under the handlers of
    the stream server, which never gives one; in such a state [endCall], the
    resumption of its wait loop and the expiry of a watchdog leave every
    socket as it is: teardown never closes the transport. *)
Theorem stored_socket_close_never_runs (m : Manager) :
  noStoredSocket m →
  (∀ evs, Forall (λ e, startsBare e = true) evs → noStoredSocket (run muLawEncode m evs))
  ∧ (∀ c msg rnd now, noStoredSocket (onMessage c msg rnd now m).2)
  ∧ (∀ c, noStoredSocket (onClose c m))
  ∧ (∀ callSid, sockets (endCall m callSid) = sockets m)
  ∧ (∀ tid o callSid waitLoops,
       tasks m !! tid = Some (KEndWait o callSid waitLoops) →
       sockets (settle muLawEncode m tid ASleep) = sockets m)
  ∧ (∀ t o callSid reason ms,
       timers m !! t = Some {| cb := WatchdogCb o callSid reason; delay := ms;
                               pending := true |} →
       sockets (fireTimer m t) = sockets m).
Proof.
  intros Hn. split_and!.
  - intros evs Hall. by apply run_nss.
  - intros c msg rnd now. destruct msg as [streamSid [callSid|]| | |]; cbn [onMessage snd].
    + apply startCall_nss. by eapply nss_same.
    + by eapply nss_same.
    + by apply handleIncomingAudio_nss.
    + by apply endCall_nss.
    + done.
  - intros c. by apply endCall_nss.
  - intros callSid. by apply endCall_bare.
  - intros tid o callSid n Hk. unfold settle. rewrite Hk. by apply endWaitLoop_bare.
  - intros t o callSid reason ms Ht. unfold fireTimer. rewrite Ht. cbn [pending cb].
    unfold watchdogExpired. cbn [objs clearTimeout set_timers].
    destruct (objs m !! o) as [s|]; [|done].
    destruct (pushTurn (history s) _ _) as [m1|] eqn:Hp; [|done].
    rewrite endCall_bare.
    + unfold pushTurn in Hp. cbn in Hp. case_match; [|done]. by injection Hp as <-.
    + eapply nss_same; [exact Hn|]. by rewrite (pushTurn_objs _ _ _ _ Hp).
Qed.

End BareSessions.

Section Idle.

Variable muLawEncode : Z → Z.


(** X11.  When the generation call fails, the cycle speaks the fallback
    sentence: the object that was handed to the provider becomes the
    registered session (no new object is made), the fallback is recorded as
    an assistant turn and sent to synthesis in the language of the
    transcript, and the cycle awaits the synthesis. *)
Theorem generation_failure_speaks_fallback (m : Manager) (tid : TaskId) (o : Loc)
    (callSid : string) (sock : WsId) (lang : string) (c : Loc) (cs : CallState)
    (h : list Turn) :
  tasks m !! tid = Some (KLlm o callSid sock lang c) →
  objs m !! c = Some cs →
  isEnding cs = false →
  historyOf m cs = Some h →
  let m' := settle muLawEncode m tid ALlmError in
  getCall m' callSid = Some (c, set_hasSpoken true cs)
  ∧ length (objs m') = length (objs m)
  ∧ historyOf m' cs = Some (h ++ [{| role := assistant; content := llmFallbackReply |}])
  ∧ out m' = out m ++ [OTtsCall llmFallbackReply lang]
  ∧ tasks m' = <[tid := KTts callSid sock (AfterCycle o)]> (tasks m).
Proof.
  intros Hk Hc Hend Hh. cbn zeta.
  pose proof (lookup_lt_Some _ _ _ Hc) as Hlc.
  pose proof (lookup_lt_Some _ _ _ Hh) as Hlh.
  unfold settle. rewrite Hk. cbn [llmResult]. unfold dispatchReply.
  assert (Hw : bool_decide (trim llmFallbackReply = "WAIT") = false) by (by vm_compute).
  assert (He : bool_decide (trim llmFallbackReply = "END_CALL_LOOP") = false)
    by (by vm_compute).
  rewrite Hw, He.
  set (m1 := set_activeCalls _ m).
  assert (Hget : getCall m1 callSid = Some (c, cs)).
  { apply getCall_Some. split; [apply lookup_insert_eq | done]. }
  unfold playAIResponse. rewrite Hget, Hend. unfold pushTurn.
  unfold historyOf in *. cbn [turnArrs m1 set_activeCalls]. rewrite Hh.
  cbn. split_and!; try done.
  - apply getCall_Some. cbn. split; [apply lookup_insert_eq|].
    by apply list_lookup_insert_eq.
  - by rewrite length_insert.
  - by apply list_lookup_insert_eq.
Qed.

End Idle.

(** ** Recorded turns are never lost *)

Lemma turnsGrow_same m m' : turnArrs m' = turnArrs m → turnsGrow m m'.
Proof. intros Ht hl l Hl. exists []. by rewrite Ht, app_nil_r. Qed.

Lemma turnsGrow_refl m : turnsGrow m m.
Proof. by apply turnsGrow_same. Qed.

Lemma turnsGrow_trans m1 m2 m3 : turnsGrow m1 m2 → turnsGrow m2 m3 → turnsGrow m1 m3.
Proof.
  intros H12 H23 hl l Hl. destruct (H12 hl l Hl) as (r1 & H1).
  destruct (H23 hl _ H1) as (r2 & H2). exists (r1 ++ r2). by rewrite app_assoc.
Qed.

Lemma pushTurn_grows h t m m' : pushTurn h t m = Some m' → turnsGrow m m'.
Proof.
  unfold pushTurn. destruct (turnArrs m !! h) as [l0|] eqn:Hh; [|done].
  intros [= <-] hl l Hl. cbn.
  destruct (decide (hl = h)) as [->|Hne].
  - exists [t]. rewrite list_lookup_insert_eq by (by eapply lookup_lt_Some).
    by pose proof (eq_trans (eq_sym Hl) Hh) as [= ->].
  - exists []. rewrite list_lookup_insert_ne by done. by rewrite app_nil_r.
Qed.

Lemma playAIResponse_grows m callSid text sock lang aft slot :
  turnsGrow m (playAIResponse m callSid text sock lang aft slot).
Proof.
  unfold playAIResponse.
  destruct (getCall m callSid) as [[p s]|];
    [|apply turnsGrow_same, (playDone_frame aft slot m)].
  destruct (isEnding s); [apply turnsGrow_same, (playDone_frame aft slot m)|].
  destruct (pushTurn (history s) _ m) as [m1|] eqn:Hp;
    [|apply turnsGrow_same, (playDone_frame aft slot m)].
  eapply turnsGrow_trans; [by eapply pushTurn_grows|].
  apply turnsGrow_same. by destruct slot.
Qed.

Lemma cycleFinally_grows o slot m : turnsGrow m (cycleFinally o slot m).
Proof. apply turnsGrow_same, (cycleFinally_frame o slot m). Qed.

Lemma dispatchReply_grows o callSid sock lang slot reply u m :
  turnsGrow m (dispatchReply o callSid sock lang slot reply u m).
Proof.
  unfold dispatchReply.
  destruct (bool_decide (trim reply = "WAIT")).
  { eapply turnsGrow_trans; [|apply cycleFinally_grows]. by apply turnsGrow_same. }
  destruct (bool_decide (trim reply = "END_CALL_LOOP")).
  - destruct (objs m !! u) as [us|]; [|apply cycleFinally_grows].
    destruct (pushTurn (history us) loopTerminalTurn m) as [m1|] eqn:Hp;
      [|apply cycleFinally_grows].
    eapply turnsGrow_trans; [by eapply pushTurn_grows|].
    eapply turnsGrow_trans; [|apply cycleFinally_grows].
    apply turnsGrow_same. unfold wsClose. by case_match.
  - eapply turnsGrow_trans; [|apply playAIResponse_grows]. by apply turnsGrow_same.
Qed.

Lemma hallAnswered_grows o callSid sock tid transcript lang b m :
  turnsGrow m (hallAnswered o callSid sock tid transcript lang b m).
Proof.
  unfold hallAnswered. destruct b; [apply cycleFinally_grows|].
  destruct (objs m !! o) as [s|]; [|apply cycleFinally_grows].
  destruct (pushTurn (history s) _ m) as [m1|] eqn:Hp; [|apply cycleFinally_grows].
  eapply turnsGrow_trans; [by eapply pushTurn_grows|].
  destruct (truthy (manualOverrideResponse m1)).
  - unfold allocObj. cbn [fst snd].
    eapply turnsGrow_trans; [|apply dispatchReply_grows]. by apply turnsGrow_same.
  - by apply turnsGrow_same.
Qed.

Lemma llmResult_turnArrs c ans m reply u m' :
  llmResult c ans m = Some (reply, u, m') → turnArrs m' = turnArrs m.
Proof.
  unfold llmResult, allocObj. destruct ans; try done.
  - destruct (objs m !! c); [|done]. by intros [= _ _ <-].
  - by intros [= _ _ <-].
Qed.

Lemma triggerAIResponse_grows m callSid text sock :
  turnsGrow m (triggerAIResponse m callSid text sock).
Proof.
  unfold triggerAIResponse.
  destruct (getCall m callSid) as [[o s]|]; [|apply turnsGrow_refl].
  destruct (isEnding s); [apply turnsGrow_refl|].
  destruct (pushTurn (history s) _ m) as [m1|] eqn:Hp; [|apply turnsGrow_refl].
  eapply turnsGrow_trans; [by eapply pushTurn_grows|]. by apply turnsGrow_same.
Qed.

Lemma triggerAnswered_grows o callSid sock tid reply m :
  turnsGrow m (triggerAnswered o callSid sock tid reply m).
Proof.
  unfold triggerAnswered. case_match; [apply playAIResponse_grows|].
  by apply turnsGrow_same.
Qed.

Lemma watchdogExpired_grows o callSid reason m :
  turnsGrow m (watchdogExpired o callSid reason m).
Proof.
  unfold watchdogExpired. destruct (objs m !! o) as [s|]; [|apply turnsGrow_refl].
  destruct (pushTurn (history s) _ m) as [m1|] eqn:Hp; [|apply turnsGrow_refl].
  eapply turnsGrow_trans; [by eapply pushTurn_grows|].
  apply turnsGrow_same, endCall_turnArrs.
Qed.

Lemma silenceExpired_turnArrs o callSid sock m :
  turnArrs (silenceExpired o callSid sock m) = turnArrs m.
Proof.
  unfold silenceExpired. destruct (objs m !! o) as [s|]; [|done].
  destruct (frameArrs m !! audioBuffer (set_isProcessing true s)); [done|].
  by rewrite (proj1 (proj2 (proj2 (cycleFinally_frame o None _)))).
Qed.

Lemma paceLoop_turnArrs fuel callSid sock arr offset aft tid m :
  turnArrs (paceLoop fuel callSid sock arr offset aft tid m) = turnArrs m.
Proof.
  revert offset m. induction fuel as [|fuel IH]; intros offset m; [done|].
  cbn [paceLoop].
  assert (Hf : turnArrs (playFinished callSid aft tid m) = turnArrs m)
    by apply (playFinished_spec callSid aft tid m).
  destruct (offset <? length arr)%nat; [|done].
  destruct (isOpen m sock); [|done].
  destruct (5 <=? offset / CHUNK_SIZE_BYTES)%nat; [done|]. by rewrite IH.
Qed.

Lemma handleIncomingAudio_turnArrs m callSid chunk sock rms :
  turnArrs (handleIncomingAudio m callSid chunk sock rms) = turnArrs m.
Proof.
  unfold handleIncomingAudio.
  destruct (getCall m callSid) as [[o s]|] eqn:Hget; [|done].
  cbn [audioBuffer set_packetCount].
  destruct (frameArrs m !! audioBuffer s) as [buf|] eqn:Hbuf; [|done].
  set (s0 := set_packetCount _ _).
  set (m0 := set_frameArrs _ m).
  assert (Hb0 : bufferOf m0 s0 = Some (buf ++ [chunk])).
  { apply list_lookup_insert_eq. by eapply lookup_lt_Some. }
  destruct (capBuffer_spec false 150 50 s0 m0 _ Hb0)
    as (s1 & m1 & -> & Hb1 & _ & _ & _ & _ & Hsame1 & _).
  destruct (capBuffer_spec true 1400 1400 s1 m1 _ Hb1)
    as (s2 & m2 & -> & _ & _ & _ & _ & _ & Hsame2 & _).
  destruct (loudnessGate_spec rms s2 m2)
    as (s3 & m3 & -> & _ & _ & _ & _ & _ & _ & Hsame3 & _).
  destruct (armBoundary_spec o callSid sock rms s3 m3)
    as (s4 & m4 & -> & _ & _ & _ & _ & _ & Hsame4 & _).
  pose proof (sameHeap_trans _ _ _ (sameHeap_trans _ _ _ Hsame1 Hsame2)
                (sameHeap_trans _ _ _ Hsame3 Hsame4)) as (_ & _ & Htu & _).
  cbn. by rewrite Htu.
Qed.

Lemma startCall_grows m callSid sock rnd now : turnsGrow m (startCall m callSid sock rnd now).
Proof.
  unfold startCall. set (m1 := set_manualOverrideResponse None m).
  intros hl l Hl. exists []. rewrite app_nil_r.
  unfold allocTurns, allocFrames, allocObj. cbn.
  destruct (resetWatchdog_frame m1 callSid 120000
              "Target bot unreachable (no connection) for 2 minutes.")
    as (_ & _ & Htu & _).
  rewrite Htu. apply lookup_app_l_Some. exact Hl.
Qed.

Section Turns.

Variable muLawEncode : Z → Z.

Lemma fireTimer_grows m t : turnsGrow m (fireTimer m t).
Proof.
  unfold fireTimer. destruct (timers m !! t) as [tm|]; [|apply turnsGrow_refl].
  destruct (pending tm); [|apply turnsGrow_refl].
  destruct (cb tm).
  - apply turnsGrow_same. by rewrite silenceExpired_turnArrs.
  - eapply turnsGrow_trans; [|apply watchdogExpired_grows]. by apply turnsGrow_same.
Qed.

Lemma settle_grows m tid ans : turnsGrow m (settle muLawEncode m tid ans).
Proof.
  unfold settle. destruct (tasks m !! tid) as [k|]; [|apply turnsGrow_refl].
  destruct k, ans; try apply turnsGrow_refl.
  - unfold sttAnswered. repeat case_match; try apply cycleFinally_grows.
    by apply turnsGrow_same.
  - apply hallAnswered_grows.
  - destruct (llmResult passed (ALlm replyText) m) as [[[r u] m1]|] eqn:Hr;
      [|apply cycleFinally_grows].
    eapply turnsGrow_trans; [|apply dispatchReply_grows].
    apply turnsGrow_same. by eapply llmResult_turnArrs.
  - destruct (llmResult passed ALlmError m) as [[[r u] m1]|] eqn:Hr;
      [|apply cycleFinally_grows].
    eapply turnsGrow_trans; [|apply dispatchReply_grows].
    apply turnsGrow_same. by eapply llmResult_turnArrs.
  - apply triggerAnswered_grows.
  - apply triggerAnswered_grows.
  - apply turnsGrow_same. unfold ttsAnswered.
    destruct samples; [|apply (playDone_frame aft (Some tid) m)].
    destruct (isOpen m sock); [apply paceLoop_turnArrs|apply (playDone_frame aft (Some tid) m)].
  - apply turnsGrow_same, paceLoop_turnArrs.
  - apply turnsGrow_same, endWaitLoop_turnArrs.
  - apply turnsGrow_same. unfold reportAnswered. by repeat case_match.
  - apply turnsGrow_same. unfold reportAnswered. by repeat case_match.
Qed.

Lemma step_grows m e : turnsGrow m (step muLawEncode m e).
Proof.
  destruct e; cbn [step].
  - apply startCall_grows.
  - apply turnsGrow_same, handleIncomingAudio_turnArrs.
  - apply turnsGrow_same, endCall_turnArrs.
  - apply triggerAIResponse_grows.
  - apply playAIResponse_grows.
  - apply turnsGrow_same, (resetWatchdog_frame m callSid ms reason).
  - apply fireTimer_grows.
  - apply settle_grows.
  - apply turnsGrow_same. by destruct otp.
  - by apply turnsGrow_same.
  - by apply turnsGrow_same.
  - by apply turnsGrow_same.
Qed.

(** X23.  Recorded turns are never lost: whatever events follow, every turn
    array keeps the turns it has, in their order, and only gains turns after
    them. *)
Theorem history_is_append_only (m : Manager) (evs : list Event) (hl : Loc) (l : list Turn) :
  turnArrs m !! hl = Some l →
  ∃ rest, turnArrs (run muLawEncode m evs) !! hl = Some (l ++ rest).
Proof.
  revert m l. induction evs as [|e evs IH]; intros m l Hl.
  { exists []. by rewrite app_nil_r. }
  unfold run in *. cbn [foldl].
  destruct (step_grows m e hl l Hl) as (r1 & H1).
  destruct (IH _ _ H1) as (r2 & H2). exists (r1 ++ r2). by rewrite app_assoc.
Qed.

(** ** The filter fails open *)

(** X24.  The filter fails open: for a transcript of at least two
    characters after trimming, every outcome of the filter's request other
    than an object whose [isHallucinated] is exactly [true] (a rejected
    request, a response without a parsable object, any other value of the
    field) counts as real speech, and the cycle records the transcript as a
    user turn. *)
Theorem filter_fails_open (m : Manager) (tid : TaskId) (o : Loc) (callSid : string)
    (sock : WsId) (transcript lang : string) (s : CallState) (h : list Turn)
    (r : Settled Parsed) :
  tasks m !! tid = Some (KHall o callSid sock transcript lang) →
  objs m !! o = Some s →
  historyOf m s = Some h →
  (2 ≤ String.length (trim transcript))%nat →
  r ≠ Resolved (Some (PObject (JBool true))) →
  isHallucination transcript r = false
  ∧ ∃ rest, turnArrs (settle muLawEncode m tid (AHall (isHallucination transcript r)))
              !! history s
            = Some (h ++ {| role := user; content := transcript |} :: rest).
Proof.
  intros Hk Ho Hh Hlen Hr.
  assert (Hv : isHallucination transcript r = false).
  { unfold isHallucination.
    destruct (Nat.ltb_spec (String.length (trim transcript)) 2) as [Hlt|_]; [lia|].
    rewrite orb_false_r.
    destruct transcript as [|c rest]; [cbn in Hlen; lia|].
    rewrite bool_decide_eq_false_2 by done.
    destruct r as [[[| |[|[]|]]|]|]; try done. }
  split; [exact Hv|]. rewrite Hv.
  unfold settle. rewrite Hk. unfold hallAnswered. rewrite Ho.
  unfold historyOf in Hh. unfold pushTurn. rewrite Hh.
  set (m1 := set_turnArrs _ m).
  assert (H1 : turnArrs m1 !! history s
               = Some (h ++ [{| role := user; content := transcript |}])).
  { cbn. apply list_lookup_insert_eq. by eapply lookup_lt_Some. }
  assert (Hfin : ∀ m2, turnsGrow m1 m2 →
            ∃ rest, turnArrs m2 !! history s
                    = Some (h ++ {| role := user; content := transcript |} :: rest)).
  { intros m2 Hg. destruct (Hg _ _ H1) as (rest & H2). exists rest.
    etrans; [exact H2|]. by rewrite <- app_assoc. }
  destruct (truthy (manualOverrideResponse m1)).
  - unfold allocObj. cbn [fst snd]. apply Hfin.
    eapply turnsGrow_trans; [|apply dispatchReply_grows]. by apply turnsGrow_same.
  - apply Hfin. by apply turnsGrow_same.
Qed.

End Turns.

Lemma history_is_append_only_witness :
  ∃ rest, turnArrs (run lowByte (run lowByte newManager toGeneration)
                      [EvSettle 0 (ALlm "I want to book."); EvEndCall "CA1"]) !! 0%nat
          = Some ([{| role := user; content := "Hello, how can I help you?" |}] ++ rest).
Proof.
  apply (history_is_append_only lowByte (run lowByte newManager toGeneration)).
  vm_compute. reflexivity.
Defined.

Lemma filter_fails_open_witness :
  isHallucination "Hello, how can I help you?" Rejected = false
  ∧ ∃ rest, turnArrs (settle lowByte (run lowByte newManager toFilter) 0
                        (AHall (isHallucination "Hello, how can I help you?" Rejected)))
              !! 0%nat
            = Some ([] ++ {| role := user; content := "Hello, how can I help you?" |}
                       :: rest).
Proof.
  edestruct (filter_fails_open lowByte (run lowByte newManager toFilter) 0 0 "CA1" 0
               "Hello, how can I help you?" "en-IN") as (Hv & Hrest).
  - vm_compute. reflexivity.
  - vm_compute. reflexivity.
  - vm_compute. reflexivity.
  - vm_compute. lia.
  - instantiate (1 := Rejected). discriminate.
  - split; [exact Hv | exact Hrest].
Defined.

(** ** A call keeps its session *)

Lemma sameSession_refl s : sameSession s s.
Proof. by unfold sameSession. Qed.

Lemma sameSession_trans s1 s2 s3 : sameSession s1 s2 → sameSession s2 s3 → sameSession s1 s3.
Proof.
  unfold sameSession. intros (?&?&?&?&?&?) (?&?&?&?&?&?). split_and!; congruence.
Qed.

Lemma ofSession_insert s0 ob o p s s' :
  ob !! p = Some s → sameSession s s' → ofSession s0 ob o → ofSession s0 (<[p := s']> ob) o.
Proof.
  intros Hp Hs (so & Ho & Hso). destruct (decide (o = p)) as [->|Hne].
  - exists s'. split; [apply list_lookup_insert_eq; by eapply lookup_lt_Some|].
    pose proof (eq_trans (eq_sym Ho) Hp) as [= ->]. by eapply sameSession_trans.
  - exists so. split; [|done]. by rewrite list_lookup_insert_ne.
Qed.

Lemma ofSession_app s0 ob o l : ofSession s0 ob o → ofSession s0 (ob ++ l) o.
Proof. intros (so & Ho & Hso). exists so. split; [|done]. by apply lookup_app_l_Some. Qed.

Lemma ofSession_new s0 ob s : sameSession s0 s → ofSession s0 (ob ++ [s]) (length ob).
Proof.
  intros Hs. exists s. split; [|done]. rewrite lookup_app_r by done.
  by rewrite Nat.sub_diag.
Qed.

Section Tied.

Variable callSid : string.
Variable s0 : CallState.

Lemma cbTied_mono ob ob' c :
  (∀ o, ofSession s0 ob o → ofSession s0 ob' o) → cbTied callSid s0 ob c → cbTied callSid s0 ob' c.
Proof. intros Hm Hc He. apply Hm, Hc, He. Qed.

Lemma kontTied_mono ob ob' k :
  (∀ o, ofSession s0 ob o → ofSession s0 ob' o) →
  kontTied callSid s0 ob k → kontTied callSid s0 ob' k.
Proof.
  intros Hm Hk c os Hc He. eapply Forall_impl; [by eapply Hk|]. exact Hm.
Qed.

Lemma tied_objs m m' :
  tied callSid s0 m →
  (∀ o, ofSession s0 (objs m) o → ofSession s0 (objs m') o) →
  activeCalls m' = activeCalls m → timers m' = timers m → tasks m' = tasks m →
  tied callSid s0 m'.
Proof.
  intros (Hr & Ht & Hk) Hm Ha Hti Hta. unfold tied. rewrite Ha, Hti, Hta. split_and!.
  - intros o Ho. by apply Hm, Hr.
  - eapply Forall_impl; [exact Ht|]. intros tm. by apply cbTied_mono.
  - eapply Forall_impl; [exact Hk|]. intros k. by apply kontTied_mono.
Qed.

Lemma tied_same m m' :
  tied callSid s0 m → activeCalls m' = activeCalls m → objs m' = objs m →
  timers m' = timers m → tasks m' = tasks m → tied callSid s0 m'.
Proof. intros Ht Ha Ho Hti Hta. eapply tied_objs; try done. by rewrite Ho. Qed.

Lemma tied_putObj m o s s' :
  tied callSid s0 m → objs m !! o = Some s → sameSession s s' → tied callSid s0 (putObj o s' m).
Proof.
  intros Ht Ho Hs. eapply tied_objs; try done. intros p. cbn. by eapply ofSession_insert.
Qed.

Lemma tied_allocObj m s' : tied callSid s0 m → tied callSid s0 (allocObj s' m).2.
Proof.
  intros Ht. eapply tied_objs; try done. intros p. cbn. apply ofSession_app.
Qed.

Lemma tied_timer_new m c ms :
  tied callSid s0 m → cbTied callSid s0 (objs m) c → tied callSid s0 (setTimeout c ms m).2.
Proof.
  intros (Hr & Ht & Hk) Hc. unfold tied. cbn. split_and!; try done.
  apply Forall_app. split; [done|]. by apply Forall_singleton.
Qed.

Lemma tied_clearTimeout m t : tied callSid s0 m → tied callSid s0 (clearTimeout t m).
Proof.
  intros (Hr & Ht & Hk). unfold tied. cbn. split_and!; try done.
  apply Forall_alter; [done|]. by intros tm _ Htm.
Qed.

Lemma tied_park m slot k :
  tied callSid s0 m → kontTied callSid s0 (objs m) k → tied callSid s0 (park slot k m).
Proof.
  intros (Hr & Ht & Hk) Hkk. unfold tied. destruct slot; cbn; split_and!; try done.
  - by apply Forall_insert.
  - apply Forall_app. split; [done|]. by apply Forall_singleton.
Qed.

Lemma kontTied_done ob : kontTied callSid s0 ob KDone.
Proof. intros c os Hc. done. Qed.

Lemma tied_finish m slot : tied callSid s0 m → tied callSid s0 (finish slot m).
Proof.
  intros (Hr & Ht & Hk). unfold tied. destruct slot; cbn; split_and!; try done.
  apply Forall_insert; [done|]. apply kontTied_done.
Qed.

Lemma tied_register m c o :
  tied callSid s0 m → (c = callSid → ofSession s0 (objs m) o) →
  tied callSid s0 (set_activeCalls (<[c := o]> (activeCalls m)) m).
Proof.
  intros (Hr & Ht & Hk) Hc. unfold tied. cbn. split_and!; try done.
  intros p Hp. destruct (decide (c = callSid)) as [->|Hne].
  - rewrite lookup_insert_eq in Hp. injection Hp as <-. by apply Hc.
  - rewrite lookup_insert_ne in Hp by done. by apply Hr.
Qed.

Lemma tied_delete m c :
  tied callSid s0 m → tied callSid s0 (set_activeCalls (delete c (activeCalls m)) m).
Proof.
  intros (Hr & Ht & Hk). unfold tied. cbn. split_and!; try done.
  intros p Hp. apply lookup_delete_Some in Hp as [_ Hp]. by apply Hr.
Qed.

Lemma tied_getCall m c o s :
  tied callSid s0 m → getCall m c = Some (o, s) → c = callSid →
  ofSession s0 (objs m) o ∧ sameSession s0 s.
Proof.
  intros (Hr & _) Hg ->. apply getCall_Some in Hg as [Hreg Hobj].
  pose proof (Hr o Hreg) as Hof. split; [done|].
  destruct Hof as (s' & Hs' & Hsame).
  by pose proof (eq_trans (eq_sym Hobj) Hs') as [= ->].
Qed.

Lemma ofSession_lookup ob o s : ofSession s0 ob o → ob !! o = Some s → sameSession s0 s.
Proof.
  intros (s' & Hs' & Hsame) Hs. by pose proof (eq_trans (eq_sym Hs) Hs') as [= ->].
Qed.

Lemma tied_task m tid k :
  tied callSid s0 m → tasks m !! tid = Some k → kontTied callSid s0 (objs m) k.
Proof. intros (_ & _ & Hk) Hl. by eapply (Forall_lookup_1 _ _ _ _ Hk). Qed.

Lemma tied_timer m t tm :
  tied callSid s0 m → timers m !! t = Some tm → cbTied callSid s0 (objs m) (cb tm).
Proof. intros (_ & Ht & _) Hl. by eapply (Forall_lookup_1 _ _ _ _ Ht Hl). Qed.

Lemma ofSession_same ob o s s' :
  ofSession s0 ob o → ob !! o = Some s → sameSession s s' → sameSession s0 s'.
Proof.
  intros Hof Hs Hss. eapply sameSession_trans; [|exact Hss]. by eapply ofSession_lookup.
Qed.

Lemma resetWatchdog_tied m c ms reason :
  tied callSid s0 m → tied callSid s0 (resetWatchdog m c ms reason).
Proof.
  intros Ht. unfold resetWatchdog.
  destruct (getCall m c) as [[o s]|] eqn:Hget; [|done].
  pose proof (proj1 (getCall_Some _ _ _ _) Hget) as [_ Hobj].
  set (m1 := match watchdogTimeout s with Some t => clearTimeout t m | None => m end).
  assert (Ht1 : tied callSid s0 m1).
  { subst m1. destruct (watchdogTimeout s); [by apply tied_clearTimeout | done]. }
  assert (Hob1 : objs m1 = objs m) by (subst m1; by destruct (watchdogTimeout s)).
  pose proof (tied_timer_new m1 (WatchdogCb o c reason) ms Ht1) as Ht2.
  destruct (setTimeout (WatchdogCb o c reason) ms m1) as [t m2] eqn:Hst.
  assert (Hob2 : objs m2 = objs m) by (injection Hst as _ <-; done).
  eapply tied_putObj; [apply Ht2| |].
  - intros He. cbn in He. rewrite Hob1. by eapply tied_getCall.
  - by rewrite Hob2.
  - by unfold sameSession.
Qed.

Lemma startCall_tied m c sock rnd now :
  tied callSid s0 m → c ≠ callSid → tied callSid s0 (startCall m c sock rnd now).
Proof.
  intros Ht Hne. unfold startCall.
  set (m1 := set_manualOverrideResponse None m).
  assert (Ht1 : tied callSid s0 m1) by (by eapply tied_same).
  pose proof (resetWatchdog_tied m1 c 120000
                "Target bot unreachable (no connection) for 2 minutes." Ht1) as Ht2.
  unfold allocTurns, allocFrames. cbn [fst snd].
  set (m3 := set_frameArrs _ _).
  assert (Ht3 : tied callSid s0 m3) by (by eapply tied_same).
  match goal with
  | |- context [allocObj ?s ?mm] =>
      pose proof (tied_allocObj mm s Ht3) as Ht4; destruct (allocObj s mm) as [o m4]
  end.
  apply tied_register; [exact Ht4 | done].
Qed.

Lemma cycleFinally_tied o slot m : tied callSid s0 m → tied callSid s0 (cycleFinally o slot m).
Proof.
  intros Ht. unfold cycleFinally. apply tied_finish.
  destruct (objs m !! o) as [s|] eqn:Ho; [|done].
  eapply tied_putObj; [done | exact Ho | by unfold sameSession].
Qed.

Lemma playDone_tied aft slot m : tied callSid s0 m → tied callSid s0 (playDone aft slot m).
Proof. destruct aft; [apply cycleFinally_tied | apply tied_finish]. Qed.

Lemma pushTurn_tied h t m m' :
  pushTurn h t m = Some m' → tied callSid s0 m → tied callSid s0 m'.
Proof.
  unfold pushTurn. destruct (turnArrs m !! h); [|done]. intros [= <-] Ht.
  by eapply tied_same.
Qed.

Lemma silenceExpired_tied o c sock m :
  tied callSid s0 m → (c = callSid → ofSession s0 (objs m) o) →
  tied callSid s0 (silenceExpired o c sock m).
Proof.
  intros Ht Hc. unfold silenceExpired. destruct (objs m !! o) as [s|] eqn:Ho; [|done].
  destruct (frameArrs m !! audioBuffer (set_isProcessing true s)).
  - unfold allocFrames. cbn [fst snd].
    set (m1 := set_frameArrs _ m).
    assert (Ht1 : tied callSid s0 m1) by (by eapply tied_same).
    match goal with
    | |- context [putObj o ?s' m1] =>
        assert (Ht2 : tied callSid s0 (putObj o s' m1))
          by (eapply tied_putObj; [exact Ht1 | exact Ho | by unfold sameSession])
    end.
    apply tied_park; [by eapply tied_same|].
    intros c' os [= <- <-] He. apply Forall_singleton. cbn.
    eapply ofSession_insert; [exact Ho | by unfold sameSession | by apply Hc].
  - apply cycleFinally_tied.
    eapply tied_putObj; [done | exact Ho | by unfold sameSession].
Qed.

Lemma playAIResponse_tied m c text sock lang aft slot :
  tied callSid s0 m → kontTied callSid s0 (objs m) (KTts c sock aft) →
  tied callSid s0 (playAIResponse m c text sock lang aft slot).
Proof.
  intros Ht Hk. unfold playAIResponse.
  destruct (getCall m c) as [[p s]|] eqn:Hget; [|by apply playDone_tied].
  destruct (isEnding s); [by apply playDone_tied|].
  destruct (pushTurn (history s) _ m) as [m1|] eqn:Hp; [|by apply playDone_tied].
  pose proof (pushTurn_tied _ _ _ _ Hp Ht) as Ht1.
  pose proof (pushTurn_objs _ _ _ _ Hp) as Hob1.
  pose proof (proj1 (getCall_Some _ _ _ _) Hget) as [_ Hobj].
  assert (Ht2 : tied callSid s0 (putObj p (set_hasSpoken true s) m1)).
  { eapply tied_putObj; [exact Ht1 | by rewrite Hob1 | by unfold sameSession]. }
  apply tied_park; [by eapply tied_same|].
  eapply kontTied_mono; [|exact Hk]. intros q. cbn. rewrite Hob1.
  eapply ofSession_insert; [exact Hobj | by unfold sameSession].
Qed.

Lemma dispatchReply_tied o c sock lang slot reply u m :
  tied callSid s0 m →
  (c = callSid → ofSession s0 (objs m) o ∧ ofSession s0 (objs m) u) →
  tied callSid s0 (dispatchReply o c sock lang slot reply u m).
Proof.
  intros Ht Hc. unfold dispatchReply.
  assert (Hreg : tied callSid s0 (set_activeCalls (<[c := u]> (activeCalls m)) m)).
  { apply tied_register; [done|]. intros He. by apply Hc. }
  destruct (bool_decide (trim reply = "WAIT")); [by apply cycleFinally_tied|].
  destruct (bool_decide (trim reply = "END_CALL_LOOP")).
  - destruct (objs m !! u) as [us|]; [|by apply cycleFinally_tied].
    destruct (pushTurn (history us) loopTerminalTurn m) as [m1|] eqn:Hp;
      [|by apply cycleFinally_tied].
    pose proof (pushTurn_tied _ _ _ _ Hp Ht) as Ht1.
    pose proof (pushTurn_objs _ _ _ _ Hp) as Hob1.
    apply cycleFinally_tied.
    assert (Hreg1 : tied callSid s0 (set_activeCalls (<[c := u]> (activeCalls m1)) m1)).
    { apply tied_register; [done|]. intros He. rewrite Hob1. by apply Hc. }
    destruct (isOpen _ sock); [|done]. by eapply tied_same.
  - apply playAIResponse_tied; [done|].
    intros c' os [= <- <-] He. apply Forall_singleton. cbn. by apply Hc.
Qed.

Lemma endFinish_tied o c slot m :
  tied callSid s0 m → (c = callSid → ofSession s0 (objs m) o) →
  tied callSid s0 (endFinish o c slot m).
Proof.
  intros Ht Hc. unfold endFinish. destruct (objs m !! o) as [s|]; [|by apply tied_finish].
  set (m1 := match ws s with
             | Some w => if isOpen m w then wsClose w m else m
             | None => m
             end).
  assert (Ht1 : tied callSid s0 m1 ∧ objs m1 = objs m).
  { subst m1. destruct (ws s) as [w|]; [|done].
    destruct (isOpen m w); [|done]. split; [by eapply tied_same | done]. }
  destruct Ht1 as [Ht1 Hob1].
  destruct (turnArrs m1 !! history s) as [[|t l]|].
  - apply tied_finish. apply tied_delete. by eapply tied_same.
  - apply tied_park; [by eapply tied_same|].
    intros c' os [= <- <-] He. apply Forall_singleton. cbn. rewrite Hob1. by apply Hc.
  - apply tied_finish. apply tied_delete. by eapply tied_same.
Qed.

Lemma endWaitLoop_tied o c n slot m :
  tied callSid s0 m → (c = callSid → ofSession s0 (objs m) o) →
  tied callSid s0 (endWaitLoop o c n slot m).
Proof.
  intros Ht Hc. unfold endWaitLoop. destruct (objs m !! o) as [s|]; [|by apply tied_finish].
  destruct ((isProcessing s || isSet (silenceTimer s)) && (n <? 60)%nat).
  - apply tied_park; [done|].
    intros c' os [= <- <-] He. apply Forall_singleton. by apply Hc.
  - by apply endFinish_tied.
Qed.

Lemma endCall_tied m c : tied callSid s0 m → tied callSid s0 (endCall m c).
Proof.
  intros Ht. unfold endCall.
  destruct (getCall m c) as [[o s]|] eqn:Hget; [|done].
  destruct (isEnding s); [done|].
  pose proof (proj1 (getCall_Some _ _ _ _) Hget) as [_ Hobj].
  unfold dropWatchdog. cbn [watchdogTimeout set_isEnding].
  destruct (watchdogTimeout s) as [t|].
  - apply endWaitLoop_tied.
    + eapply tied_putObj; [by apply tied_clearTimeout | exact Hobj | by unfold sameSession].
    + intros He. cbn. eapply ofSession_insert; [exact Hobj | by unfold sameSession|].
      by eapply tied_getCall.
  - apply endWaitLoop_tied.
    + eapply tied_putObj; [done | exact Hobj | by unfold sameSession].
    + intros He. cbn. eapply ofSession_insert; [exact Hobj | by unfold sameSession|].
      by eapply tied_getCall.
Qed.

Lemma watchdogExpired_tied o c reason m :
  tied callSid s0 m → tied callSid s0 (watchdogExpired o c reason m).
Proof.
  intros Ht. unfold watchdogExpired. destruct (objs m !! o) as [s|]; [|done].
  destruct (pushTurn (history s) _ m) as [m1|] eqn:Hp; [|done].
  apply endCall_tied. by eapply pushTurn_tied.
Qed.

Lemma reportAnswered_tied o c tid r m :
  tied callSid s0 m → tied callSid s0 (reportAnswered o c tid r m).
Proof.
  intros Ht. unfold reportAnswered. destruct (objs m !! o) as [s|]; [|by apply tied_finish].
  apply tied_finish, tied_delete. destruct r; [by eapply tied_same | done].
Qed.

Lemma sttAnswered_tied o c sock tid text lang m :
  tied callSid s0 m → (c = callSid → ofSession s0 (objs m) o) →
  tied callSid s0 (sttAnswered o c sock tid text lang m).
Proof.
  intros Ht Hc. unfold sttAnswered.
  destruct (bool_decide (text = "") || (String.length (trim text) <? 2)%nat);
    [by apply cycleFinally_tied|].
  destruct (objs m !! o) as [s|]; [|by apply cycleFinally_tied].
  apply tied_park; [by eapply tied_same|].
  intros c' os [= <- <-] He. apply Forall_singleton. by apply Hc.
Qed.

Lemma hallAnswered_tied o c sock tid transcript lang b m :
  tied callSid s0 m → (c = callSid → ofSession s0 (objs m) o) →
  tied callSid s0 (hallAnswered o c sock tid transcript lang b m).
Proof.
  intros Ht Hc. unfold hallAnswered. destruct b; [by apply cycleFinally_tied|].
  destruct (objs m !! o) as [s|] eqn:Ho; [|by apply cycleFinally_tied].
  destruct (pushTurn (history s) _ m) as [m1|] eqn:Hp; [|by apply cycleFinally_tied].
  pose proof (pushTurn_tied _ _ _ _ Hp Ht) as Ht1.
  pose proof (pushTurn_objs _ _ _ _ Hp) as Hob1.
  destruct (truthy (manualOverrideResponse m1)).
  - unfold allocObj. cbn [fst snd].
    set (m2 := set_objs _ _).
    assert (Ht2 : tied callSid s0 m2).
    { eapply tied_objs; [exact Ht1| |done..]. intros p. cbn. apply ofSession_app. }
    apply dispatchReply_tied; [done|]. intros He. subst m2. cbn. rewrite Hob1. split.
    + by apply ofSession_app, Hc.
    + apply ofSession_new. eapply ofSession_same; [by apply Hc | exact Ho |].
      by unfold sameSession.
  - unfold allocObj. cbn [fst snd].
    set (m2 := set_objs _ _).
    assert (Ht2 : tied callSid s0 m2).
    { eapply tied_objs; [exact Ht1| |done..]. intros p. cbn. apply ofSession_app. }
    apply tied_park; [by eapply tied_same|].
    intros c' os [= <- <-] He. cbn. rewrite Hob1.
    apply Forall_cons. split; [by apply ofSession_app, Hc|].
    apply Forall_singleton.
    apply ofSession_new. eapply ofSession_same; [by apply Hc | exact Ho |].
    by unfold sameSession.
Qed.

Lemma llmResult_tied cc ans m reply u m' :
  llmResult cc ans m = Some (reply, u, m') →
  tied callSid s0 m →
  tied callSid s0 m'
  ∧ (∀ p, ofSession s0 (objs m) p → ofSession s0 (objs m') p)
  ∧ (ofSession s0 (objs m) cc → ofSession s0 (objs m') u).
Proof.
  unfold llmResult, allocObj. destruct ans; try done.
  - destruct (objs m !! cc) as [cs|] eqn:Hcc; [|done]. intros [= _ <- <-] Ht.
    split_and!.
    + eapply tied_objs; [exact Ht| |done..]. intros p. cbn. apply ofSession_app.
    + intros p. cbn. apply ofSession_app.
    + intros Hof. cbn. apply ofSession_new.
      eapply ofSession_same; [exact Hof | exact Hcc | by unfold sameSession].
  - intros [= _ <- <-] Ht. done.
Qed.

Lemma triggerAIResponse_tied m c text sock :
  tied callSid s0 m → tied callSid s0 (triggerAIResponse m c text sock).
Proof.
  intros Ht. unfold triggerAIResponse.
  destruct (getCall m c) as [[o s]|] eqn:Hget; [|done].
  destruct (isEnding s); [done|].
  destruct (pushTurn (history s) _ m) as [m1|] eqn:Hp; [|done].
  pose proof (pushTurn_tied _ _ _ _ Hp Ht) as Ht1.
  pose proof (pushTurn_objs _ _ _ _ Hp) as Hob1.
  unfold allocObj. cbn [fst snd].
  set (m2 := set_objs _ _).
  assert (Ht2 : tied callSid s0 m2).
  { eapply tied_objs; [exact Ht1| |done..]. intros p. cbn. apply ofSession_app. }
  apply tied_park; [by eapply tied_same|].
  intros c' os [= <- <-] He. cbn. rewrite Hob1. apply Forall_singleton.
  apply ofSession_app. by eapply tied_getCall.
Qed.

Lemma triggerAnswered_tied o c sock tid reply m :
  tied callSid s0 m → tied callSid s0 (triggerAnswered o c sock tid reply m).
Proof.
  intros Ht. unfold triggerAnswered. destruct (objs m !! o); [|by apply tied_finish].
  apply playAIResponse_tied; [done|]. intros c' os [= <- <-] He. constructor.
Qed.

Lemma playFinished_tied c aft tid m :
  tied callSid s0 m → tied callSid s0 (playFinished c aft tid m).
Proof. intros Ht. by apply playDone_tied, resetWatchdog_tied. Qed.

Lemma paceLoop_tied fuel c sock arr offset aft tid m :
  tied callSid s0 m → kontTied callSid s0 (objs m) (KTts c sock aft) →
  tied callSid s0 (paceLoop fuel c sock arr offset aft tid m).
Proof.
  revert offset m. induction fuel as [|fuel IH]; intros offset m Ht Hk; [done|].
  cbn [paceLoop].
  destruct (offset <? length arr)%nat; [|by apply playFinished_tied].
  destruct (isOpen m sock); [|by apply playFinished_tied].
  destruct (5 <=? offset / CHUNK_SIZE_BYTES)%nat.
  - apply tied_park; [by eapply tied_same|].
    intros c' os [= <- <-] He. by apply (Hk c _ eq_refl).
  - apply IH; [by eapply tied_same | done].
Qed.

Lemma handleIncomingAudio_tied m c chunk sock rms :
  tied callSid s0 m → tied callSid s0 (handleIncomingAudio m c chunk sock rms).
Proof.
  intros Ht. unfold handleIncomingAudio.
  destruct (getCall m c) as [[o s]|] eqn:Hget; [|done].
  pose proof (proj1 (getCall_Some _ _ _ _) Hget) as [_ Hobj].
  cbn [audioBuffer set_packetCount].
  destruct (frameArrs m !! audioBuffer s) as [buf|] eqn:Hbuf.
  2:{ eapply tied_putObj; [done | exact Hobj | by unfold sameSession]. }
  set (sa := set_packetCount _ _).
  set (ma := set_frameArrs _ m).
  assert (Hta : tied callSid s0 ma) by (by eapply tied_same).
  assert (Hsa : sameSession s sa) by (by unfold sameSession).
  (* the two caps *)
  assert (Hcap : ∀ spoken limit keep s1 m1,
            tied callSid s0 m1 → objs m1 = objs m → sameSession s s1 →
            ∃ s2 m2, capBuffer spoken limit keep (s1, m1) = (s2, m2)
                     ∧ tied callSid s0 m2 ∧ objs m2 = objs m ∧ sameSession s s2).
  { intros spoken limit keep s1 m1 Ht1 Hob1 Hs1. unfold capBuffer.
    destruct (frameArrs m1 !! audioBuffer s1) as [b1|]; [|by eexists _, _].
    destruct (eqb (hasSpoken s1) spoken && (limit <? length b1)%nat); [|by eexists _, _].
    unfold allocFrames. eexists _, _. split; [reflexivity|]. split_and!.
    - by eapply tied_same.
    - done.
    - unfold sameSession in *. cbn. done. }
  destruct (Hcap false 150%nat 50%nat sa ma Hta eq_refl Hsa) as (s1 & m1 & -> & Ht1 & Hob1 & Hs1).
  destruct (Hcap true 1400%nat 1400%nat s1 m1 Ht1 Hob1 Hs1) as (s2 & m2 & -> & Ht2 & Hob2 & Hs2).
  (* the loudness gate *)
  assert (Hgate : ∃ s3 m3, loudnessGate rms (s2, m2) = (s3, m3)
                           ∧ tied callSid s0 m3 ∧ objs m3 = objs m ∧ sameSession s s3).
  { unfold loudnessGate. destruct (isLoud rms); [|by eexists _, _].
    unfold dropSilenceTimer.
    destruct (silenceTimer s2) as [t|]; unfold dropWatchdog; cbn [watchdogTimeout set_silenceTimer].
    - destruct (watchdogTimeout s2) as [t'|]; eexists _, _; (split; [reflexivity|]);
        split_and!; try done; repeat apply tied_clearTimeout; try done;
        unfold sameSession in *; cbn; done.
    - destruct (watchdogTimeout s2) as [t'|]; eexists _, _; (split; [reflexivity|]);
        split_and!; try done; repeat apply tied_clearTimeout; try done;
        unfold sameSession in *; cbn; done. }
  destruct Hgate as (s3 & m3 & -> & Ht3 & Hob3 & Hs3).
  (* arming *)
  unfold armBoundary.
  destruct (isQuiet rms && hasSpoken s3 && negb (isSet (silenceTimer s3))).
  - pose proof (tied_timer_new m3 (SilenceCb o c sock) 1200 Ht3) as Ht4.
    destruct (setTimeout (SilenceCb o c sock) 1200 m3) as [t m4] eqn:Hst.
    assert (Hob4 : objs m4 = objs m) by (injection Hst as _ <-; done).
    eapply tied_putObj; [apply Ht4| |].
    + intros He. cbn in He. rewrite Hob3. by eapply tied_getCall.
    + by rewrite Hob4.
    + unfold sameSession in *. cbn. done.
  - eapply tied_putObj; [exact Ht3 | by rewrite Hob3 | done].
Qed.

End Tied.

Section Session.

Variable muLawEncode : Z → Z.
Variable callSid : string.
Variable s0 : CallState.

Lemma ttsAnswered_tied c sock aft tid samples m :
  tied callSid s0 m → kontTied callSid s0 (objs m) (KTts c sock aft) →
  tied callSid s0 (ttsAnswered muLawEncode c sock aft tid samples m).
Proof.
  intros Ht Hk. unfold ttsAnswered. destruct samples; [|by apply playDone_tied].
  destruct (isOpen m sock); [by apply paceLoop_tied | by apply playDone_tied].
Qed.

Lemma fireTimer_tied m t : tied callSid s0 m → tied callSid s0 (fireTimer m t).
Proof.
  intros Ht. unfold fireTimer. destruct (timers m !! t) as [tm|] eqn:Htm; [|done].
  destruct (pending tm); [|done].
  pose proof (tied_timer _ _ _ _ _ Ht Htm) as Hcb.
  destruct (cb tm) as [o c sock|o c reason].
  - apply silenceExpired_tied; [by apply tied_clearTimeout | exact Hcb].
  - by apply watchdogExpired_tied, tied_clearTimeout.
Qed.

Lemma settle_tied m tid ans :
  tied callSid s0 m → tied callSid s0 (settle muLawEncode m tid ans).
Proof.
  intros Ht. unfold settle. destruct (tasks m !! tid) as [k|] eqn:Hk; [|done].
  pose proof (tied_task _ _ _ _ _ Ht Hk) as Hkt.
  assert (Hone : ∀ o c, (∃ os, kontCall k = Some (c, o :: os)) →
            c = callSid → ofSession s0 (objs m) o).
  { intros o c [os Hkc] He. by pose proof (Hkt _ _ Hkc He) as [Ho _]%Forall_cons. }
  destruct k, ans; try done.
  - apply sttAnswered_tied; [done|]. apply Hone. by eexists.
  - apply hallAnswered_tied; [done|]. apply Hone. by eexists.
  - destruct (llmResult passed (ALlm replyText) m) as [[[r u] m1]|] eqn:Hr;
      [|by apply cycleFinally_tied].
    destruct (llmResult_tied _ _ _ _ _ _ _ _ Hr Ht) as (Ht1 & Hmono & Hu).
    apply dispatchReply_tied; [done|]. intros He.
    pose proof (Hkt _ _ eq_refl He) as [Ho [Hp _]%Forall_cons]%Forall_cons.
    split; [by apply Hmono | by apply Hu].
  - destruct (llmResult passed ALlmError m) as [[[r u] m1]|] eqn:Hr;
      [|by apply cycleFinally_tied].
    destruct (llmResult_tied _ _ _ _ _ _ _ _ Hr Ht) as (Ht1 & Hmono & Hu).
    apply dispatchReply_tied; [done|]. intros He.
    pose proof (Hkt _ _ eq_refl He) as [Ho [Hp _]%Forall_cons]%Forall_cons.
    split; [by apply Hmono | by apply Hu].
  - by apply triggerAnswered_tied.
  - by apply triggerAnswered_tied.
  - by apply ttsAnswered_tied.
  - apply paceLoop_tied; [done|]. intros c os [= <- <-] He. by apply (Hkt _ _ eq_refl).
  - apply endWaitLoop_tied; [done|]. apply Hone. by eexists.
  - by apply reportAnswered_tied.
  - by apply reportAnswered_tied.
Qed.

Lemma step_tied m e :
  notStartOf callSid e = true → tied callSid s0 m → tied callSid s0 (step muLawEncode m e).
Proof.
  intros He Ht. destruct e; cbn [step].
  - apply startCall_tied; [done|]. cbn in He.
    apply negb_true_iff, bool_decide_eq_false in He. done.
  - by apply handleIncomingAudio_tied.
  - by apply endCall_tied.
  - by apply triggerAIResponse_tied.
  - apply playAIResponse_tied; [done|]. intros c os [= <- <-] _. constructor.
  - by apply resetWatchdog_tied.
  - by apply fireTimer_tied.
  - by apply settle_tied.
  - destruct otp; [done | by eapply tied_same].
  - by eapply tied_same.
  - by eapply tied_same.
  - by eapply tied_same.
Qed.

Lemma run_tied m evs :
  Forall (λ e, notStartOf callSid e = true) evs →
  tied callSid s0 m → tied callSid s0 (run muLawEncode m evs).
Proof.
  revert m. induction evs as [|e evs IH]; intros m Hev Ht; [done|].
  apply Forall_cons in Hev as [He Hev]. unfold run in *. cbn [foldl].
  apply IH; [done|]. by apply step_tied.
Qed.

End Session.

Lemma startCall_ties m callSid sock rnd now :
  unheardOf callSid m →
  ∃ o s, getCall (startCall m callSid sock rnd now) callSid = Some (o, s)
         ∧ ws s = sock ∧ startTime s = now
         ∧ tied callSid s (startCall m callSid sock rnd now).
Proof.
  intros (Habs & Htm & Hta). unfold startCall.
  set (m1 := set_manualOverrideResponse None m).
  assert (Hr : resetWatchdog m1 callSid 120000
                 "Target bot unreachable (no connection) for 2 minutes." = m1).
  { unfold resetWatchdog. by rewrite getCall_None. }
  rewrite Hr. unfold allocTurns, allocFrames, allocObj. cbn [fst snd].
  eexists _, _. split; [|split_and!].
  - apply getCall_Some. cbn. split; [apply lookup_insert_eq|].
    rewrite lookup_app_r by done. by rewrite Nat.sub_diag.
  - done.
  - done.
  - split_and!; cbn.
    + intros o. rewrite lookup_insert_eq. intros [= <-].
      apply ofSession_new, sameSession_refl.
    + eapply Forall_impl; [exact Htm|]. intros tm Hne He. done.
    + eapply Forall_impl; [exact Hta|]. intros k Hne c os Hk He.
      by destruct (Hne _ _ Hk).
Qed.

Section Keeps.

Variable muLawEncode : Z → Z.

(** ** A call keeps its session *)

(** X25.  A call keeps its session.  [startCall] for a call identifier
    that no registry entry, timer or parked function refers to registers a
    session with the socket and the start time it was given; as long as
    [startCall] is not run for that identifier again, whatever else
    happens, the registry entry, the timers and the parked functions of the
    call refer only to objects with the history array, scenario, language,
    symptom, start time and socket of that session, although the cycles
    replace the registered object by copies. *)
Theorem call_keeps_its_session (m : Manager) (callSid : string) (sock : option WsId)
    (rnd : nat) (now : Z) (evs : list Event) :
  unheardOf callSid m →
  Forall (λ e, notStartOf callSid e = true) evs →
  ∃ o s, getCall (startCall m callSid sock rnd now) callSid = Some (o, s)
         ∧ ws s = sock ∧ startTime s = now
         ∧ tied callSid s (run muLawEncode (startCall m callSid sock rnd now) evs)
         ∧ ∀ o' s', getCall (run muLawEncode (startCall m callSid sock rnd now) evs) callSid
                    = Some (o', s') →
                    sameSession s s'.
Proof.
  intros Hun Hev.
  destruct (startCall_ties m callSid sock rnd now Hun) as (o & s & Hget & Hws & Hst & Ht).
  exists o, s. split_and!; try done.
  - by apply run_tied.
  - intros o' s' Hget'.
    by destruct (tied_getCall _ _ _ _ _ _ (run_tied muLawEncode _ _ _ _ Hev Ht) Hget' eq_refl).
Qed.

End Keeps.

(** ** Closed instances of the further properties *)

Lemma startCall_fresh_arms_nothing_witness :
  timers (startCall (run lowByte newManager [EvSocket 0 openSocket]) "CA1" None 3 1000) = []
  ∧ pendingWatchdogs (startCall (run lowByte newManager [EvSocket 0 openSocket]) "CA1" None 3 1000)
      "CA1" = [].
Proof.
  destruct (startCall_fresh_arms_nothing (run lowByte newManager [EvSocket 0 openSocket])
              "CA1" None 3 1000) as (Ht & Hp & _).
  - vm_compute. reflexivity.
  - split; [exact Ht | exact Hp].
Defined.

Lemma startCall_again_watchdog_on_old_witness :
  timers (startCall (run lowByte newManager startedCall) "CA1" None 4 2000) !! 0%nat
  = Some {| cb := WatchdogCb 0 "CA1" "Target bot unreachable (no connection) for 2 minutes.";
            delay := 120000; pending := true |}
  ∧ ∃ o' s', getCall (startCall (run lowByte newManager startedCall) "CA1" None 4 2000) "CA1"
             = Some (o', s') ∧ o' ≠ 0%nat ∧ watchdogTimeout s' = None.
Proof.
  edestruct (startCall_again_watchdog_on_old (run lowByte newManager startedCall)
               "CA1" None 4 2000) as (Ht & _ & o' & s' & Hg & Hne & Hw & _).
  - vm_compute. reflexivity.
  - split; [exact Ht|]. exists o', s'. split_and!; [exact Hg | exact Hne | exact Hw].
Defined.

Lemma endCall_wait_gives_up_witness :
  tasks (run lowByte (run lowByte newManager stoppedWhileTranscribing)
           (replicate (60 - 0) (EvSettle 1 ASleep))) !! 1%nat = Some KDone
  ∨ tasks (run lowByte (run lowByte newManager stoppedWhileTranscribing)
             (replicate (60 - 0) (EvSettle 1 ASleep))) !! 1%nat = Some (KEndReport 0 "CA1").
Proof.
  apply (endCall_wait_gives_up lowByte (run lowByte newManager stoppedWhileTranscribing)
           1 0 "CA1" 0).
  - vm_compute. reflexivity.
  - lia.
Defined.

Lemma nan_frame_only_buffers_witness :
  timers (handleIncomingAudio (run lowByte newManager firstSilence) "CA1" [] 0 NaN)
  = timers (run lowByte newManager firstSilence)
  ∧ tasks (handleIncomingAudio (run lowByte newManager firstSilence) "CA1" [] 0 NaN)
    = tasks (run lowByte newManager firstSilence).
Proof.
  edestruct (nan_frame_only_buffers (run lowByte newManager firstSilence) "CA1" [] 0 NaN)
    as (_ & Ht & Hta & _).
  - vm_compute. reflexivity.
  - vm_compute. reflexivity.
  - reflexivity.
  - reflexivity.
  - split; [exact Ht | exact Hta].
Defined.

Lemma boundary_expiry_starts_cycle_witness :
  out (fireTimer (run lowByte newManager firstSilence) 0)
  = out (run lowByte newManager firstSilence) ++ [OSttCall [[1; 0]; [0; 0]]]
  ∧ isPending (fireTimer (run lowByte newManager firstSilence) 0) 0 = false.
Proof.
  edestruct (boundary_expiry_starts_cycle (run lowByte newManager firstSilence) 0)
    as (Ho & _ & Hp & _).
  - vm_compute. reflexivity.
  - vm_compute. reflexivity.
  - vm_compute. reflexivity.
  - split; [exact Ho | exact Hp].
Defined.

Lemma dropped_transcript_leaves_no_trace_witness :
  turnArrs (settle lowByte (run lowByte newManager firstBoundary) 0 (AStt " . " "en-IN"))
  = turnArrs (run lowByte newManager firstBoundary)
  ∧ out (settle lowByte (run lowByte newManager firstBoundary) 0 (AStt " . " "en-IN"))
    = out (run lowByte newManager firstBoundary).
Proof.
  edestruct (dropped_transcript_leaves_no_trace lowByte (run lowByte newManager firstBoundary)
               0 (KStt 0 "CA1" 0) (AStt " . " "en-IN") 0 "CA1" 0) as (Ht & Ho & _).
  - vm_compute. reflexivity.
  - left. exists " . ", "en-IN". split_and!; [reflexivity | reflexivity | vm_compute; lia].
  - split; [exact Ht | exact Ho].
Defined.


Lemma playback_without_open_socket_witness :
  out (settle lowByte (run lowByte newManager pausedPlayback) 0 ASleep)
  = out (run lowByte newManager pausedPlayback)
  ∧ timers (settle lowByte (run lowByte newManager pausedPlayback) 0 ASleep)
      !! length (timers (run lowByte newManager pausedPlayback))
    = Some {| cb := WatchdogCb 2 "CA1" watchdogAfterPlayback; delay := 45000;
              pending := true |}.
Proof.
  destruct (playback_without_open_socket lowByte "CA1" 0 (AfterCycle 0) 0
              (run lowByte newManager pausedPlayback)) as (_ & Hint).
  edestruct (Hint (map lowByte (map boostSample (replicate 2000 100))) 1920%nat)
    as (Ho & _ & _ & Hw).
  - vm_compute. reflexivity.
  - vm_compute. reflexivity.
  - split; [exact Ho|].
    edestruct (Hw 2%nat) as (Ht & _).
    + vm_compute. reflexivity.
    + exact Ht.
Defined.

Lemma generation_request_messages_witness :
  out (settle lowByte (run lowByte newManager toFilter) 0 (AHall false))
  = out (run lowByte newManager toFilter)
    ++ [OLlmCall "Hello, how can I help you?" 1 None].
Proof.
  edestruct (generation_request_messages lowByte (run lowByte newManager toFilter) 0)
    as (Hcycle & _).
  - vm_compute. reflexivity.
  - vm_compute. reflexivity.
  - edestruct (Hcycle 0%nat "Hello, how can I help you?" "en-IN") as (Ho & _).
    + vm_compute. reflexivity.
    + vm_compute. reflexivity.
    + exact Ho.
Defined.

Lemma wait_reply_leaves_copy_processing_witness :
  tasks (endCall (settle lowByte (run lowByte newManager toGeneration) 0 (ALlm "WAIT")) "CA1")
  = tasks (settle lowByte (run lowByte newManager toGeneration) 0 (ALlm "WAIT"))
    ++ [KEndWait (length (objs (run lowByte newManager toGeneration))) "CA1" 0].
Proof.
  edestruct (wait_reply_leaves_copy_processing lowByte (run lowByte newManager toGeneration)
               0 0) as (_ & _ & _ & Hend).
  - vm_compute. reflexivity.
  - vm_compute. reflexivity.
  - vm_compute. reflexivity.
  - instantiate (1 := "WAIT"). vm_compute. reflexivity.
  - apply Hend; vm_compute; reflexivity.
Defined.

Lemma transcriptText_is_one_line_witness :
  hasLineFeed (transcriptText [{| role := user; content := "Hello, how can I help you?" |};
                               {| role := assistant; content := "I want to book." |}])
  = false.
Proof.
  apply transcriptText_is_one_line. repeat constructor.
Defined.

Lemma reply_marks_speech_witness :
  timers (handleIncomingAudio
            (playAIResponse (run lowByte newManager startedCall) "CA1" "Hello?" 0 "en-IN"
               Detached None) "CA1" [0; 0] 0 quietRms)
  = timers (playAIResponse (run lowByte newManager startedCall) "CA1" "Hello?" 0 "en-IN"
              Detached None)
    ++ [{| cb := SilenceCb 0 "CA1" 0; delay := 1200; pending := true |}].
Proof.
  edestruct (reply_marks_speech (run lowByte newManager startedCall) "CA1" "Hello?" 0 "en-IN"
               Detached None 0) as (_ & _ & _ & Harm).
  - vm_compute. reflexivity.
  - reflexivity.
  - vm_compute. reflexivity.
  - vm_compute. reflexivity.
  - apply Harm; reflexivity.
Defined.

Lemma stored_socket_close_never_runs_witness :
  sockets (endCall (run lowByte newManager firstSilence) "CA1")
  = sockets (run lowByte newManager firstSilence).
Proof.
  destruct (stored_socket_close_never_runs lowByte (run lowByte newManager firstSilence))
    as (_ & _ & _ & Hend & _).
  - vm_compute. repeat constructor.
  - exact (Hend "CA1").
Defined.


Lemma generation_failure_speaks_fallback_witness :
  out (settle lowByte (run lowByte newManager toGeneration) 0 ALlmError)
  = out (run lowByte newManager toGeneration) ++ [OTtsCall llmFallbackReply "en-IN"].
Proof.
  edestruct (generation_failure_speaks_fallback lowByte (run lowByte newManager toGeneration)
               0 0 "CA1" 0 "en-IN" 1) as (_ & _ & _ & Ho & _).
  - vm_compute. reflexivity.
  - vm_compute. reflexivity.
  - reflexivity.
  - vm_compute. reflexivity.
  - exact Ho.
Defined.

Lemma watchdog_expiry_witness :
  isPending (fireTimer (run lowByte newManager armedWatchdog) 0) 0 = false
  ∧ turnArrs (fireTimer (run lowByte newManager armedWatchdog) 0) !! 0%nat
    = Some [{| role := assistant; content := "[Auto-Terminated: Target bot hung.]" |}].
Proof.
  edestruct (watchdog_expiry (run lowByte newManager armedWatchdog) 0 0 "CA1"
               "Target bot hung." 45000) as (_ & Ht & Hp).
  - vm_compute. reflexivity.
  - vm_compute. reflexivity.
  - vm_compute. reflexivity.
  - split; [exact Hp | exact Ht].
Defined.

Lemma held_handle_blocks_arming_witness :
  timers (run lowByte (run lowByte newManager firstSilence)
            [EvAudio "CA1" [0; 0] 0 quietRms; EvAudio "CA1" [] 0 NaN;
             EvAudio "CA1" [0; 0] 0 quietRms])
  = timers (run lowByte newManager firstSilence).
Proof.
  edestruct (held_handle_blocks_arming lowByte
               [EvAudio "CA1" [0; 0] 0 quietRms; EvAudio "CA1" [] 0 NaN;
                EvAudio "CA1" [0; 0] 0 quietRms]
               (run lowByte newManager firstSilence) "CA1" 0) as (Ht & _).
  - vm_compute. reflexivity.
  - vm_compute. reflexivity.
  - vm_compute. reflexivity.
  - repeat constructor.
  - exact Ht.
Defined.

Lemma call_keeps_its_session_witness :
  ∃ o s, getCall (startCall (step lowByte newManager (EvSocket 0 openSocket))
                    "CA1" None 3 1000) "CA1" = Some (o, s)
         ∧ ws s = None ∧ startTime s = 1000
         ∧ tied "CA1" s (run lowByte (startCall (step lowByte newManager
                                                   (EvSocket 0 openSocket))
                                        "CA1" None 3 1000) servedCall)
         ∧ ∀ o' s', getCall (run lowByte (startCall (step lowByte newManager
                                                      (EvSocket 0 openSocket))
                                           "CA1" None 3 1000) servedCall) "CA1"
                    = Some (o', s') →
                    sameSession s s'.
Proof.
  refine (call_keeps_its_session lowByte (step lowByte newManager (EvSocket 0 openSocket))
           "CA1" None 3 1000 servedCall _ _).
  - split_and!; [reflexivity | constructor | constructor].
  - repeat (apply Forall_cons; split; [vm_compute; reflexivity|]). constructor.
Defined.
